(** * Distance estimation pipeline of the radar ranging service

    A shallow embedding of [example_basic_service_lookup_table.c] and
    [example_lookup_table.h]: the temperature divisor, the threshold-crossing
    estimator, the lookup-table correction, the smoothing buffer step of the
    measurement loop, the calibrate/prepare routine and the service entry point
    with its start-up, its loop and its clean-up.

    Conventions.
    - C integers are [Z]; a conversion to an unsigned type is written out as a
      reduction modulo a power of two, and signed [int] arithmetic whose result
      leaves the 32-bit range is undefined behaviour ([Undefined]).
    - C [float] is IEEE binary32 and [double] is IEEE binary64, both through the
      Standard Library's [SpecFloat] (round to nearest even, one rounding per
      operation, no contraction).
    - Code paths on which C gives no meaning (division of integers by zero,
      an index outside an array, a float out of range of the integer type it is
      cast to) evaluate to [Undefined]. *)

From Stdlib Require Import ZArith List Bool Lia PeanoNat.
From Stdlib Require Import Floats.SpecFloat.
From ITree Require Import ITree ITreeFacts Events.State Events.StateFacts Props.HasPost.
Import ListNotations.

Local Open Scope Z_scope.

(** ** Outcomes of C evaluation *)

Inductive outcome (A : Type) : Type :=
| Ok (a : A)
| Undefined.
Arguments Ok {A} a.
Arguments Undefined {A}.

Definition outcome_bind {A B : Type} (x : outcome A) (k : A -> outcome B) : outcome B :=
  match x with
  | Ok a => k a
  | Undefined => Undefined
  end.

Declare Scope outcome_scope.
Delimit Scope outcome_scope with outcome.
Notation "'do' x <- e ; k" := (outcome_bind e (fun x => k))
  (at level 10, x pattern, e at level 100, k at level 200) : outcome_scope.

(** ** Machine integers *)

Definition INT_MIN : Z := - 2 ^ 31.
Definition INT_MAX : Z := 2 ^ 31 - 1.

(** A signed [int] result: defined only inside the 32-bit range. *)
Definition int_result (z : Z) : outcome Z :=
  if (INT_MIN <=? z) && (z <=? INT_MAX) then Ok z else Undefined.

(** [int / int]: truncating, undefined for a zero divisor. *)
Definition int_div (a b : Z) : outcome Z :=
  if b =? 0 then Undefined else int_result (Z.quot a b).

(** Conversions to [uint16_t] and [uint32_t]. *)
Definition to_uint16 (z : Z) : Z := z mod 2 ^ 16.
Definition to_uint32 (z : Z) : Z := z mod 2 ^ 32.

(** ** IEEE binary32 ([float]) and binary64 ([double]) *)

Module F32.
Definition prec : Z := 24.
Definition emax : Z := 128.

Definition add : spec_float -> spec_float -> spec_float := SFadd prec emax.
Definition sub : spec_float -> spec_float -> spec_float := SFsub prec emax.
Definition mul : spec_float -> spec_float -> spec_float := SFmul prec emax.
Definition div : spec_float -> spec_float -> spec_float := SFdiv prec emax.

(** The C comparison operators; every one of them is false on a NaN. *)
Definition eqb : spec_float -> spec_float -> bool := SFeqb.
Definition ltb : spec_float -> spec_float -> bool := SFltb.
Definition leb : spec_float -> spec_float -> bool := SFleb.
Definition gtb (a b : spec_float) : bool := SFltb b a.
Definition geb (a b : spec_float) : bool := SFleb b a.

Definition is_nan (x : spec_float) : bool :=
  match x with S754_nan => true | _ => false end.

Definition is_finite (x : spec_float) : bool :=
  match x with S754_zero _ | S754_finite _ _ _ => true | _ => false end.

(** Conversion of an integer, rounding to nearest even. *)
Definition of_int (z : Z) : spec_float := binary_normalize prec emax z 0 false.

Definition zero : spec_float := S754_zero false.

(** The decimal literal [n / d] for integers below [2 ^ 24], which convert
    exactly: the quotient is rounded once. *)
Definition lit (n d : Z) : spec_float := div (of_int n) (of_int d).

(** Integral part (truncation toward zero) of a finite float. *)
Definition trunc (x : spec_float) : option Z :=
  match x with
  | S754_zero _ => Some 0
  | S754_finite s m e =>
      let mag := if 0 <=? e then Z.shiftl (Zpos m) e else Z.shiftr (Zpos m) (- e) in
      Some (if s then - mag else mag)
  | _ => None
  end.

(** The cast [(uint32_t) x]: undefined when the integral part is not a
    [uint32_t] value, and for infinities and NaN. *)
Definition to_uint32 (x : spec_float) : outcome Z :=
  match trunc x with
  | Some z => if (0 <=? z) && (z <? 2 ^ 32) then Ok z else Undefined
  | None => Undefined
  end.
End F32.

Module F64.
Definition prec : Z := 53.
Definition emax : Z := 1024.

Definition div : spec_float -> spec_float -> spec_float := SFdiv prec emax.
Definition of_int (z : Z) : spec_float := binary_normalize prec emax z 0 false.
Definition lit (n d : Z) : spec_float := div (of_int n) (of_int d).

(** The conversion [(float) x] of a double. *)
Definition to_float (x : spec_float) : spec_float :=
  match x with
  | S754_finite s m e => binary_round F32.prec F32.emax s m e
  | _ => x
  end.
End F64.

(** ** The temperature divisor

    [run_simple_threshold_algo] (lines 378-383) and [run_delay_n_compare_algo]
    (lines 467-472) open with the same statements:
<<
    uint16_t divisor = (-15 * temp) + 1600;
    if (divisor < 0 ) { divisor = 1; } else { divisor = round(divisor); }
>>
    [temp] is a [uint16_t], promoted to [int] for the arithmetic, whose result
    is then converted to [uint16_t]. *)

(** [round] on a [uint16_t]: the value converts exactly to [double], is already
    integral, and converts back unchanged. *)
Definition round_uint16 (d : Z) : Z := d.

Definition compute_divisor (temp : Z) : Z :=
  let divisor := to_uint16 ((-15 * temp) + 1600) in
  if divisor <? 0 then 1 else round_uint16 divisor.

(** The divisor in the words of the specification: [round(-15 * t + 1600)]
    clamped to a minimum of 1. *)
Definition divisor_per_spec (temp : Z) : Z := Z.max 1 (-15 * temp + 1600).

(** ** The position-distance lookup table ([example_lookup_table.h])

    The header defines the macro [LOOKUP_TABLE_SIZE] and two constant arrays of
    that size.  The table is generated data, so it is a value here; [example_table]
    is the one the header carries. *)

Module LookupTable.

Record lookup_table : Type := {
  LOOKUP_TABLE_SIZE : nat;
  positions : list spec_float;
  distances : list spec_float
}.

(** [for (int i = 0; i < n; i++) if (test i) return ...]: the first index, from
    [i] on and within [n] iterations, at which the test holds. *)
Fixpoint first_index (test : nat -> bool) (i n : nat) : option nat :=
  match n with
  | O => None
  | S n' => if test i then Some i else first_index test (S i) n'
  end.

Definition not_found : spec_float := F32.of_int (-1).

(** [y1 + (y2 - y1) * (position - x1) / (x2 - x1)], left to right. *)
Definition interpolate (x1 y1 x2 y2 position : spec_float) : spec_float :=
  F32.add y1 (F32.div (F32.mul (F32.sub y2 y1) (F32.sub position x1)) (F32.sub x2 x1)).

(** The array reads [positions[i]] and [distances[i]]. *)
Definition position_at (t : lookup_table) (i : nat) : spec_float :=
  nth i (positions t) F32.zero.
Definition distance_at (t : lookup_table) (i : nat) : spec_float :=
  nth i (distances t) F32.zero.

Definition getNearestDistance (t : lookup_table) (position : spec_float) : spec_float :=
  if (LOOKUP_TABLE_SIZE t =? 0)%nat then not_found
  else
    match first_index (fun i => F32.eqb (position_at t i) position)
                      0 (LOOKUP_TABLE_SIZE t) with
    | Some i => distance_at t i
    | None =>
        if F32.leb position (position_at t 0) then distance_at t 0
        else if F32.geb position (position_at t (LOOKUP_TABLE_SIZE t - 1))
        then distance_at t (LOOKUP_TABLE_SIZE t - 1)
        else
          match first_index
                  (fun i => F32.gtb position (position_at t i)
                            && F32.ltb position (position_at t (i + 1)))
                  0 (LOOKUP_TABLE_SIZE t - 1) with
          | Some i =>
              interpolate (position_at t i) (distance_at t i)
                          (position_at t (i + 1)) (distance_at t (i + 1)) position
          | None => not_found
          end
    end.

(** The table of [example_lookup_table.h]. *)
Definition example_table : lookup_table := {|
  LOOKUP_TABLE_SIZE := 5;
  positions := [F32.lit 1050 100; F32.lit 2075 100; F32.lit 3025 100;
                F32.lit 4000 100; F32.lit 5015 100];
  distances := [F32.lit 1045 100; F32.lit 2078 100; F32.lit 3022 100;
                F32.lit 4003 100; F32.lit 5012 100]
|}.

(** The arrays have [LOOKUP_TABLE_SIZE] entries, every position is a number and
    the positions increase strictly. *)
Fixpoint increasing (l : list spec_float) : bool :=
  match l with
  | a :: ((b :: _) as tl) => F32.ltb a b && increasing tl
  | _ => true
  end.

Definition table_ok (t : lookup_table) : bool :=
  (length (positions t) =? LOOKUP_TABLE_SIZE t)%nat
  && (length (distances t) =? LOOKUP_TABLE_SIZE t)%nat
  && forallb (fun p => negb (F32.is_nan p)) (positions t)
  && increasing (positions t).

(** Lines 30-37: the exact-match query. *)
Definition getDistanceForPosition (t : lookup_table) (position : spec_float) : spec_float :=
  match first_index (fun i => F32.eqb (position_at t i) position)
                    0 (LOOKUP_TABLE_SIZE t) with
  | Some i => distance_at t i
  | None => not_found
  end.




End LookupTable.

(** ** Distance correction ([apply_distance_correction], lines 593-638)

    The two table headers are conditional: [LOOKUP_TABLE] is [Some] when
    [lookup_table.h] defines [LOOKUP_TABLE_SIZE], and [ERROR_TABLE] is [Some f]
    when [error_correction_table.h] defines [ERROR_TABLE_SIZE], with [f] its
    [applyCorrectedDistance].  That header is not among the sources, so the
    function is a component of the configuration. *)

Import LookupTable.

Record correction_tables : Type := {
  LOOKUP_TABLE : option lookup_table;
  ERROR_TABLE : option (spec_float -> spec_float)
}.

Definition lookup_tables_available (c : correction_tables) : bool :=
  match LOOKUP_TABLE c with
  | Some t => (0 <? LOOKUP_TABLE_SIZE t)%nat
  | None => false
  end.

(** [|a - b|] the way line 617 writes it. *)
Definition difference (lookup_distance corrected_distance : spec_float) : spec_float :=
  if F32.gtb lookup_distance corrected_distance
  then F32.sub lookup_distance corrected_distance
  else F32.sub corrected_distance lookup_distance.

Definition apply_distance_correction (c : correction_tables) (raw_distance_mm : spec_float)
  : spec_float :=
  if negb (lookup_tables_available c) then raw_distance_mm
  else
    match ERROR_TABLE c with
    | Some applyCorrectedDistance =>
        let corrected_distance := applyCorrectedDistance raw_distance_mm in
        match LOOKUP_TABLE c with
        | Some t =>
            let lookup_distance := getNearestDistance t corrected_distance in
            if F32.gtb lookup_distance F32.zero then
              if F32.gtb (difference lookup_distance corrected_distance) (F32.of_int 2)
              then lookup_distance
              else corrected_distance
            else corrected_distance
        | None => corrected_distance
        end
    | None =>
        match LOOKUP_TABLE c with
        | Some t =>
            let lookup_distance := getNearestDistance t raw_distance_mm in
            if F32.gtb lookup_distance F32.zero then lookup_distance else raw_distance_mm
        | None => raw_distance_mm
        end
    end.

(** ** The threshold-crossing estimator ([run_simple_threshold_algo], lines 373-461) *)

Module Estimator.

Local Open Scope outcome_scope.

(** One complex sample; both parts are [int16_t]. *)
Record acc_int16_complex_t : Type := {
  real : Z;
  imag : Z
}.

(** Modelled from the spec: [print_data_config.h] is not among the sources.  The
    range geometry (start offset, step, point count, sweeps per frame) is held
    in integer fields, the scale factor, the four x-intercepts and the slope and
    y-intercept of each threshold segment in [float] fields; [algo], [avg_type],
    [wma_factor] and [wma_start] select the estimator and the smoothing mode. *)
Record PrintDataConfig : Type := {
  rf_factor : spec_float;
  num_points : Z;
  sweeps_per_frame : Z;
  step : Z;
  start_point : Z;
  x_intercepts : list spec_float;
  line1_slope : spec_float;
  y_inter_line1 : spec_float;
  line2_slope : spec_float;
  y_inter_line2 : spec_float;
  line3_slope : spec_float;
  y_inter_line3 : spec_float;
  algo : Z;
  avg_type : Z;
  wma_factor : Z;
  wma_start : Z
}.

(** Modelled from the spec: [processed_data.h] is not among the sources.  The
    auxiliary metrics of an estimate, each an unsigned integer field. *)
Record ProcessedData : Type := {
  divisor : Z;
  first_threshold_x : Z;
  first_threshold_y : Z;
  max_amplitude : Z;
  temp : Z;
  threshold_crossed : Z;
  selected_distance : Z
}.

(** Local arrays are lists; an access outside the array is undefined. *)
Definition array_get {A : Type} (a : list A) (i : nat) : outcome A :=
  match nth_error a i with
  | Some v => Ok v
  | None => Undefined
  end.

Fixpoint list_set {A : Type} (a : list A) (i : nat) (v : A) : list A :=
  match a, i with
  | [], _ => []
  | _ :: tl, O => v :: tl
  | x :: tl, S i' => x :: list_set tl i' v
  end.

Definition array_set {A : Type} (a : list A) (i : nat) (v : A) : outcome (list A) :=
  if (i <? length a)%nat then Ok (list_set a i v) else Undefined.

(** The locals of the function that the scan reads and writes. *)
Record locals : Type := {
  amplitudes : list Z;
  distances : list spec_float;
  first_threshold_index : Z;
  l_first_threshold_x : spec_float;
  l_first_threshold_y : spec_float;
  first_below_threshold_x : spec_float;
  first_below_threshold_y : spec_float;
  l_threshold_crossed : spec_float;
  l_max_amplitude : spec_float
}.

(** Lines 388-398: both arrays have 400 zeroed entries. *)
Definition initial_locals : locals := {|
  amplitudes := repeat 0 400;
  distances := repeat F32.zero 400;
  first_threshold_index := 0;
  l_first_threshold_x := F32.zero;
  l_first_threshold_y := F32.zero;
  first_below_threshold_x := F32.zero;
  first_below_threshold_y := F32.zero;
  l_threshold_crossed := F32.zero;
  l_max_amplitude := F32.zero
|}.

(** Line 375: [0.0025 / rf_factor] is a [double] division, stored in a [float]. *)
Definition rf_factor_step (cfg : PrintDataConfig) : spec_float :=
  F64.to_float (F64.div (F64.lit 25 10000) (rf_factor cfg)).

(** Line 403: the squares and their sum are [int] arithmetic, the quotient by
    the (promoted) divisor too, and the result is stored in a [uint32_t]. *)
Definition amplitude_of (s : acc_int16_complex_t) (divisor : Z) : outcome Z :=
  do rr <- int_result (real s * real s);
  do ii <- int_result (imag s * imag s);
  do sum <- int_result (rr + ii);
  do q <- int_div sum divisor;
  Ok (to_uint32 q).

(** Line 409. *)
Definition distance_of (cfg : PrintDataConfig) (sweep_index : nat) : spec_float :=
  let rf := rf_factor_step cfg in
  F32.add (F32.mul (F32.mul (F32.of_int (Z.of_nat sweep_index)) rf) (F32.of_int (step cfg)))
          (F32.mul (F32.of_int (start_point cfg)) rf).

(** Lines 412-425: the piecewise-linear threshold, zero outside the segments. *)
Definition threshold_of (cfg : PrintDataConfig) (distance : spec_float) : spec_float :=
  let x k := nth k (x_intercepts cfg) F32.zero in
  if F32.geb distance (x 0%nat) && F32.leb distance (x 1%nat) then
    F32.add (F32.mul distance (line1_slope cfg)) (y_inter_line1 cfg)
  else if F32.gtb distance (x 1%nat) && F32.leb distance (x 2%nat) then
    F32.add (F32.mul distance (line2_slope cfg)) (y_inter_line2 cfg)
  else if F32.gtb distance (x 2%nat) && F32.leb distance (x 3%nat) then
    F32.add (F32.mul distance (line3_slope cfg)) (y_inter_line3 cfg)
  else F32.zero.

(** Line 427: the test that records a crossing. *)
Definition crosses (l : locals) (amplitude : Z) (threshold : spec_float) : bool :=
  F32.eqb (l_first_threshold_x l) F32.zero
  && F32.gtb (F32.sub (F32.of_int amplitude) threshold) F32.zero.

(** Lines 428-436: what is recorded at the crossing. *)
Definition record_crossing (l : locals) (sweep_index : nat) (amplitude : Z)
    (distance threshold : spec_float) : outcome locals :=
  let l1 := {|
    amplitudes := amplitudes l;
    distances := distances l;
    first_threshold_index := Z.of_nat sweep_index;
    l_first_threshold_x := distance;
    l_first_threshold_y := F32.of_int amplitude;
    first_below_threshold_x := first_below_threshold_x l;
    first_below_threshold_y := first_below_threshold_y l;
    l_threshold_crossed := threshold;
    l_max_amplitude := l_max_amplitude l
  |} in
  if (0 <? sweep_index)%nat then
    do x <- array_get (distances l1) (sweep_index - 1);
    do y <- array_get (amplitudes l1) (sweep_index - 1);
    Ok {|
      amplitudes := amplitudes l1;
      distances := distances l1;
      first_threshold_index := first_threshold_index l1;
      l_first_threshold_x := l_first_threshold_x l1;
      l_first_threshold_y := l_first_threshold_y l1;
      first_below_threshold_x := x;
      first_below_threshold_y := F32.of_int y;
      l_threshold_crossed := l_threshold_crossed l1;
      l_max_amplitude := l_max_amplitude l1
    |}
  else Ok l1.

(** Lines 403-438: one iteration of the scan; the flag says that the loop was
    left by [break]. *)
Definition scan_body (cfg : PrintDataConfig) (data : list acc_int16_complex_t)
    (divisor : Z) (sweep_index : nat) (l : locals) : outcome (locals * bool) :=
  do s <- array_get data sweep_index;
  do amplitude <- amplitude_of s divisor;
  do amps <- array_set (amplitudes l) sweep_index amplitude;
  let max_amp :=
    if F32.gtb (F32.of_int amplitude) (l_max_amplitude l)
    then F32.of_int amplitude else l_max_amplitude l in
  let distance := distance_of cfg sweep_index in
  do dists <- array_set (distances l) sweep_index distance;
  let threshold := threshold_of cfg distance in
  let l1 := {|
    amplitudes := amps;
    distances := dists;
    first_threshold_index := first_threshold_index l;
    l_first_threshold_x := l_first_threshold_x l;
    l_first_threshold_y := l_first_threshold_y l;
    first_below_threshold_x := first_below_threshold_x l;
    first_below_threshold_y := first_below_threshold_y l;
    l_threshold_crossed := l_threshold_crossed l;
    l_max_amplitude := max_amp
  |} in
  if crosses l1 amplitude threshold then
    do l2 <- record_crossing l1 sweep_index amplitude distance threshold;
    Ok (l2, true)
  else Ok (l1, false).

(** Line 402: [for (sweep_index = 0; sweep_index < num_points; sweep_index++)],
    with [n] the iterations that remain. The counter is a [uint16_t], which
    an index below 400 never wraps. *)
Fixpoint scan_loop (cfg : PrintDataConfig) (data : list acc_int16_complex_t)
    (divisor : Z) (sweep_index n : nat) (l : locals) : outcome locals :=
  match n with
  | O => Ok l
  | S n' =>
      do r <- scan_body cfg data divisor sweep_index l;
      let '(l', broke) := r in
      if broke then Ok l' else scan_loop cfg data divisor (S sweep_index) n' l'
  end.

(** Line 443: the sub-sample interpolation, with no test on its denominator. *)
Definition interpolate_crossing (l : locals) : spec_float :=
  F32.add (first_below_threshold_x l)
    (F32.mul
       (F32.div (F32.sub (l_threshold_crossed l) (first_below_threshold_y l))
                (F32.sub (l_first_threshold_y l) (first_below_threshold_y l)))
       (F32.sub (l_first_threshold_x l) (first_below_threshold_x l))).

(** Lines 443-457: interpolation, correction and the report. *)
Definition report_crossing (tables : correction_tables) (divisor : Z) (l : locals)
    (proc_data : ProcessedData) : outcome (Z * ProcessedData) :=
  let selected := interpolate_crossing l in
  let corrected_distance_mm :=
    apply_distance_correction tables (F32.mul selected (F32.of_int 1000)) in
  let selected := F32.div corrected_distance_mm (F32.of_int 1000) in
  do distance <- F32.to_uint32 (F32.mul selected (F32.of_int 10000));
  do ftx <- F32.to_uint32 (F32.mul (l_first_threshold_x l) (F32.of_int 10000));
  do fty <- F32.to_uint32 (l_first_threshold_y l);
  do maxa <- F32.to_uint32 (l_max_amplitude l);
  Ok (distance,
      {| divisor := to_uint16 divisor;
         first_threshold_x := ftx;
         first_threshold_y := fty;
         max_amplitude := maxa;
         temp := temp proc_data;
         threshold_crossed := threshold_crossed proc_data;
         selected_distance := distance |}).

(** The function returns its [uint32_t] result and the contents of [*proc_data]
    on return. [temp] and [data_length] are [uint16_t] arguments. *)
Definition run_simple_threshold_algo (tables : correction_tables)
    (data : list acc_int16_complex_t) (data_length : Z) (cfg : PrintDataConfig)
    (temp : Z) (proc_data : ProcessedData) : outcome (Z * ProcessedData) :=
  let divisor := compute_divisor temp in
  do frame_size <- int_result (num_points cfg * sweeps_per_frame cfg);
  if data_length =? frame_size then
    do l <- scan_loop cfg data divisor 0 (Z.to_nat (num_points cfg)) initial_locals;
    if negb (first_threshold_index l =? 0) then report_crossing tables divisor l proc_data
    else Ok (0, proc_data)
  else Ok (0, proc_data).

(** The peak amplitude after the first [n] samples of amplitudes [amp]
    (lines 405-407, iterated). *)
Fixpoint running_max (amp : nat -> Z) (n : nat) : spec_float :=
  match n with
  | O => F32.zero
  | S n' =>
      if F32.gtb (F32.of_int (amp n')) (running_max amp n')
      then F32.of_int (amp n') else running_max amp n'
  end.

(** Sample [i] is in the frame and its amplitude [amp i] is defined. *)
Definition sampled (data : list acc_int16_complex_t) (d : Z) (amp : nat -> Z)
    (i : nat) : Prop :=
  exists s, nth_error data i = Some s /\ amplitude_of s d = Ok (amp i).

(** The test of line 427 on sample [i], [first_threshold_x] being 0 still. *)
Definition above (cfg : PrintDataConfig) (amp : nat -> Z) (i : nat) : bool :=
  F32.gtb (F32.sub (F32.of_int (amp i)) (threshold_of cfg (distance_of cfg i))) F32.zero.

(** The locals before iteration [i] when no earlier sample was above its
    threshold. *)
Record scanning (cfg : PrintDataConfig) (amp : nat -> Z) (i : nat) (l : locals)
  : Prop := {
  scanning_amplitudes : length (amplitudes l) = 400%nat;
  scanning_distances : length (distances l) = 400%nat;
  scanning_index : first_threshold_index l = 0;
  scanning_x : l_first_threshold_x l = F32.zero;
  scanning_y : l_first_threshold_y l = F32.zero;
  scanning_below_x : first_below_threshold_x l = F32.zero;
  scanning_below_y : first_below_threshold_y l = F32.zero;
  scanning_threshold : l_threshold_crossed l = F32.zero;
  scanning_max : l_max_amplitude l = running_max amp i;
  scanning_seen_amplitude :
    forall j, (j < i)%nat -> nth_error (amplitudes l) j = Some (amp j);
  scanning_seen_distance :
    forall j, (j < i)%nat -> nth_error (distances l) j = Some (distance_of cfg j)
}.

(** The locals once the crossing is recorded at index [k]. *)
Record crossed (cfg : PrintDataConfig) (amp : nat -> Z) (k : nat) (l : locals)
  : Prop := {
  crossed_index : first_threshold_index l = Z.of_nat k;
  crossed_x : l_first_threshold_x l = distance_of cfg k;
  crossed_y : l_first_threshold_y l = F32.of_int (amp k);
  crossed_below_x : first_below_threshold_x l = distance_of cfg (k - 1)%nat;
  crossed_below_y : first_below_threshold_y l = F32.of_int (amp (k - 1)%nat);
  crossed_threshold : l_threshold_crossed l = threshold_of cfg (distance_of cfg k);
  crossed_max : l_max_amplitude l = running_max amp (S k)
}.

End Estimator.

(** ** The smoothing buffer *)

Module Fifo.

Section Buffer.
Variable A : Type.

(** Modelled from the spec: [fifo_buff.h] is not among the sources.  The
    buffer is a fixed-capacity ordered sequence of past values, oldest
    first. *)
Record FIFOBuffer : Type := {
  capacity : nat;
  items : list A
}.

(** Modelled from the spec: [initBuffer] of [fifo_buff.h]; a buffer starts
    empty. *)
Definition initBuffer (N : nat) : FIFOBuffer := {| capacity := N; items := [] |}.

(** Modelled from the spec: [isFull] of [fifo_buff.h]; the buffer is at
    capacity. *)
Definition isFull (b : FIFOBuffer) : bool := (capacity b <=? length (items b))%nat.

(** Modelled from the spec: [dequeue] of [fifo_buff.h]; the oldest entry is
    evicted. *)
Definition dequeue (b : FIFOBuffer) : FIFOBuffer :=
  {| capacity := capacity b; items := tl (items b) |}.

(** Modelled from the spec: [enqueue] of [fifo_buff.h]; the new value becomes
    the newest entry. *)
Definition enqueue (b : FIFOBuffer) (v : A) : FIFOBuffer :=
  {| capacity := capacity b; items := items b ++ [v] |}.

(** Lines 239-243 of [acc_service]: the push of one value. *)
Definition push (b : FIFOBuffer) (v : A) : FIFOBuffer :=
  enqueue (if isFull b then dequeue b else b) v.

(** The buffer after a sequence of pushes, one per frame. *)
Definition pushes (b : FIFOBuffer) (vs : list A) : FIFOBuffer := fold_left push vs b.
End Buffer.

Arguments capacity {A} _.
Arguments items {A} _.
Arguments initBuffer {A} N.
Arguments isFull {A} b.
Arguments dequeue {A} b.
Arguments enqueue {A} b v.
Arguments push {A} b v.
Arguments pushes {A} b vs.

End Fifo.

(** ** One frame of the measurement loop ([acc_service], lines 233-251) *)

Module Service.

Import Estimator Fifo.
Local Open Scope outcome_scope.

(** The variables of [acc_service] that live across frames. *)
Record loop_state : Type := {
  lastHeldValues : FIFOBuffer spec_float;
  distance : spec_float;
  proc_data : ProcessedData
}.

(** Lines 170-179 and 98, for a buffer of capacity [N]. *)
Definition initial_state (N : nat) : loop_state := {|
  lastHeldValues := initBuffer N;
  distance := F32.zero;
  proc_data := {| divisor := 0; first_threshold_x := 0; first_threshold_y := 0;
                  max_amplitude := 0; temp := 0; threshold_crossed := 0;
                  selected_distance := 0 |}
|}.

(** Lines 233-243: the estimate, stored in the [float] [distance], and its push
    into the buffer.  [temperature] is the [int16_t] of the processing result,
    converted to the [uint16_t] parameter. *)
Definition frame_cycle (tables : correction_tables) (cfg : PrintDataConfig)
    (frame : list acc_int16_complex_t) (frame_data_length : Z) (temperature : Z)
    (st : loop_state) : outcome loop_state :=
  do r <- (if algo cfg =? 1 then
             do e <- run_simple_threshold_algo tables frame frame_data_length cfg
                       (to_uint16 temperature) (proc_data st);
             Ok (F32.of_int (fst e), snd e)
           else Ok (distance st, proc_data st));
  Ok {| lastHeldValues := push (lastHeldValues st) (fst r);
        distance := fst r;
        proc_data := snd r |}.

(** Lines 244-251: the value sent on, a [uint32_t].  [getAverage] and
    [computeWeightedAvg] belong to [fifo_buff.h]. *)
Definition avg_distance
    (getAverage : FIFOBuffer spec_float -> Z)
    (computeWeightedAvg : FIFOBuffer spec_float -> Z -> Z -> Z)
    (cfg : PrintDataConfig) (st : loop_state) : outcome Z :=
  if avg_type cfg =? 1 then Ok (to_uint32 (getAverage (lastHeldValues st)))
  else if avg_type cfg =? 2 then
    Ok (to_uint32 (computeWeightedAvg (lastHeldValues st) (wma_factor cfg) (wma_start cfg)))
  else F32.to_uint32 (distance st).

(** Lines 258-272: the payload of CAN message 0x14, eight [uint8_t].  The
    crossing amplitude passes through a [uint16_t] cast first. *)
Definition amplitude_message (pd : ProcessedData) : list Z :=
  let first_threshold_y := to_uint16 (first_threshold_y pd) in
  let max_amplitude := to_uint32 (max_amplitude pd) in
  [ Z.land (Z.shiftr max_amplitude 24) 255;
    Z.land (Z.shiftr max_amplitude 16) 255;
    Z.land (Z.shiftr max_amplitude 8) 255;
    Z.land max_amplitude 255;
    Z.land (Z.shiftr first_threshold_y 24) 255;
    Z.land (Z.shiftr first_threshold_y 16) 255;
    Z.land (Z.shiftr first_threshold_y 8) 255;
    Z.land first_threshold_y 255 ].

(** Lines 236, 261 and 284-291: the payload of CAN message 0x13.
    [avg_distance] is a [uint32_t], [divisor] and [temp] are [uint16_t]. *)
Definition distance_message (avg_distance : Z) (pd : ProcessedData) (temperature : Z)
  : list Z :=
  let temp := to_uint16 temperature in
  let divisor := to_uint16 (divisor pd) in
  [ Z.land (Z.shiftr avg_distance 24) 255;
    Z.land (Z.shiftr avg_distance 16) 255;
    Z.land (Z.shiftr avg_distance 8) 255;
    Z.land avg_distance 255;
    Z.land (Z.shiftr divisor 8) 255;
    Z.land divisor 255;
    Z.land (Z.shiftr temp 8) 255;
    Z.land temp 255 ].

(** The number a receiver reads from bytes sent most significant first. *)
Definition big_endian (bytes : list Z) : Z :=
  fold_left (fun acc b => acc * 256 + b) bytes 0.

End Service.

(** ** Calibration and preparation ([do_sensor_calibration_and_prepare], lines 336-371)

    The routine talks to the sensor through five primitives; it is an
    interaction tree over their calls. *)

Module Lifecycle.

Import ITreeNotations.
Local Open Scope itree_scope.

(** [acc_sensor_calibrate] answers with its status and the [cal_complete] it
    stores; the other primitives with their status. *)
Variant sensorE : Type -> Type :=
| acc_hal_integration_sensor_disable : sensorE unit
| acc_hal_integration_sensor_enable : sensorE unit
| acc_sensor_calibrate : sensorE (bool * bool)
| acc_hal_integration_wait_for_sensor_interrupt : sensorE bool
| acc_sensor_prepare : sensorE bool.

Definition calibration_retries : nat := 1.

(** Lines 350-358: the [do ... while (status && !cal_complete)] loop; its value
    is the final [status]. *)
Definition calibrate_until_complete : itree sensorE bool :=
  ITree.iter (fun _ : unit =>
    r <- ITree.trigger acc_sensor_calibrate ;;
    let '(status, cal_complete) := r in
    status <- (if status && negb cal_complete
               then ITree.trigger acc_hal_integration_wait_for_sensor_interrupt
               else Ret status) ;;
    if status && negb cal_complete then Ret (inl tt) else Ret (inr status)) tt.

(** Lines 344-359: [for (i = 0; !status && (i <= calibration_retries); i++)]. *)
Definition calibration_attempts : itree sensorE bool :=
  ITree.iter (fun st : bool * nat =>
    let '(status, i) := st in
    if negb status && (i <=? calibration_retries)%nat then
      ITree.trigger acc_hal_integration_sensor_disable ;;
      ITree.trigger acc_hal_integration_sensor_enable ;;
      status <- calibrate_until_complete ;;
      Ret (inl (status, S i))
    else Ret (inr status)) (false, O).

Definition do_sensor_calibration_and_prepare : itree sensorE bool :=
  status <- calibration_attempts ;;
  if status then
    ITree.trigger acc_hal_integration_sensor_disable ;;
    ITree.trigger acc_hal_integration_sensor_enable ;;
    ITree.trigger acc_sensor_prepare
  else Ret status.

(** The calls made, in order. *)
Inductive call : Type := Disable | Enable | Calibrate | WaitInterrupt | Prepare.

(** A sensor: what each primitive answers after a given history of calls. *)
Record sensor : Type := {
  calibrate_reply : list call -> bool * bool;
  interrupt_reply : list call -> bool;
  prepare_reply : list call -> bool
}.

Definition handle (s : sensor) : sensorE ~> Monads.stateT (list call) (itree void1) :=
  fun _ e log =>
    match e with
    | acc_hal_integration_sensor_disable => Ret (log ++ [Disable], tt)
    | acc_hal_integration_sensor_enable => Ret (log ++ [Enable], tt)
    | acc_sensor_calibrate => Ret (log ++ [Calibrate], calibrate_reply s log)
    | acc_hal_integration_wait_for_sensor_interrupt =>
        Ret (log ++ [WaitInterrupt], interrupt_reply s log)
    | acc_sensor_prepare => Ret (log ++ [Prepare], prepare_reply s log)
    end.

(** The routine run against a sensor: the calls it made and its result. *)
Definition run (s : sensor) : itree void1 (list call * bool) :=
  interp_state (handle s) do_sensor_calibration_and_prepare [].

(** [k] rounds of a calibration call that is not complete yet, each followed
    by a wait for the sensor interrupt. *)
Fixpoint waits (k : nat) : list call :=
  match k with
  | O => []
  | S k' => waits k' ++ [Calibrate; WaitInterrupt]
  end.

End Lifecycle.

(** ** The service entry point ([acc_service], [set_config] and [cleanup])

    [acc_service] is an interaction tree over the calls it makes to the RSS
    library, the HAL and the board support code.  [printf] is left out.  A
    pointer result is the boolean "not NULL"; [do_sensor_calibration_and_prepare]
    is called like the other primitives and answers with its result. *)

Module Main.

Import Estimator Fifo Service.
Import ITreeNotations.
Local Open Scope itree_scope.

(** What [acc_processing_execute] stores in [proc_result]. *)
Record acc_processing_result_t : Type := {
  calibration_needed : bool;
  frame : list acc_int16_complex_t;
  temperature : Z
}.

(** The ten setters of [set_config], lines 320-330. *)
Inductive setter : Type :=
| sweeps_per_frame_set | frame_rate_set | start_point_set | num_points_set
| step_length_set | profile_set | receiver_gain_set | prf_set | hwaas_set
| phase_enhancement_set.

Variant serviceE : Type -> Type :=
| acc_hal_rss_integration_get_implementation : serviceE unit
| acc_rss_hal_register : serviceE bool
| acc_config_create : serviceE bool
| acc_config_set (f : setter) : serviceE unit
| acc_processing_create : serviceE (option Z)
| acc_rss_get_buffer_size : serviceE bool
| acc_integration_mem_alloc : serviceE bool
| acc_hal_integration_sensor_supply_on : serviceE unit
| acc_hal_integration_sensor_supply_off : serviceE unit
| acc_hal_integration_sensor_enable : serviceE unit
| acc_hal_integration_sensor_disable : serviceE unit
| acc_sensor_create : serviceE bool
| do_sensor_calibration_and_prepare : serviceE bool
| acc_sensor_status : serviceE unit
| acc_sensor_measure : serviceE bool
| acc_hal_integration_wait_for_sensor_interrupt : serviceE bool
| acc_sensor_read : serviceE bool
| acc_processing_execute : serviceE acc_processing_result_t
| MX_FDCAN1_Send (id : Z) (data : list Z) : serviceE Z
| HAL_Delay (ms : Z) : serviceE unit
| HAL_GetTick : serviceE Z
| MX_TEST_LED_Toggle : serviceE unit
| acc_sensor_destroy : serviceE unit
| acc_processing_destroy : serviceE unit
| acc_config_destroy : serviceE unit
| acc_integration_mem_free : serviceE unit
| undefined_behaviour : serviceE Empty_set.

Definition EXIT_FAILURE : Z := 1.

(** Lines 317-333. *)
Definition set_config : itree serviceE unit :=
  ITree.trigger (acc_config_set sweeps_per_frame_set) ;;
  ITree.trigger (acc_config_set frame_rate_set) ;;
  ITree.trigger (acc_config_set start_point_set) ;;
  ITree.trigger (acc_config_set num_points_set) ;;
  ITree.trigger (acc_config_set step_length_set) ;;
  ITree.trigger (acc_config_set profile_set) ;;
  ITree.trigger (acc_config_set receiver_gain_set) ;;
  ITree.trigger (acc_config_set prf_set) ;;
  ITree.trigger (acc_config_set hwaas_set) ;;
  ITree.trigger (acc_config_set phase_enhancement_set).

Definition when (b : bool) (t : itree serviceE unit) : itree serviceE unit :=
  if b then t else Ret tt.

(** Lines 565-590; each argument says whether the pointer is not NULL. *)
Definition cleanup (config processing sensor buffer : bool) : itree serviceE unit :=
  ITree.trigger acc_hal_integration_sensor_disable ;;
  ITree.trigger acc_hal_integration_sensor_supply_off ;;
  when sensor (ITree.trigger acc_sensor_destroy) ;;
  when processing (ITree.trigger acc_processing_destroy) ;;
  when config (ITree.trigger acc_config_destroy) ;;
  when buffer (ITree.trigger acc_integration_mem_free).

(** The variables of [acc_service] that the loop carries from frame to frame. *)
Record service_state : Type := {
  loop : loop_state;
  timestamp : Z;
  first_success : Z;
  second_success : Z
}.

(** Lines 91-98 and 170-179, for a buffer of capacity [N]. *)
Definition initial_service_state (N : nat) : service_state := {|
  loop := initial_state N;
  timestamp := 0;
  first_success := 0;
  second_success := 1
|}.

(** A computation that C leaves undefined ends the tree. *)
Definition defined {A : Type} (x : outcome A) : itree serviceE A :=
  match x with
  | Ok a => Ret a
  | Undefined => v <- ITree.trigger undefined_behaviour ;; match v : Empty_set with end
  end.

(** Lines 302-309. *)
Definition mark_time (st : service_state) (l : loop_state) (first second : Z)
  : itree serviceE service_state :=
  if negb (first =? 0) && negb (second =? 0) then
    current_timestamp <- ITree.trigger HAL_GetTick ;;
    ITree.trigger MX_TEST_LED_Toggle ;;
    Ret {| loop := l; timestamp := current_timestamp;
           first_success := first; second_success := second |}
  else
    Ret {| loop := l; timestamp := timestamp st;
           first_success := first; second_success := second |}.

(** Lines 231-309: the frame that needs no recalibration. *)
Definition process_frame (tables : correction_tables) (cfg : PrintDataConfig)
    (getAverage : FIFOBuffer spec_float -> Z)
    (computeWeightedAvg : FIFOBuffer spec_float -> Z -> Z -> Z)
    (frame_data_length : Z) (r : acc_processing_result_t) (st : service_state)
  : itree serviceE service_state :=
  l <- defined (frame_cycle tables cfg (frame r) frame_data_length (temperature r) (loop st)) ;;
  avg <- defined (avg_distance getAverage computeWeightedAvg cfg l) ;;
  ret <- ITree.trigger (MX_FDCAN1_Send 20 (amplitude_message (proc_data l))) ;;
  let first := if ret =? 0 then 0 else 1 in
  ITree.trigger (HAL_Delay 1) ;;
  ret <- ITree.trigger
           (MX_FDCAN1_Send 19 (distance_message avg (proc_data l) (temperature r))) ;;
  let second := if ret =? 0 then 0 else 1 in
  ITree.trigger (HAL_Delay 2) ;;
  mark_time st l first second.

(** A failure inside the loop: lines 188-191 and their siblings. *)
Definition fail_in_loop : itree serviceE (service_state + Z) :=
  ITree.trigger acc_sensor_status ;;
  cleanup true true true true ;;
  Ret (inr EXIT_FAILURE).

(** Lines 186-310: one turn of [while (1)]; [inl] goes round again, [inr] is
    the value returned. *)
Definition loop_body (tables : correction_tables) (cfg : PrintDataConfig)
    (getAverage : FIFOBuffer spec_float -> Z)
    (computeWeightedAvg : FIFOBuffer spec_float -> Z -> Z -> Z)
    (frame_data_length : Z) (st : service_state)
  : itree serviceE (service_state + Z) :=
  measured <- ITree.trigger acc_sensor_measure ;;
  if negb measured then fail_in_loop
  else
    interrupted <- ITree.trigger acc_hal_integration_wait_for_sensor_interrupt ;;
    if negb interrupted then fail_in_loop
    else
      read <- ITree.trigger acc_sensor_read ;;
      if negb read then fail_in_loop
      else
        r <- ITree.trigger acc_processing_execute ;;
        if calibration_needed r then
          prepared <- ITree.trigger do_sensor_calibration_and_prepare ;;
          if negb prepared then fail_in_loop else Ret (inl st)
        else
          st' <- process_frame tables cfg getAverage computeWeightedAvg
                   frame_data_length r st ;;
          Ret (inl st').

(** Lines 80-314. *)
Definition acc_service (tables : correction_tables) (cfg : PrintDataConfig)
    (getAverage : FIFOBuffer spec_float -> Z)
    (computeWeightedAvg : FIFOBuffer spec_float -> Z -> Z -> Z) (N : nat)
  : itree serviceE Z :=
  ITree.trigger acc_hal_rss_integration_get_implementation ;;
  registered <- ITree.trigger acc_rss_hal_register ;;
  if negb registered then Ret EXIT_FAILURE
  else
    config <- ITree.trigger acc_config_create ;;
    if negb config then cleanup false false false false ;; Ret EXIT_FAILURE
    else
      set_config ;;
      processing <- ITree.trigger acc_processing_create ;;
      match processing with
      | None => cleanup true false false false ;; Ret EXIT_FAILURE
      | Some frame_data_length =>
          sized <- ITree.trigger acc_rss_get_buffer_size ;;
          if negb sized then cleanup true true false false ;; Ret EXIT_FAILURE
          else
            buffer <- ITree.trigger acc_integration_mem_alloc ;;
            if negb buffer then cleanup true true false false ;; Ret EXIT_FAILURE
            else
              ITree.trigger acc_hal_integration_sensor_supply_on ;;
              ITree.trigger acc_hal_integration_sensor_enable ;;
              sensor <- ITree.trigger acc_sensor_create ;;
              if negb sensor then cleanup true true false true ;; Ret EXIT_FAILURE
              else
                prepared <- ITree.trigger do_sensor_calibration_and_prepare ;;
                if negb prepared then
                  ITree.trigger acc_sensor_status ;;
                  cleanup true true true true ;;
                  Ret EXIT_FAILURE
                else
                  ITree.iter
                    (loop_body tables cfg getAverage computeWeightedAvg frame_data_length)
                    (initial_service_state N)
      end.

(** A call made, with its arguments. *)
Definition call : Type := { X : Type & serviceE X }.
Definition called {X : Type} (e : serviceE X) : call := existT serviceE X e.

(** The world around the service: what each call answers after a given
    history of calls. *)
Record world : Type := {
  hal_registered : list call -> bool;
  config_created : list call -> bool;
  processing_created : list call -> option Z;
  buffer_sized : list call -> bool;
  buffer_allocated : list call -> bool;
  sensor_created : list call -> bool;
  calibrated_and_prepared : list call -> bool;
  measured : list call -> bool;
  interrupted : list call -> bool;
  data_read : list call -> bool;
  processed : list call -> acc_processing_result_t;
  sent : Z -> list Z -> list call -> Z;
  tick : list call -> Z
}.

(** Each call is logged and answered by the world.  Undefined behaviour has no
    answer: the run goes on silently for ever. *)
Definition handle (w : world) : serviceE ~> Monads.stateT (list call) (itree void1) :=
  fun X e log =>
    let log' := log ++ [called e] in
    match e in serviceE X return itree void1 (list call * X) with
    | acc_hal_rss_integration_get_implementation => Ret (log', tt)
    | acc_rss_hal_register => Ret (log', hal_registered w log)
    | acc_config_create => Ret (log', config_created w log)
    | acc_config_set _ => Ret (log', tt)
    | acc_processing_create => Ret (log', processing_created w log)
    | acc_rss_get_buffer_size => Ret (log', buffer_sized w log)
    | acc_integration_mem_alloc => Ret (log', buffer_allocated w log)
    | acc_hal_integration_sensor_supply_on => Ret (log', tt)
    | acc_hal_integration_sensor_supply_off => Ret (log', tt)
    | acc_hal_integration_sensor_enable => Ret (log', tt)
    | acc_hal_integration_sensor_disable => Ret (log', tt)
    | acc_sensor_create => Ret (log', sensor_created w log)
    | do_sensor_calibration_and_prepare => Ret (log', calibrated_and_prepared w log)
    | acc_sensor_status => Ret (log', tt)
    | acc_sensor_measure => Ret (log', measured w log)
    | acc_hal_integration_wait_for_sensor_interrupt => Ret (log', interrupted w log)
    | acc_sensor_read => Ret (log', data_read w log)
    | acc_processing_execute => Ret (log', processed w log)
    | MX_FDCAN1_Send id data => Ret (log', sent w id data log)
    | HAL_Delay _ => Ret (log', tt)
    | HAL_GetTick => Ret (log', tick w log)
    | MX_TEST_LED_Toggle => Ret (log', tt)
    | acc_sensor_destroy => Ret (log', tt)
    | acc_processing_destroy => Ret (log', tt)
    | acc_config_destroy => Ret (log', tt)
    | acc_integration_mem_free => Ret (log', tt)
    | undefined_behaviour => ITree.spin
    end.

Definition run (w : world) (t : itree serviceE Z) : itree void1 (list call * Z) :=
  interp_state (handle w) t [].

(** The calls of [cleanup], by what exists. *)
Definition cleanup_calls (config processing sensor buffer : bool) : list call :=
  [called acc_hal_integration_sensor_disable;
   called acc_hal_integration_sensor_supply_off]
  ++ (if sensor then [called acc_sensor_destroy] else [])
  ++ (if processing then [called acc_processing_destroy] else [])
  ++ (if config then [called acc_config_destroy] else [])
  ++ (if buffer then [called acc_integration_mem_free] else []).

Definition set_config_calls : list call :=
  List.map (fun f => called (acc_config_set f))
    [sweeps_per_frame_set; frame_rate_set; start_point_set; num_points_set;
     step_length_set; profile_set; receiver_gain_set; prf_set; hwaas_set;
     phase_enhancement_set].

(** The steps of the start-up that can fail, in order. *)
Inductive stage : Type :=
| AtRegister | AtConfig | AtProcessing | AtBufferSize | AtAlloc | AtSensor | AtPrepare.

Definition stage_index (st : stage) : nat :=
  match st with
  | AtRegister => 0 | AtConfig => 1 | AtProcessing => 2 | AtBufferSize => 3
  | AtAlloc => 4 | AtSensor => 5 | AtPrepare => 6
  end.

(** The world lets the step succeed, whatever happened before. *)
Definition passes (w : world) (st : stage) : Prop :=
  match st with
  | AtRegister => forall log, hal_registered w log = true
  | AtConfig => forall log, config_created w log = true
  | AtProcessing => forall log, processing_created w log <> None
  | AtBufferSize => forall log, buffer_sized w log = true
  | AtAlloc => forall log, buffer_allocated w log = true
  | AtSensor => forall log, sensor_created w log = true
  | AtPrepare => forall log, calibrated_and_prepared w log = true
  end.

(** The world makes the step fail. *)
Definition refuses (w : world) (st : stage) : Prop :=
  match st with
  | AtRegister => forall log, hal_registered w log = false
  | AtConfig => forall log, config_created w log = false
  | AtProcessing => forall log, processing_created w log = None
  | AtBufferSize => forall log, buffer_sized w log = false
  | AtAlloc => forall log, buffer_allocated w log = false
  | AtSensor => forall log, sensor_created w log = false
  | AtPrepare => forall log, calibrated_and_prepared w log = false
  end.

(** The calls of the start-up up to the step [st], that step included. *)
Definition calls_until (st : stage) : list call :=
  firstn
    (match st with
     | AtRegister => 2 | AtConfig => 3 | AtProcessing => 14 | AtBufferSize => 15
     | AtAlloc => 16 | AtSensor => 19 | AtPrepare => 20
     end)
    ([called acc_hal_rss_integration_get_implementation;
      called acc_rss_hal_register;
      called acc_config_create]
     ++ set_config_calls
     ++ [called acc_processing_create;
         called acc_rss_get_buffer_size;
         called acc_integration_mem_alloc;
         called acc_hal_integration_sensor_supply_on;
         called acc_hal_integration_sensor_enable;
         called acc_sensor_create;
         called do_sensor_calibration_and_prepare]).

(** What exists when the step [st] fails: config, processing, sensor, buffer. *)
Definition created (st : stage) : bool * bool * bool * bool :=
  match st with
  | AtRegister | AtConfig => (false, false, false, false)
  | AtProcessing => (true, false, false, false)
  | AtBufferSize | AtAlloc => (true, true, false, false)
  | AtSensor => (true, true, false, true)
  | AtPrepare => (true, true, true, true)
  end.

(** The calls that follow the failure of step [st]. *)
Definition calls_after_failure (st : stage) : list call :=
  match st with
  | AtRegister => []
  | AtPrepare => called acc_sensor_status :: cleanup_calls true true true true
  | _ => let '(config, processing, sensor, buffer) := created st in
         cleanup_calls config processing sensor buffer
  end.

(** The calls of a frame that needs no recalibration, given the payloads and
    the results of the two sends. *)
Definition frame_calls (amplitudes distances : list Z) (first second : Z) : list call :=
  [called acc_sensor_measure;
   called acc_hal_integration_wait_for_sensor_interrupt;
   called acc_sensor_read;
   called acc_processing_execute;
   called (MX_FDCAN1_Send 20 amplitudes);
   called (HAL_Delay 1);
   called (MX_FDCAN1_Send 19 distances);
   called (HAL_Delay 2)]
  ++ (if negb (first =? 0) && negb (second =? 0)
      then [called HAL_GetTick; called MX_TEST_LED_Toggle] else []).

(** Lines 267-272 and 293-298: the success flag kept for the result of a send. *)
Definition flag (ret : Z) : Z := if ret =? 0 then 0 else 1.

End Main.

(** ** The order of the comparison operators

    The C comparisons follow the order of a key: the sign class, then the
    exponent, then the mantissa (both negated for a negative float).  A NaN
    compares false with everything. *)

Module Order.

Definition key (x : spec_float) : Z * Z * Z :=
  match x with
  | S754_zero _ => (0, 0, 0)
  | S754_infinity s => (if s then -2 else 2, 0, 0)
  | S754_nan => (0, 0, 0)
  | S754_finite s m e => if s then (-1, - e, Zneg m) else (1, e, Zpos m)
  end.

Definition key_lt (a b : Z * Z * Z) : Prop :=
  let '(a1, a2, a3) := a in
  let '(b1, b2, b3) := b in
  a1 < b1 \/ (a1 = b1 /\ (a2 < b2 \/ (a2 = b2 /\ a3 < b3))).

Definition key_eq (a b : Z * Z * Z) : Prop :=
  let '(a1, a2, a3) := a in
  let '(b1, b2, b3) := b in
  a1 = b1 /\ a2 = b2 /\ a3 = b3.

Definition number (x : spec_float) : Prop := F32.is_nan x = false.

End Order.

(** ** Concrete inputs used below *)

Module Scenario.

Import LookupTable Estimator Fifo Service.

(** The two-entry table of the specification's scenarios. *)
Definition two_point_table : lookup_table := {|
  LOOKUP_TABLE_SIZE := 2;
  positions := [F32.lit 1050 100; F32.lit 2075 100];
  LookupTable.distances := [F32.lit 1045 100; F32.lit 2078 100]
|}.

(** A table that starts at the origin: position 0 reads distance 0. *)
Definition origin_table : lookup_table := {|
  LOOKUP_TABLE_SIZE := 2;
  positions := [F32.zero; F32.of_int 100];
  LookupTable.distances := [F32.zero; F32.of_int 100]
|}.

(** Both tables configured, with an error correction that changes nothing. *)
Definition both_tables : correction_tables := {|
  LOOKUP_TABLE := Some origin_table;
  ERROR_TABLE := Some (fun raw => raw)
|}.

Definition coarse_only : correction_tables := {|
  LOOKUP_TABLE := Some origin_table;
  ERROR_TABLE := None
|}.

Definition no_tables : correction_tables := {|
  LOOKUP_TABLE := None;
  ERROR_TABLE := None
|}.

(** A table with no entry: [LOOKUP_TABLE_SIZE] is 0. *)
Definition empty_table : lookup_table := {|
  LOOKUP_TABLE_SIZE := 0;
  positions := [];
  LookupTable.distances := []
|}.

(** An error correction that adds 1 mm. *)
Definition one_more (raw : spec_float) : spec_float := F32.add raw (F32.of_int 1).

(** Both tables configured: the two-entry table and [one_more]. *)
Definition shifted_tables : correction_tables := {|
  LOOKUP_TABLE := Some two_point_table;
  ERROR_TABLE := Some one_more
|}.

(** Both tables configured, the coarse one empty. *)
Definition empty_coarse : correction_tables := {|
  LOOKUP_TABLE := Some empty_table;
  ERROR_TABLE := Some one_more
|}.

(** The configuration the sources ship: the example lookup table alone. *)
Definition example_tables : correction_tables := {|
  LOOKUP_TABLE := Some example_table;
  ERROR_TABLE := None
|}.

(** Two range points one metre apart ([0.0025 * 400]); the threshold is 100 on
    the first segment [[0, 0.5]] and 10 on the second [(0.5, 2]]. *)
Definition falling_threshold : PrintDataConfig := {|
  rf_factor := F32.of_int 1;
  num_points := 2;
  sweeps_per_frame := 1;
  step := 400;
  start_point := 0;
  x_intercepts := [F32.zero; F32.lit 5 10; F32.of_int 2; F32.of_int 3];
  line1_slope := F32.zero;
  y_inter_line1 := F32.of_int 100;
  line2_slope := F32.zero;
  y_inter_line2 := F32.of_int 10;
  line3_slope := F32.zero;
  y_inter_line3 := F32.of_int 10;
  algo := 1;
  avg_type := 0;
  wma_factor := 0;
  wma_start := 0
|}.

(** The same range with a third point. *)
Definition three_points : PrintDataConfig := {|
  rf_factor := F32.of_int 1;
  num_points := 3;
  sweeps_per_frame := 1;
  step := 400;
  start_point := 0;
  x_intercepts := [F32.zero; F32.lit 5 10; F32.of_int 2; F32.of_int 3];
  line1_slope := F32.zero;
  y_inter_line1 := F32.of_int 100;
  line2_slope := F32.zero;
  y_inter_line2 := F32.of_int 10;
  line3_slope := F32.zero;
  y_inter_line3 := F32.of_int 10;
  algo := 1;
  avg_type := 0;
  wma_factor := 0;
  wma_start := 0
|}.

(** At 20 degrees the divisor is 1300, so [250 + 0i] has amplitude 48. *)
Definition flat_frame : list acc_int16_complex_t :=
  [ {| real := 250; imag := 0 |}; {| real := 250; imag := 0 |} ].

(** The first sample is silent and the second, of amplitude 48, is above the
    threshold of 10. *)
Definition rising_frame : list acc_int16_complex_t :=
  [ {| real := 0; imag := 0 |}; {| real := 250; imag := 0 |} ].

(** No sample reaches a threshold. *)
Definition silent_frame : list acc_int16_complex_t :=
  [ {| real := 0; imag := 0 |}; {| real := 0; imag := 0 |} ].

(** The first sample is already above the threshold of 100. *)
Definition loud_frame : list acc_int16_complex_t :=
  [ {| real := 1000; imag := 0 |}; {| real := 0; imag := 0 |} ].

Definition no_data : ProcessedData := proc_data (initial_state 3).

(** A loop state whose buffer holds one earlier estimate, 100. *)
Definition warm_state : loop_state := {|
  lastHeldValues := {| capacity := 3; items := [F32.of_int 100] |};
  distance := F32.of_int 100;
  proc_data := no_data
|}.

(** A sensor whose calibration never succeeds. *)
Definition dead_sensor : Lifecycle.sensor := {|
  Lifecycle.calibrate_reply := fun _ => (false, false);
  Lifecycle.interrupt_reply := fun _ => true;
  Lifecycle.prepare_reply := fun _ => true
|}.

(** A sensor whose calibration completes on the third call. *)
Definition slow_sensor : Lifecycle.sensor := {|
  Lifecycle.calibrate_reply := fun log => (true, (6 <=? length log)%nat);
  Lifecycle.interrupt_reply := fun _ => true;
  Lifecycle.prepare_reply := fun _ => true
|}.

(** A sensor whose first calibration call fails and whose later ones complete. *)
Definition flaky_sensor : Lifecycle.sensor := {|
  Lifecycle.calibrate_reply := fun log => ((3 <=? length log)%nat, true);
  Lifecycle.interrupt_reply := fun _ => true;
  Lifecycle.prepare_reply := fun _ => true
|}.

(** A sensor that accepts calibration calls and never raises its interrupt. *)
Definition mute_sensor : Lifecycle.sensor := {|
  Lifecycle.calibrate_reply := fun _ => (true, false);
  Lifecycle.interrupt_reply := fun _ => false;
  Lifecycle.prepare_reply := fun _ => true
|}.

(** A sensor that accepts calibration calls, raises its interrupt and never
    completes. *)
Definition stuck_sensor : Lifecycle.sensor := {|
  Lifecycle.calibrate_reply := fun _ => (true, false);
  Lifecycle.interrupt_reply := fun _ => true;
  Lifecycle.prepare_reply := fun _ => true
|}.

(** A board on which every call succeeds apart from those the arguments switch
    off; each frame is [flat_frame] at 20 degrees, and [recalibrate] says
    whether processing asks for a new calibration. *)
Definition board (sensor measure interrupt read recalibrate : bool) : Main.world := {|
  Main.hal_registered := fun _ => true;
  Main.config_created := fun _ => true;
  Main.processing_created := fun _ => Some 2;
  Main.buffer_sized := fun _ => true;
  Main.buffer_allocated := fun _ => true;
  Main.sensor_created := fun _ => sensor;
  Main.calibrated_and_prepared := fun _ => true;
  Main.measured := fun _ => measure;
  Main.interrupted := fun _ => interrupt;
  Main.data_read := fun _ => read;
  Main.processed := fun _ =>
    {| Main.calibration_needed := recalibrate;
       Main.frame := flat_frame;
       Main.temperature := 20 |};
  Main.sent := fun _ _ _ => 1;
  Main.tick := fun _ => 7
|}.

(** The variables of the loop after some frames. *)
Definition warm_service : Main.service_state := {|
  Main.loop := warm_state;
  Main.timestamp := 3;
  Main.first_success := 1;
  Main.second_success := 1
|}.

(** A turn of the loop on the board [w], from [warm_service] and an empty
    history, for frames of two points. *)
Definition first_turn (w : Main.world)
  : itree void1 (list Main.call * (Main.service_state + Z)) :=
  interp_state (Main.handle w)
    (Main.loop_body example_tables falling_threshold (fun _ => 0) (fun _ _ _ => 0) 2
       warm_service)
    [].

End Scenario.

(** * Properties *)

(** ** The temperature divisor *)

Lemma compute_divisor_wraps (temp : Z) :
  compute_divisor temp = (1600 - 15 * temp) mod 65536.
Proof.
  unfold compute_divisor, to_uint16, round_uint16.
  change (2 ^ 16) with 65536.
  replace (-15 * temp + 1600) with (1600 - 15 * temp) by lia.
  pose proof (Z.mod_pos_bound (1600 - 15 * temp) 65536 ltac:(lia)) as H.
  destruct (Z.ltb_spec ((1600 - 15 * temp) mod 65536) 0); [lia | reflexivity].
Qed.

Example divisor_at_20_degrees : compute_divisor 20 = 1300.
Proof. reflexivity. Qed.

(** Up to 106 degrees the wrapped value is the clamped one. *)
Lemma compute_divisor_below_107 (temp : Z) :
  0 <= temp <= 106 -> compute_divisor temp = divisor_per_spec temp.
Proof.
  intros H. rewrite compute_divisor_wraps. unfold divisor_per_spec.
  rewrite Z.mod_small by lia. lia.
Qed.

(** A temperature below zero reaches the function as [temp + 2^16]; the wrap
    of the divisor undoes the wrap of the argument. *)
Lemma compute_divisor_negative_temperature (temperature : Z) :
  -4000 <= temperature < 0 ->
  compute_divisor (to_uint16 temperature) = 1600 - 15 * temperature.
Proof.
  intros H. rewrite compute_divisor_wraps. unfold to_uint16.
  change (2 ^ 16) with 65536.
  replace (temperature mod 65536) with (temperature + 65536).
  - replace (1600 - 15 * (temperature + 65536))
      with (1600 - 15 * temperature + (-15) * 65536) by lia.
    rewrite Z.mod_add by lia. apply Z.mod_small. lia.
  - apply Z.mod_unique with (-1); lia.
Qed.

(** C1 (code defect). The divisor is [(-15 * t + 1600) mod 2^16], and the test
    [divisor < 0] on the unsigned value never holds, so nothing is clamped: at
    [t = 107] the code computes 65531 where the stated rule gives 1, and at
    [t = 21952] it computes 0, below the stated minimum of 1. *)
Theorem compute_divisor_not_clamped :
  compute_divisor 107 = 65531
  /\ divisor_per_spec 107 = 1
  /\ compute_divisor 21952 = 0
  /\ divisor_per_spec 21952 = 1.
Proof. repeat split; reflexivity. Qed.

(** At 21952 the zero divisor makes the amplitude of the first sample a division
    by zero. *)
Example zero_divisor_is_undefined :
  Estimator.run_simple_threshold_algo Scenario.example_tables Scenario.silent_frame 2
    Scenario.falling_threshold 21952 Scenario.no_data = Undefined.
Proof. vm_compute. reflexivity. Qed.

(** ** The comparison operators as an order *)

Import Order.

Lemma compare_key (a b : spec_float) :
  SFcompare a b =
  if F32.is_nan a || F32.is_nan b then None
  else Some (match fst (fst (key a)) ?= fst (fst (key b)) with
             | Eq => match snd (fst (key a)) ?= snd (fst (key b)) with
                     | Eq => snd (key a) ?= snd (key b)
                     | c => c
                     end
             | c => c
             end).
Proof.
  destruct a as [sa|sa| |sa ma ea], b as [sb|sb| |sb mb eb]; try reflexivity;
    try (destruct sa; reflexivity); try (destruct sb; reflexivity);
    try (destruct sa, sb; reflexivity).
  destruct sa, sb; cbn; try reflexivity.
  rewrite Z.compare_opp, (Z.compare_antisym ea eb).
  destruct (ea ?= eb); reflexivity.
Qed.

Ltac by_key_cases a b :=
  unfold number; rewrite compare_key;
  destruct (F32.is_nan a), (F32.is_nan b); cbn;
  try (split; [discriminate | intros (? & ? & ?); discriminate]);
  destruct (key a) as [[a1 a2] a3], (key b) as [[b1 b2] b3]; cbn;
  destruct (Z.compare_spec a1 b1), (Z.compare_spec a2 b2), (Z.compare_spec a3 b3);
  split; intros Hcmp; try discriminate; try (repeat split; lia); try reflexivity;
  destruct Hcmp as (_ & _ & Hcmp); lia.

Lemma ltb_key (a b : spec_float) :
  F32.ltb a b = true <-> number a /\ number b /\ key_lt (key a) (key b).
Proof. unfold F32.ltb, SFltb. by_key_cases a b. Qed.

Lemma eqb_key (a b : spec_float) :
  F32.eqb a b = true <-> number a /\ number b /\ key_eq (key a) (key b).
Proof. unfold F32.eqb, SFeqb. by_key_cases a b. Qed.

Lemma leb_key (a b : spec_float) :
  F32.leb a b = true <->
  number a /\ number b /\ (key_lt (key a) (key b) \/ key_eq (key a) (key b)).
Proof. unfold F32.leb, SFleb. by_key_cases a b. Qed.

Lemma gtb_key (a b : spec_float) :
  F32.gtb a b = true <-> number a /\ number b /\ key_lt (key b) (key a).
Proof.
  unfold F32.gtb. change (SFltb b a) with (F32.ltb b a). rewrite ltb_key. tauto.
Qed.

Lemma geb_key (a b : spec_float) :
  F32.geb a b = true <->
  number a /\ number b /\ (key_lt (key b) (key a) \/ key_eq (key b) (key a)).
Proof.
  unfold F32.geb. change (SFleb b a) with (F32.leb b a). rewrite leb_key. tauto.
Qed.

(** Every comparison in the context and the goal is restated on keys, and the
    keys are compared by linear arithmetic. *)
Ltac order_hyps :=
  repeat match goal with
  | H : F32.ltb _ _ = true |- _ => apply ltb_key in H
  | H : F32.eqb _ _ = true |- _ => apply eqb_key in H
  | H : F32.leb _ _ = true |- _ => apply leb_key in H
  | H : F32.gtb _ _ = true |- _ => apply gtb_key in H
  | H : F32.geb _ _ = true |- _ => apply geb_key in H
  | H : F32.ltb _ _ = false |- _ => apply not_true_iff_false in H; rewrite ltb_key in H
  | H : F32.eqb _ _ = false |- _ => apply not_true_iff_false in H; rewrite eqb_key in H
  | H : F32.leb _ _ = false |- _ => apply not_true_iff_false in H; rewrite leb_key in H
  | H : F32.gtb _ _ = false |- _ => apply not_true_iff_false in H; rewrite gtb_key in H
  | H : F32.geb _ _ = false |- _ => apply not_true_iff_false in H; rewrite geb_key in H
  | |- F32.ltb _ _ = true => apply ltb_key
  | |- F32.eqb _ _ = true => apply eqb_key
  | |- F32.leb _ _ = true => apply leb_key
  | |- F32.gtb _ _ = true => apply gtb_key
  | |- F32.geb _ _ = true => apply geb_key
  | |- F32.ltb _ _ = false => apply not_true_iff_false; rewrite ltb_key
  | |- F32.eqb _ _ = false => apply not_true_iff_false; rewrite eqb_key
  | |- F32.leb _ _ = false => apply not_true_iff_false; rewrite leb_key
  | |- F32.gtb _ _ = false => apply not_true_iff_false; rewrite gtb_key
  | |- F32.geb _ _ = false => apply not_true_iff_false; rewrite geb_key
  end.

Ltac order_keys :=
  repeat match goal with
  | |- context [key ?x] =>
      let k := fresh "k" in
      set (k := key x) in *; clearbody k; destruct k as [[? ?] ?]
  | H : context [key ?x] |- _ =>
      let k := fresh "k" in
      set (k := key x) in *; clearbody k; destruct k as [[? ?] ?]
  end.

Ltac float_order :=
  order_hyps; order_keys; unfold key_lt, key_eq in *; intuition (try lia; try congruence).

Lemma ltb_trans (a b c : spec_float) :
  F32.ltb a b = true -> F32.ltb b c = true -> F32.ltb a c = true.
Proof. intros. float_order. Qed.

Lemma number_trichotomy (a b : spec_float) :
  number a -> number b ->
  F32.ltb a b = true \/ F32.eqb a b = true \/ F32.ltb b a = true.
Proof.
  intros Ha Hb. rewrite !ltb_key, eqb_key.
  assert (key_lt (key a) (key b) \/ key_eq (key a) (key b) \/ key_lt (key b) (key a)) as Hk.
  { order_keys. unfold key_lt, key_eq. lia. }
  tauto.
Qed.

(** ** The lookup query *)

Import LookupTable.

Lemma first_index_some (test : nat -> bool) : forall n i k,
  first_index test i n = Some k ->
  (i <= k < i + n)%nat /\ test k = true /\ forall j, (i <= j < k)%nat -> test j = false.
Proof.
  induction n as [|n IH]; intros i k H; cbn in H; [discriminate|].
  destruct (test i) eqn:E.
  - injection H as <-. repeat split; try lia; auto.
  - apply IH in H as (Hk & Ht & Hm). repeat split; try lia; auto.
    intros j Hj. destruct (Nat.eq_dec j i) as [->|]; auto. apply Hm; lia.
Qed.

Lemma first_index_none (test : nat -> bool) : forall n i,
  first_index test i n = None -> forall j, (i <= j < i + n)%nat -> test j = false.
Proof.
  induction n as [|n IH]; intros i H j Hj; [lia|]. cbn in H.
  destruct (test i) eqn:E; [discriminate|].
  destruct (Nat.eq_dec j i) as [->|]; auto. apply (IH (S i)); auto; lia.
Qed.

Lemma first_index_found (test : nat -> bool) (n i j : nat) :
  (i <= j < i + n)%nat -> test j = true ->
  exists k, first_index test i n = Some k /\ (k <= j)%nat.
Proof.
  intros Hj Ht. destruct (first_index test i n) as [k|] eqn:E.
  - exists k; split; auto. apply first_index_some in E as (_ & _ & Hm).
    destruct (Nat.le_gt_cases k j); auto. rewrite Hm in Ht by lia. discriminate.
  - rewrite (first_index_none _ _ _ E j Hj) in Ht. discriminate.
Qed.

Lemma increasing_step : forall l i,
  increasing l = true -> (S i < length l)%nat ->
  F32.ltb (nth i l F32.zero) (nth (S i) l F32.zero) = true.
Proof.
  induction l as [|a l IH]; intros i H Hi; cbn in Hi; [lia|].
  destruct l as [|b l]; cbn in Hi; [lia|].
  cbn [increasing] in H. apply andb_prop in H as [Hab Hl].
  destruct i as [|i]; [exact Hab|]. apply (IH i Hl). cbn; lia.
Qed.

Lemma increasing_nth (l : list spec_float) (i j : nat) :
  increasing l = true -> (i < j < length l)%nat ->
  F32.ltb (nth i l F32.zero) (nth j l F32.zero) = true.
Proof.
  intros H [Hij Hj]. induction j as [|j IH]; [lia|].
  destruct (Nat.eq_dec i j) as [->|].
  - apply increasing_step; auto.
  - apply ltb_trans with (nth j l F32.zero); [apply IH; lia | apply increasing_step; auto].
Qed.

Lemma number_nth (l : list spec_float) (i : nat) :
  forallb (fun p => negb (F32.is_nan p)) l = true -> (i < length l)%nat ->
  number (nth i l F32.zero).
Proof.
  intros H Hi. rewrite forallb_forall in H.
  specialize (H (nth i l F32.zero) (nth_In _ _ Hi)).
  unfold number. destruct (F32.is_nan _); [discriminate | reflexivity].
Qed.

Section Query.
Variable t : lookup_table.
Variable p : spec_float.
Hypothesis Hok : table_ok t = true.
Hypothesis Hsize : (0 < LOOKUP_TABLE_SIZE t)%nat.

Lemma table_ok_parts :
  length (positions t) = LOOKUP_TABLE_SIZE t
  /\ length (distances t) = LOOKUP_TABLE_SIZE t
  /\ forallb (fun p => negb (F32.is_nan p)) (positions t) = true
  /\ increasing (positions t) = true.
Proof.
  unfold table_ok in Hok. repeat (apply andb_prop in Hok as [Hok ?]).
  repeat split; auto; apply Nat.eqb_eq; auto.
Qed.

Lemma position_lt (i j : nat) :
  (i < j < LOOKUP_TABLE_SIZE t)%nat ->
  F32.ltb (position_at t i) (position_at t j) = true.
Proof.
  destruct table_ok_parts as (Hl & _ & _ & Hi). intros.
  apply increasing_nth; auto. lia.
Qed.

Lemma position_number (i : nat) :
  (i < LOOKUP_TABLE_SIZE t)%nat -> number (position_at t i).
Proof.
  destruct table_ok_parts as (Hl & _ & Hn & _). intros.
  apply number_nth; auto. lia.
Qed.

Lemma exact_match (i : nat) :
  (i < LOOKUP_TABLE_SIZE t)%nat -> F32.eqb (position_at t i) p = true ->
  getNearestDistance t p = distance_at t i.
Proof.
  intros Hi He. unfold getNearestDistance.
  destruct (Nat.eqb_spec (LOOKUP_TABLE_SIZE t) 0) as [|_]; [lia|].
  destruct (first_index_found (fun i => F32.eqb (position_at t i) p)
              (LOOKUP_TABLE_SIZE t) 0 i) as (k & E & Hk); auto; [lia|].
  rewrite E. apply first_index_some in E as (_ & Hk' & _).
  destruct (Nat.eq_dec k i) as [->|]; auto.
  pose proof (position_lt k i ltac:(lia)). exfalso. float_order.
Qed.

Lemma below_first :
  F32.leb p (position_at t 0) = true -> getNearestDistance t p = distance_at t 0.
Proof.
  intros Hle. unfold getNearestDistance.
  destruct (Nat.eqb_spec (LOOKUP_TABLE_SIZE t) 0) as [|_]; [lia|].
  destruct (first_index _ 0 (LOOKUP_TABLE_SIZE t)) as [k|] eqn:E.
  - apply first_index_some in E as (Hk & He & _).
    destruct (Nat.eq_dec k 0) as [->|]; auto.
    pose proof (position_lt 0 k ltac:(lia)). exfalso. float_order.
  - rewrite Hle. reflexivity.
Qed.

Lemma above_last :
  F32.geb p (position_at t (LOOKUP_TABLE_SIZE t - 1)) = true ->
  getNearestDistance t p = distance_at t (LOOKUP_TABLE_SIZE t - 1).
Proof.
  intros Hge. unfold getNearestDistance.
  destruct (Nat.eqb_spec (LOOKUP_TABLE_SIZE t) 0) as [|_]; [lia|].
  destruct (first_index _ 0 (LOOKUP_TABLE_SIZE t)) as [k|] eqn:E.
  - apply first_index_some in E as (Hk & He & _).
    destruct (Nat.eq_dec k (LOOKUP_TABLE_SIZE t - 1)) as [->|]; auto.
    pose proof (position_lt k (LOOKUP_TABLE_SIZE t - 1) ltac:(lia)).
    exfalso. float_order.
  - rewrite Hge.
    destruct (F32.leb p (position_at t 0)) eqn:Hle; auto.
    exfalso.
    pose proof (first_index_none _ _ _ E 0%nat ltac:(lia)) as H0. cbn beta in H0.
    destruct (Nat.eq_dec (LOOKUP_TABLE_SIZE t - 1) 0) as [Hn|Hn].
    + rewrite Hn in Hge. float_order.
    + pose proof (position_lt 0 (LOOKUP_TABLE_SIZE t - 1) ltac:(lia)). float_order.
Qed.

Lemma between (i : nat) :
  (i + 1 < LOOKUP_TABLE_SIZE t)%nat ->
  F32.ltb (position_at t i) p = true -> F32.ltb p (position_at t (i + 1)) = true ->
  getNearestDistance t p =
  interpolate (position_at t i) (distance_at t i)
              (position_at t (i + 1)) (distance_at t (i + 1)) p.
Proof.
  intros Hi Hlo Hhi. unfold getNearestDistance.
  destruct (Nat.eqb_spec (LOOKUP_TABLE_SIZE t) 0) as [|_]; [lia|].
  destruct (first_index _ 0 (LOOKUP_TABLE_SIZE t)) as [k|] eqn:E.
  { exfalso. apply first_index_some in E as (Hk & He & _).
    destruct (Nat.le_gt_cases k i) as [Hki|Hki].
    - destruct (Nat.eq_dec k i) as [->|]; [float_order|].
      pose proof (position_lt k i ltac:(lia)). float_order.
    - destruct (Nat.eq_dec k (i + 1)) as [->|]; [float_order|].
      pose proof (position_lt (i + 1) k ltac:(lia)). float_order. }
  assert (F32.leb p (position_at t 0) = false) as ->.
  { destruct (Nat.eq_dec i 0) as [->|]; [float_order|].
    pose proof (position_lt 0 i ltac:(lia)). float_order. }
  assert (F32.geb p (position_at t (LOOKUP_TABLE_SIZE t - 1)) = false) as ->.
  { destruct (Nat.eq_dec (i + 1) (LOOKUP_TABLE_SIZE t - 1)) as [<-|]; [float_order|].
    pose proof (position_lt (i + 1) (LOOKUP_TABLE_SIZE t - 1) ltac:(lia)). float_order. }
  destruct (first_index_found
              (fun i => F32.gtb p (position_at t i)
                        && F32.ltb p (position_at t (i + 1)))
              (LOOKUP_TABLE_SIZE t - 1) 0 i) as (k & E' & Hk); [lia | |].
  { cbn beta. unfold F32.gtb.
    change (SFltb (position_at t i) p) with (F32.ltb (position_at t i) p).
    rewrite Hlo, Hhi. reflexivity. }
  rewrite E'. apply first_index_some in E' as (Hk' & Ht & _).
  destruct (Nat.eq_dec k i) as [->|]; auto.
  exfalso. cbn beta in Ht. apply andb_prop in Ht as [Hg Hl].
  destruct (Nat.eq_dec (k + 1) i) as [Hki|Hki].
  - rewrite Hki in Hl. float_order.
  - pose proof (position_lt (k + 1) i ltac:(lia)). float_order.
Qed.

Lemma cases_exhaustive :
  number p ->
  (exists i, (i < LOOKUP_TABLE_SIZE t)%nat /\ F32.eqb (position_at t i) p = true)
  \/ F32.leb p (position_at t 0) = true
  \/ F32.geb p (position_at t (LOOKUP_TABLE_SIZE t - 1)) = true
  \/ (exists i, (i + 1 < LOOKUP_TABLE_SIZE t)%nat
                /\ F32.ltb (position_at t i) p = true
                /\ F32.ltb p (position_at t (i + 1)) = true).
Proof.
  intros Hp.
  destruct (F32.leb p (position_at t 0)) eqn:Hle; [tauto|].
  destruct (F32.geb p (position_at t (LOOKUP_TABLE_SIZE t - 1))) eqn:Hge; [tauto|].
  assert (forall m, (m < LOOKUP_TABLE_SIZE t)%nat ->
            F32.ltb (position_at t 0) p = true ->
            F32.ltb p (position_at t m) = true ->
            (exists i, (i < LOOKUP_TABLE_SIZE t)%nat /\ F32.eqb (position_at t i) p = true)
            \/ (exists i, (i + 1 < LOOKUP_TABLE_SIZE t)%nat
                          /\ F32.ltb (position_at t i) p = true
                          /\ F32.ltb p (position_at t (i + 1)) = true)) as Hsearch.
  { induction m as [|m IH]; intros Hm H0 Hlt.
    - exfalso. float_order.
    - destruct (number_trichotomy (position_at t m) p
                  (position_number m ltac:(lia)) Hp) as [H|[H|H]].
      + right. exists m. rewrite Nat.add_1_r. repeat split; auto.
      + left. exists m. split; auto; lia.
      + apply IH; auto; lia. }
  pose proof (position_number 0 Hsize) as Hn0.
  pose proof (position_number (LOOKUP_TABLE_SIZE t - 1) ltac:(lia)) as Hnl.
  destruct (Hsearch (LOOKUP_TABLE_SIZE t - 1)%nat) as [H|H];
    try tauto; try lia; float_order.
Qed.
End Query.

(** A NaN matches no case: the query falls through to the sentinel. *)
Lemma getNearestDistance_nan (t : lookup_table) :
  (0 < LOOKUP_TABLE_SIZE t)%nat -> getNearestDistance t S754_nan = not_found.
Proof.
  intros Hsize. unfold getNearestDistance.
  destruct (Nat.eqb_spec (LOOKUP_TABLE_SIZE t) 0) as [|_]; [lia|].
  assert (forall test, (forall i, test i = false) ->
            forall n i, first_index test i n = None) as Hnone.
  { intros test Htest. induction n as [|n IH]; intros i; cbn; [reflexivity|].
    rewrite Htest. apply IH. }
  rewrite Hnone.
  - replace (F32.leb S754_nan (position_at t 0)) with false by reflexivity.
    replace (F32.geb S754_nan (position_at t (LOOKUP_TABLE_SIZE t - 1))) with false
      by (unfold F32.geb, SFleb, SFcompare; destruct (position_at t _); reflexivity).
    rewrite Hnone; [reflexivity|].
    intros i. unfold F32.gtb, SFltb, SFcompare. destruct (position_at t i); reflexivity.
  - intros i. unfold F32.eqb, SFeqb, SFcompare. destruct (position_at t i); reflexivity.
Qed.

(** C7. On a non-empty table whose positions are numbers and increase
    strictly, a query [p] that is a number gets: the paired distance at an
    exact match; the first distance at or below the first position; the last
    distance at or above the last position; otherwise, between the entries
    [(x1, y1)] and [(x2, y2)] that bracket it, the value
    [y1 + (y2 - y1) * (p - x1) / (x2 - x1)] computed in [float] from left to
    right; and one of these cases always applies.  On the table
    (10.50, 10.45), (20.75, 20.78) the query 15.625 gives the float 15.615,
    the query 5.0 gives 10.45, and the queries a quarter and three quarters of
    the way, 13.0625 and 18.1875, give 13.0325 and 18.1975. *)
Theorem getNearestDistance_cases (t : lookup_table) (p : spec_float) :
  table_ok t = true -> (0 < LOOKUP_TABLE_SIZE t)%nat -> F32.is_nan p = false ->
  (forall i, (i < LOOKUP_TABLE_SIZE t)%nat -> F32.eqb (position_at t i) p = true ->
     getNearestDistance t p = distance_at t i)
  /\ (F32.leb p (position_at t 0) = true -> getNearestDistance t p = distance_at t 0)
  /\ (F32.geb p (position_at t (LOOKUP_TABLE_SIZE t - 1)) = true ->
      getNearestDistance t p = distance_at t (LOOKUP_TABLE_SIZE t - 1))
  /\ (forall i, (i + 1 < LOOKUP_TABLE_SIZE t)%nat ->
        F32.ltb (position_at t i) p = true -> F32.ltb p (position_at t (i + 1)) = true ->
        getNearestDistance t p =
        F32.add (distance_at t i)
          (F32.div
             (F32.mul (F32.sub (distance_at t (i + 1)) (distance_at t i))
                      (F32.sub p (position_at t i)))
             (F32.sub (position_at t (i + 1)) (position_at t i))))
  /\ ((exists i, (i < LOOKUP_TABLE_SIZE t)%nat /\ F32.eqb (position_at t i) p = true)
      \/ F32.leb p (position_at t 0) = true
      \/ F32.geb p (position_at t (LOOKUP_TABLE_SIZE t - 1)) = true
      \/ (exists i, (i + 1 < LOOKUP_TABLE_SIZE t)%nat
                    /\ F32.ltb (position_at t i) p = true
                    /\ F32.ltb p (position_at t (i + 1)) = true))
  /\ getNearestDistance Scenario.two_point_table (F32.lit 15625 1000) = F32.lit 15615 1000
  /\ getNearestDistance Scenario.two_point_table (F32.of_int 5) = F32.lit 1045 100
  /\ getNearestDistance Scenario.two_point_table (F32.lit 130625 10000)
     = F32.lit 130325 10000
  /\ getNearestDistance Scenario.two_point_table (F32.lit 181875 10000)
     = F32.lit 181975 10000.
Proof.
  intros Hok Hsize Hp. repeat apply conj.
  - intros i. apply exact_match; assumption.
  - apply below_first; assumption.
  - apply above_last; assumption.
  - intros i Hi Hlo Hhi. rewrite (between t p Hok Hsize i Hi Hlo Hhi).
    unfold interpolate. reflexivity.
  - apply cases_exhaustive; assumption.
  - vm_compute. reflexivity.
  - vm_compute. reflexivity.
  - vm_compute. reflexivity.
  - vm_compute. reflexivity.
Qed.

Lemma getNearestDistance_cases_witness :
  getNearestDistance Scenario.two_point_table (F32.of_int 12) =
  F32.add (F32.lit 1045 100)
    (F32.div
       (F32.mul (F32.sub (F32.lit 2078 100) (F32.lit 1045 100))
                (F32.sub (F32.of_int 12) (F32.lit 1050 100)))
       (F32.sub (F32.lit 2075 100) (F32.lit 1050 100))).
Proof.
  destruct (getNearestDistance_cases Scenario.two_point_table (F32.of_int 12))
    as (_ & _ & _ & Hbetween & _).
  - vm_compute. reflexivity.
  - apply Nat.lt_0_succ.
  - vm_compute. reflexivity.
  - apply (Hbetween 0%nat).
    + apply Nat.lt_succ_diag_r.
    + vm_compute. reflexivity.
    + vm_compute. reflexivity.
Defined.

(** ** Distance correction *)

Section Correction.
Variable c : correction_tables.
Variable t : lookup_table.
Hypothesis Hlookup : LOOKUP_TABLE c = Some t.
Hypothesis Hsize : (0 < LOOKUP_TABLE_SIZE t)%nat.

Lemma lookup_available : lookup_tables_available c = true.
Proof.
  unfold lookup_tables_available. rewrite Hlookup. apply Nat.ltb_lt. exact Hsize.
Qed.

Lemma correction_both (applyCorrectedDistance : spec_float -> spec_float)
    (raw : spec_float) :
  ERROR_TABLE c = Some applyCorrectedDistance ->
  apply_distance_correction c raw =
  let corrected := applyCorrectedDistance raw in
  let lookup := getNearestDistance t corrected in
  if F32.gtb lookup F32.zero
     && F32.gtb (difference lookup corrected) (F32.of_int 2)
  then lookup else corrected.
Proof.
  intros He. unfold apply_distance_correction.
  rewrite lookup_available, He, Hlookup. cbn.
  destruct (F32.gtb (getNearestDistance t (applyCorrectedDistance raw)) F32.zero);
    reflexivity.
Qed.

Lemma correction_coarse_only (raw : spec_float) :
  ERROR_TABLE c = None ->
  apply_distance_correction c raw =
  if F32.gtb (getNearestDistance t raw) F32.zero
  then getNearestDistance t raw else raw.
Proof.
  intros He. unfold apply_distance_correction.
  rewrite lookup_available, He, Hlookup. reflexivity.
Qed.
End Correction.

(** With an empty coarse table the function takes its first exit. *)
Lemma correction_empty (c : correction_tables) (t : lookup_table) (raw : spec_float) :
  LOOKUP_TABLE c = Some t -> LOOKUP_TABLE_SIZE t = 0%nat ->
  apply_distance_correction c raw = raw.
Proof.
  intros Hl Hs. unfold apply_distance_correction, lookup_tables_available.
  rewrite Hl, Hs. reflexivity.
Qed.

(** C8 as stated fails: with both tables configured, the coarse table reading
    0 at its first position and a fine-grained result of -5, the two results
    differ by 5, more than 2, and the fine-grained result is returned all the
    same, because the coarse result is not positive. *)
Lemma correction_keeps_fine_result_beyond_tolerance :
  let raw := F32.of_int (-5) in
  let corrected := raw in
  let lookup := getNearestDistance Scenario.origin_table corrected in
  lookup = F32.zero
  /\ F32.gtb lookup corrected = true
  /\ F32.gtb (F32.sub lookup corrected) (F32.of_int 2) = true
  /\ apply_distance_correction Scenario.both_tables raw = corrected
  /\ apply_distance_correction Scenario.both_tables raw <> lookup.
Proof.
  vm_compute. repeat split; try reflexivity. discriminate.
Qed.

(** C8 (amended). With both tables configured and the coarse table not empty,
    the fine-grained correction is applied first and the coarse table is
    queried with its result.  The coarse result is returned when it is
    strictly positive and the two results differ by more than 2, the
    difference being the larger minus the smaller of the two in [float]; the
    fine-grained result is returned otherwise. *)
Theorem apply_distance_correction_both_tables
    (c : correction_tables) (t : lookup_table)
    (applyCorrectedDistance : spec_float -> spec_float) (raw : spec_float) :
  LOOKUP_TABLE c = Some t -> (0 < LOOKUP_TABLE_SIZE t)%nat ->
  ERROR_TABLE c = Some applyCorrectedDistance ->
  let corrected := applyCorrectedDistance raw in
  let lookup := getNearestDistance t corrected in
  (F32.gtb lookup F32.zero = true -> F32.gtb lookup corrected = true ->
   apply_distance_correction c raw
   = if F32.gtb (F32.sub lookup corrected) (F32.of_int 2) then lookup else corrected)
  /\ (F32.gtb lookup F32.zero = true -> F32.gtb lookup corrected = false ->
      apply_distance_correction c raw
      = if F32.gtb (F32.sub corrected lookup) (F32.of_int 2) then lookup else corrected)
  /\ (F32.gtb lookup F32.zero = false -> apply_distance_correction c raw = corrected).
Proof.
  intros Hl Hs He corrected lookup.
  rewrite (correction_both c t Hl Hs applyCorrectedDistance raw He). cbn zeta.
  fold corrected. fold lookup. unfold difference.
  repeat apply conj.
  - intros Hpos Hgt. rewrite Hpos, Hgt. reflexivity.
  - intros Hpos Hgt. rewrite Hpos, Hgt. reflexivity.
  - intros Hpos. rewrite Hpos. reflexivity.
Qed.

Lemma apply_distance_correction_both_tables_witness :
  apply_distance_correction Scenario.shifted_tables (F32.of_int 4) = F32.lit 1045 100
  /\ apply_distance_correction Scenario.shifted_tables (F32.of_int 24) = F32.lit 2078 100
  /\ apply_distance_correction Scenario.shifted_tables (F32.of_int 14) = F32.of_int 15
  /\ apply_distance_correction Scenario.both_tables (F32.of_int (-5)) = F32.of_int (-5).
Proof.
  repeat apply conj.
  - destruct (apply_distance_correction_both_tables Scenario.shifted_tables
                Scenario.two_point_table Scenario.one_more (F32.of_int 4))
      as (Hbelow & _ & _).
    + reflexivity.
    + apply Nat.lt_0_succ.
    + reflexivity.
    + rewrite Hbelow; vm_compute; reflexivity.
  - destruct (apply_distance_correction_both_tables Scenario.shifted_tables
                Scenario.two_point_table Scenario.one_more (F32.of_int 24))
      as (_ & Habove & _).
    + reflexivity.
    + apply Nat.lt_0_succ.
    + reflexivity.
    + rewrite Habove; vm_compute; reflexivity.
  - destruct (apply_distance_correction_both_tables Scenario.shifted_tables
                Scenario.two_point_table Scenario.one_more (F32.of_int 14))
      as (_ & Hnear & _).
    + reflexivity.
    + apply Nat.lt_0_succ.
    + reflexivity.
    + rewrite Hnear; vm_compute; reflexivity.
  - destruct (apply_distance_correction_both_tables Scenario.both_tables
                Scenario.origin_table (fun raw => raw) (F32.of_int (-5)))
      as (_ & _ & Hkeep).
    + reflexivity.
    + apply Nat.lt_0_succ.
    + reflexivity.
    + apply Hkeep. vm_compute. reflexivity.
Defined.

(** C10 as stated fails on the empty-table sentinel it names: with both
    tables configured and the coarse one empty, [getNearestDistance] returns
    -1 for the fine-grained value 51, which is not positive, and the function
    returns the raw 50, not the fine-grained 51: it has left at its first test
    and applied no correction. *)
Lemma empty_coarse_table_returns_raw :
  let raw := F32.of_int 50 in
  let corrected := Scenario.one_more raw in
  corrected = F32.of_int 51
  /\ getNearestDistance Scenario.empty_table corrected = F32.of_int (-1)
  /\ F32.gtb (getNearestDistance Scenario.empty_table corrected) F32.zero = false
  /\ apply_distance_correction Scenario.empty_coarse raw = raw
  /\ apply_distance_correction Scenario.empty_coarse raw <> corrected.
Proof.
  vm_compute. repeat split; try reflexivity. discriminate.
Qed.

(** C10 (amended). With both tables configured and the coarse table not
    empty, a coarse result that is not strictly positive (the not-found
    sentinel -1 among them) leaves the fine-grained result in place whatever
    the difference between the two, so the coarse result is adopted only when
    it is strictly positive.  With an empty coarse table, where the query
    would return the sentinel -1, the raw input is returned unchanged whether
    or not the fine-grained table is configured: the fine-grained correction
    is not applied.  With the coarse table alone, a result that is not
    strictly positive returns the raw input unchanged. *)
Theorem apply_distance_correction_needs_positive_lookup
    (c : correction_tables) (t : lookup_table) (raw : spec_float) :
  LOOKUP_TABLE c = Some t ->
  (forall applyCorrectedDistance,
     ERROR_TABLE c = Some applyCorrectedDistance -> (0 < LOOKUP_TABLE_SIZE t)%nat ->
     F32.gtb (getNearestDistance t (applyCorrectedDistance raw)) F32.zero = false ->
     apply_distance_correction c raw = applyCorrectedDistance raw)
  /\ (forall applyCorrectedDistance,
        ERROR_TABLE c = Some applyCorrectedDistance -> (0 < LOOKUP_TABLE_SIZE t)%nat ->
        apply_distance_correction c raw <> applyCorrectedDistance raw ->
        apply_distance_correction c raw = getNearestDistance t (applyCorrectedDistance raw)
        /\ F32.gtb (getNearestDistance t (applyCorrectedDistance raw)) F32.zero = true)
  /\ (LOOKUP_TABLE_SIZE t = 0%nat ->
      (forall position, getNearestDistance t position = not_found)
      /\ apply_distance_correction c raw = raw)
  /\ (ERROR_TABLE c = None ->
      F32.gtb (getNearestDistance t raw) F32.zero = false ->
      apply_distance_correction c raw = raw)
  /\ not_found = F32.of_int (-1)
  /\ F32.gtb not_found F32.zero = false.
Proof.
  intros Hl. repeat apply conj.
  - intros f He Hs Hn. rewrite (correction_both c t Hl Hs f raw He). cbn zeta.
    rewrite Hn. reflexivity.
  - intros f He Hs. rewrite (correction_both c t Hl Hs f raw He). cbn zeta.
    destruct (F32.gtb (getNearestDistance t (f raw)) F32.zero); cbn.
    + match goal with |- context [if ?b then _ else _] => destruct b end;
        [auto | congruence].
    + congruence.
  - intros Hs. split.
    + intros position. unfold getNearestDistance. rewrite Hs. reflexivity.
    + apply (correction_empty c t raw Hl Hs).
  - intros He Hn. destruct (LOOKUP_TABLE_SIZE t) as [|n] eqn:Hs.
    + apply (correction_empty c t raw Hl Hs).
    + rewrite (correction_coarse_only c t Hl ltac:(rewrite Hs; apply Nat.lt_0_succ) raw He),
        Hn. reflexivity.
  - reflexivity.
  - reflexivity.
Qed.

Lemma apply_distance_correction_needs_positive_lookup_witness :
  apply_distance_correction Scenario.both_tables (F32.of_int (-5)) = F32.of_int (-5)
  /\ apply_distance_correction Scenario.coarse_only (F32.of_int (-5)) = F32.of_int (-5)
  /\ apply_distance_correction Scenario.empty_coarse (F32.of_int 50) = F32.of_int 50.
Proof.
  repeat apply conj.
  - destruct (apply_distance_correction_needs_positive_lookup
                Scenario.both_tables Scenario.origin_table (F32.of_int (-5)))
      as (Hboth & _).
    + reflexivity.
    + apply (Hboth (fun raw => raw)); [reflexivity | apply Nat.lt_0_succ | reflexivity].
  - destruct (apply_distance_correction_needs_positive_lookup
                Scenario.coarse_only Scenario.origin_table (F32.of_int (-5)))
      as (_ & _ & _ & Hcoarse & _).
    + reflexivity.
    + apply Hcoarse; reflexivity.
  - destruct (apply_distance_correction_needs_positive_lookup
                Scenario.empty_coarse Scenario.empty_table (F32.of_int 50))
      as (_ & _ & Hempty & _).
    + reflexivity.
    + apply Hempty. reflexivity.
Defined.

(** ** The smoothing buffer *)

Section BufferFacts.
Import Fifo.
Variable A : Type.
Variable N : nat.
Hypothesis HN : (0 < N)%nat.

Lemma capacity_push (b : FIFOBuffer A) (v : A) : capacity (push b v) = capacity b.
Proof. unfold push. destruct (isFull b); reflexivity. Qed.

Lemma pushes_snoc (b : FIFOBuffer A) (vs : list A) (v : A) :
  pushes b (vs ++ [v]) = push (pushes b vs) v.
Proof. unfold pushes. rewrite fold_left_app. reflexivity. Qed.

Lemma capacity_pushes (vs : list A) : capacity (pushes (initBuffer N) vs) = N.
Proof.
  induction vs as [|v vs IH] using rev_ind; [reflexivity|].
  rewrite pushes_snoc, capacity_push. exact IH.
Qed.

Lemma tl_skipn (k : nat) (l : list A) : tl (skipn k l) = skipn (S k) l.
Proof.
  revert l. induction k as [|k IH]; intros [|x l]; try reflexivity.
  cbn [skipn]. rewrite IH. destruct l; reflexivity.
Qed.

(** The buffer holds the last [N] values pushed. *)
Lemma items_pushes (vs : list A) :
  items (pushes (initBuffer N) vs) = skipn (length vs - N) vs.
Proof.
  induction vs as [|v vs IH] using rev_ind; [reflexivity|].
  rewrite pushes_snoc. unfold push, isFull.
  rewrite capacity_pushes, IH, length_skipn, length_app. cbn [length].
  destruct (Nat.leb_spec N (length vs - (length vs - N))) as [Hfull|Hroom].
  - cbn. rewrite IH, tl_skipn.
    replace (length vs + 1 - N)%nat with (S (length vs - N)) by lia.
    rewrite skipn_app.
    replace (S (length vs - N) - length vs)%nat with 0%nat by lia. reflexivity.
  - cbn. rewrite IH.
    replace (length vs - N)%nat with 0%nat by lia.
    replace (length vs + 1 - N)%nat with 0%nat by lia. reflexivity.
Qed.
End BufferFacts.

(** C9. Modelled from the spec ([fifo_buff.h] is not among the sources): with
    the push of [acc_service], a buffer of capacity [N > 0] holds after any
    sequence of pushes the last [N] values of the sequence and never more than
    [N]; after [N] pushes of distinct values a further push evicts the oldest
    of them and keeps the rest in order. *)
Theorem smoothing_buffer_bounded (A : Type) (N : nat) (vs : list A) :
  (0 < N)%nat ->
  (length (Fifo.items (Fifo.pushes (Fifo.initBuffer N) vs)) <= N)%nat
  /\ Fifo.items (Fifo.pushes (Fifo.initBuffer N) vs) = skipn (length vs - N) vs
  /\ (forall oldest rest w,
        vs = oldest :: rest -> length vs = N -> NoDup (vs ++ [w]) ->
        Fifo.isFull (Fifo.pushes (Fifo.initBuffer N) vs) = true
        /\ Fifo.items (Fifo.push (Fifo.pushes (Fifo.initBuffer N) vs) w) = rest ++ [w]
        /\ ~ In oldest (Fifo.items (Fifo.push (Fifo.pushes (Fifo.initBuffer N) vs) w))).
Proof.
  intros HN. repeat apply conj.
  - rewrite (items_pushes A N HN), length_skipn. lia.
  - apply items_pushes; assumption.
  - intros oldest rest w Hvs Hlen Hnodup.
    assert (Fifo.items (Fifo.pushes (Fifo.initBuffer N) vs) = vs) as Hitems.
    { rewrite (items_pushes A N HN). replace (length vs - N)%nat with 0%nat by lia.
      reflexivity. }
    assert (Fifo.isFull (Fifo.pushes (Fifo.initBuffer N) vs) = true) as Hfull.
    { unfold Fifo.isFull. rewrite (capacity_pushes A N), Hitems. apply Nat.leb_le. lia. }
    assert (Fifo.items (Fifo.push (Fifo.pushes (Fifo.initBuffer N) vs) w) = rest ++ [w])
      as Hpush.
    { unfold Fifo.push. rewrite Hfull. cbn. rewrite Hitems, Hvs. reflexivity. }
    repeat split; auto.
    rewrite Hpush. rewrite Hvs in Hnodup. cbn in Hnodup.
    apply NoDup_cons_iff in Hnodup. tauto.
Qed.

Lemma smoothing_buffer_bounded_witness :
  Fifo.items (Fifo.pushes (Fifo.initBuffer 3) [10; 20; 30; 40]) = [20; 30; 40].
Proof.
  destruct (smoothing_buffer_bounded Z 3 [10; 20; 30; 40]) as (_ & Hlast & _).
  - apply Nat.lt_0_succ.
  - exact Hlast.
Defined.

(** ** The estimator *)

Import Estimator.

Ltac bind_inv H :=
  repeat match type of H with
  | outcome_bind ?x _ = Ok _ =>
      let E := fresh "E" in
      destruct x eqn:E; cbn [outcome_bind] in H; [|discriminate H]
  end.

Lemma int_result_in_range (z : Z) :
  INT_MIN <= z <= INT_MAX -> int_result z = Ok z.
Proof.
  intros [Hlo Hhi]. unfold int_result.
  apply Z.leb_le in Hlo. apply Z.leb_le in Hhi. rewrite Hlo, Hhi. reflexivity.
Qed.

Lemma record_crossing_index (l l' : locals) (i : nat) (amplitude : Z)
    (distance threshold : spec_float) :
  record_crossing l i amplitude distance threshold = Ok l' ->
  first_threshold_index l' = Z.of_nat i.
Proof.
  unfold record_crossing. destruct (0 <? i)%nat; intros H.
  - bind_inv H. injection H as <-. reflexivity.
  - injection H as <-. reflexivity.
Qed.

(** An iteration left by [break] has recorded its own index. *)
Lemma scan_body_break (cfg : PrintDataConfig) (data : list acc_int16_complex_t)
    (d : Z) (i : nat) (l l' : locals) :
  scan_body cfg data d i l = Ok (l', true) -> first_threshold_index l' = Z.of_nat i.
Proof.
  unfold scan_body. intros H. bind_inv H.
  match type of H with (if ?b then _ else _) = _ => destruct b end.
  - bind_inv H. injection H as <-.
    eapply record_crossing_index; eassumption.
  - discriminate H.
Qed.

(** C5. A frame whose sample count differs from [num_points * sweeps_per_frame]
    (a product inside the range of [int]) returns 0 and leaves [*proc_data] as
    it was, for any samples and any temperature: the scan, which is undefined
    on some of them, is not entered. *)
Theorem malformed_frame_rejected (tables : correction_tables)
    (data : list acc_int16_complex_t) (data_length : Z) (cfg : PrintDataConfig)
    (temp : Z) (proc_data : ProcessedData) :
  INT_MIN <= num_points cfg * sweeps_per_frame cfg <= INT_MAX ->
  data_length <> num_points cfg * sweeps_per_frame cfg ->
  run_simple_threshold_algo tables data data_length cfg temp proc_data = Ok (0, proc_data).
Proof.
  intros Hrange Hlen. unfold run_simple_threshold_algo.
  rewrite (int_result_in_range _ Hrange). cbn [outcome_bind].
  destruct (Z.eqb_spec data_length (num_points cfg * sweeps_per_frame cfg));
    [contradiction | reflexivity].
Qed.

Lemma malformed_frame_rejected_witness :
  run_simple_threshold_algo Scenario.example_tables Scenario.flat_frame 3
    Scenario.falling_threshold 20 Scenario.no_data = Ok (0, Scenario.no_data).
Proof.
  apply malformed_frame_rejected.
  - vm_compute. split; discriminate.
  - vm_compute. discriminate.
Defined.

(** The first iteration of the scan on a sample above its threshold. *)
Lemma scan_body_first_sample (cfg : PrintDataConfig) (data : list acc_int16_complex_t)
    (d : Z) (s : acc_int16_complex_t) (a : Z) :
  nth_error data 0 = Some s ->
  amplitude_of s d = Ok a ->
  F32.gtb (F32.sub (F32.of_int a) (threshold_of cfg (distance_of cfg 0))) F32.zero = true ->
  exists l, scan_body cfg data d 0 initial_locals = Ok (l, true).
Proof.
  intros Hs Ha Hcross. unfold scan_body, array_get. rewrite Hs. cbn [outcome_bind].
  rewrite Ha. cbn [outcome_bind].
  replace (array_set (amplitudes initial_locals) 0 a)
    with (Ok (list_set (amplitudes initial_locals) 0 a)) by reflexivity.
  replace (array_set (distances initial_locals) 0 (distance_of cfg 0))
    with (Ok (list_set (distances initial_locals) 0 (distance_of cfg 0))) by reflexivity.
  cbn [outcome_bind]. unfold crosses.
  cbn [l_first_threshold_x initial_locals]. rewrite Hcross.
  replace (F32.eqb F32.zero F32.zero) with true by reflexivity.
  cbn [andb]. unfold record_crossing.
  replace (0 <? 0)%nat with false by reflexivity.
  cbn [outcome_bind]. eexists. reflexivity.
Qed.

(** C4. On a frame of the right length whose first sample is above its
    threshold, the function returns 0 and leaves [*proc_data] as it was,
    whatever the correction tables are: the crossing index stays 0 and neither
    the interpolation nor the correction is evaluated. *)
Theorem crossing_at_first_sample_rejected (tables : correction_tables)
    (data : list acc_int16_complex_t) (data_length : Z) (cfg : PrintDataConfig)
    (temp : Z) (proc_data : ProcessedData) (s : acc_int16_complex_t) (a : Z) :
  INT_MIN <= num_points cfg * sweeps_per_frame cfg <= INT_MAX ->
  data_length = num_points cfg * sweeps_per_frame cfg ->
  0 < num_points cfg ->
  nth_error data 0 = Some s ->
  amplitude_of s (compute_divisor temp) = Ok a ->
  F32.gtb (F32.sub (F32.of_int a) (threshold_of cfg (distance_of cfg 0))) F32.zero = true ->
  run_simple_threshold_algo tables data data_length cfg temp proc_data = Ok (0, proc_data).
Proof.
  intros Hrange Hlen Hpoints Hs Ha Hcross.
  destruct (scan_body_first_sample cfg data _ s a Hs Ha Hcross) as [l Hbody].
  unfold run_simple_threshold_algo.
  rewrite (int_result_in_range _ Hrange). cbn [outcome_bind].
  rewrite Hlen, Z.eqb_refl.
  destruct (Z.to_nat (num_points cfg)) as [|n] eqn:En; [lia|].
  cbn [scan_loop]. rewrite Hbody. cbn [outcome_bind].
  rewrite (scan_body_break _ _ _ _ _ _ Hbody). reflexivity.
Qed.

Lemma crossing_at_first_sample_rejected_witness :
  run_simple_threshold_algo Scenario.example_tables Scenario.loud_frame 2
    Scenario.falling_threshold 20 Scenario.no_data = Ok (0, Scenario.no_data).
Proof.
  apply (crossing_at_first_sample_rejected Scenario.example_tables Scenario.loud_frame 2
           Scenario.falling_threshold 20 Scenario.no_data
           {| real := 1000; imag := 0 |} 769).
  - vm_compute. split; discriminate.
  - reflexivity.
  - reflexivity.
  - reflexivity.
  - vm_compute. reflexivity.
  - vm_compute. reflexivity.
Defined.

(** A float quotient whose denominator is the difference of two equal floats
    is an infinity or a NaN. *)
Lemma div_by_equal_difference (x a b : spec_float) :
  F32.eqb a b = true -> F32.is_finite (F32.div x (F32.sub a b)) = false.
Proof.
  intros H. apply eqb_key in H as (Ha & Hb & Hk).
  assert (F32.sub a b = S754_nan \/ exists s, F32.sub a b = S754_zero s) as [-> | [s ->]].
  { destruct a as [sa|sa| |sa ma ea], b as [sb|sb| |sb mb eb];
      try discriminate; cbn in Hk;
      try (destruct sa; cbn in Hk; lia); try (destruct sb; cbn in Hk; lia).
    - right. destruct sa, sb; eexists; reflexivity.
    - destruct sa, sb; cbn in Hk; try lia; left; reflexivity.
    - right. exists false.
      assert (sa = sb /\ ea = eb /\ ma = mb) as (-> & -> & ->).
      { destruct sa, sb; cbn in Hk; destruct Hk as (H1 & H2 & H3);
          try discriminate; repeat split; try lia; congruence. }
      unfold F32.sub, SFsub. rewrite Z.sub_diag. reflexivity. }
  - destruct x; reflexivity.
  - destruct x as [sx|sx| |sx mx ex]; reflexivity.
Qed.

Lemma mul_not_finite (q y : spec_float) :
  F32.is_finite q = false -> F32.is_finite (F32.mul q y) = false.
Proof.
  destruct q as [sq|sq| |sq mq eq]; try discriminate; intros _;
    destruct y as [sy|sy| |sy my ey]; reflexivity.
Qed.

Lemma div_not_finite (x y : spec_float) :
  F32.is_finite x = false -> F32.is_finite (F32.div x y) = false.
Proof.
  destruct x as [sx|sx| |sx mx ex]; try discriminate; intros _;
    destruct y as [sy|sy| |sy my ey]; reflexivity.
Qed.

Lemma to_uint32_not_finite (x : spec_float) :
  F32.is_finite x = false -> F32.to_uint32 x = Undefined.
Proof.
  destruct x as [sx|sx| |sx mx ex]; try discriminate; reflexivity.
Qed.

Lemma add_not_finite (x z : spec_float) :
  F32.is_finite z = false -> F32.is_finite (F32.add x z) = false.
Proof.
  destruct z as [sz|sz| |sz mz ez]; try discriminate; intros _;
    destruct x as [sx|sx| |sx mx ex]; try reflexivity;
    destruct sx, sz; reflexivity.
Qed.

(** With equal amplitudes at the crossing and before it, the selected distance
    of line 443 is an infinity or a NaN. *)
Lemma interpolate_crossing_equal_amplitudes (l : locals) :
  F32.eqb (l_first_threshold_y l) (first_below_threshold_y l) = true ->
  F32.is_finite (interpolate_crossing l) = false.
Proof.
  intros H. unfold interpolate_crossing.
  apply add_not_finite, mul_not_finite, div_by_equal_difference, H.
Qed.

(** C3 as stated fails: on a two-sample frame whose amplitudes are both 48,
    with the threshold falling from 100 to 10 between the samples, the crossing
    is recorded at index 1, the denominator [y_cross - y_below] is zero, the
    division is carried out and the selected distance is minus infinity.  On
    this frame the call does not return the invalid result either: with the
    example lookup table the infinity is clamped to the first table distance
    and 104 is reported, and with no table the cast of the infinity is
    undefined. *)
Lemma equal_amplitudes_divide_by_zero :
  exists l,
    scan_loop Scenario.falling_threshold Scenario.flat_frame (compute_divisor 20)
              0 2 initial_locals = Ok l
    /\ first_threshold_index l = 1
    /\ l_first_threshold_y l = F32.of_int 48
    /\ first_below_threshold_y l = F32.of_int 48
    /\ F32.sub (l_first_threshold_y l) (first_below_threshold_y l) = F32.zero
    /\ interpolate_crossing l = S754_infinity true
    /\ run_simple_threshold_algo Scenario.example_tables Scenario.flat_frame 2
         Scenario.falling_threshold 20 Scenario.no_data
       = Ok (104, {| divisor := 1300; first_threshold_x := 10000;
                     first_threshold_y := 48; max_amplitude := 48; temp := 0;
                     threshold_crossed := 0; selected_distance := 104 |})
    /\ run_simple_threshold_algo Scenario.no_tables Scenario.flat_frame 2
         Scenario.falling_threshold 20 Scenario.no_data = Undefined.
Proof.
  eexists. split; [vm_compute; reflexivity|].
  vm_compute. repeat split; reflexivity.
Qed.

(** ** One frame of the measurement loop *)

Import Fifo Service.

(** Pushing [z] at the end of a list leaves a different list; dropping the
    oldest entry first gives the same list back exactly when the list is not
    empty and holds nothing but [z]. *)
Lemma snoc_changes {A : Type} (l : list A) (z : A) : l ++ [z] <> l.
Proof.
  intros H. apply (f_equal (@length A)) in H. rewrite length_app in H. cbn in H. lia.
Qed.

Lemma tl_snoc_same {A : Type} (z : A) : forall l : list A,
  tl l ++ [z] = l <-> l <> [] /\ Forall (eq z) l.
Proof.
  intros l. destruct l as [|a l]; cbn [tl].
  - split; [discriminate | intros [H _]; contradiction].
  - revert a. induction l as [|b l IH]; intros a; cbn [app].
    + split.
      * intros H. injection H as ->. split; [discriminate|]. repeat constructor.
      * intros [_ H]. inversion H; subst. reflexivity.
    + split.
      * intros H. injection H as -> H. apply IH in H as [_ H].
        split; [discriminate|]. inversion H; subst. repeat constructor; assumption.
      * intros [_ H]. inversion H as [|? ? Ha Hl]; subst.
        inversion Hl as [|? ? Hb Hl']; subst.
        f_equal. apply IH. split; [discriminate | assumption].
Qed.

(** C2 as stated fails: after a frame with a detection, which leaves the
    estimate 501 alone in the buffer, a frame on which no sample reaches the
    threshold makes the estimator return 0, and the loop pushes that 0 into
    the buffer, which holds [501; 0] afterwards; the value sent on, with no
    averaging configured, goes from 501 to 0. *)
Lemma invalid_frame_is_enqueued :
  exists detected silent,
    frame_cycle Scenario.example_tables Scenario.falling_threshold
      Scenario.rising_frame 2 20 (initial_state 3) = Ok detected
    /\ run_simple_threshold_algo Scenario.example_tables Scenario.silent_frame 2
         Scenario.falling_threshold (to_uint16 20) (proc_data detected)
       = Ok (0, proc_data detected)
    /\ frame_cycle Scenario.example_tables Scenario.falling_threshold
         Scenario.silent_frame 2 20 detected = Ok silent
    /\ items (lastHeldValues detected) = [F32.of_int 501]
    /\ items (lastHeldValues silent) = [F32.of_int 501; F32.zero]
    /\ items (lastHeldValues silent) <> items (lastHeldValues detected)
    /\ (forall getAverage computeWeightedAvg,
          avg_distance getAverage computeWeightedAvg
            Scenario.falling_threshold detected = Ok 501
          /\ avg_distance getAverage computeWeightedAvg
               Scenario.falling_threshold silent = Ok 0).
Proof.
  eexists. eexists.
  split; [vm_compute; reflexivity|].
  split; [vm_compute; reflexivity|].
  split; [vm_compute; reflexivity|].
  repeat split; try (vm_compute; reflexivity).
  vm_compute. discriminate.
Qed.

(** C2 (amended). In a frame cycle that runs the estimator ([algo == 1]) and
    gets the invalid result 0 from it, the value 0 is pushed into the buffer
    like any other estimate, the oldest entry being evicted first when the
    buffer is full, and 0 becomes the current distance.  The buffer's contents
    are the same afterwards only when the buffer was full, not empty and held
    nothing but zeros; in every other case the invalid frame changes them. *)
Theorem invalid_frame_pushes_zero (tables : correction_tables) (cfg : PrintDataConfig)
    (frame : list acc_int16_complex_t) (frame_data_length temperature : Z)
    (st : loop_state) (pd : ProcessedData) :
  algo cfg = 1 ->
  run_simple_threshold_algo tables frame frame_data_length cfg
    (to_uint16 temperature) (proc_data st) = Ok (0, pd) ->
  frame_cycle tables cfg frame frame_data_length temperature st
  = Ok {| lastHeldValues := push (lastHeldValues st) F32.zero;
          distance := F32.zero;
          proc_data := pd |}
  /\ items (push (lastHeldValues st) F32.zero)
     = (if isFull (lastHeldValues st)
        then tl (items (lastHeldValues st))
        else items (lastHeldValues st)) ++ [F32.zero]
  /\ (items (push (lastHeldValues st) F32.zero) = items (lastHeldValues st)
      <-> isFull (lastHeldValues st) = true
          /\ items (lastHeldValues st) <> []
          /\ Forall (eq F32.zero) (items (lastHeldValues st))).
Proof.
  intros Halgo Hrun. repeat apply conj.
  - unfold frame_cycle. rewrite Halgo, Z.eqb_refl, Hrun. reflexivity.
  - unfold push. destruct (isFull (lastHeldValues st)); reflexivity.
  - unfold push. destruct (isFull (lastHeldValues st)); cbn [items enqueue dequeue].
    + intros H. apply tl_snoc_same in H. tauto.
    + intros H. exfalso. exact (snoc_changes _ _ H).
  - intros (Hfull & Hne & Hall). unfold push. rewrite Hfull. cbn [items enqueue dequeue].
    apply tl_snoc_same. tauto.
Qed.

Lemma invalid_frame_pushes_zero_witness :
  frame_cycle Scenario.example_tables Scenario.falling_threshold
    Scenario.silent_frame 2 20 (initial_state 3)
  = Ok {| lastHeldValues := {| capacity := 3; items := [F32.zero] |};
          distance := F32.zero;
          proc_data := Scenario.no_data |}.
Proof.
  apply (invalid_frame_pushes_zero Scenario.example_tables Scenario.falling_threshold
           Scenario.silent_frame 2 20 (initial_state 3) Scenario.no_data).
  - reflexivity.
  - vm_compute. reflexivity.
Defined.

(** ** Calibration and preparation *)

Section LifecycleFacts.
Import Lifecycle ITreeNotations.
Local Open Scope itree_scope.

Variable s : sensor.

(** One pass of the inner loop: a failed calibration call ends it at once. *)
Lemma calibrate_until_complete_fails (log : list call) :
  fst (calibrate_reply s log) = false ->
  interp_state (handle s) calibrate_until_complete log
  ≈ Ret (log ++ [Calibrate], false).
Proof.
  intros H. unfold calibrate_until_complete.
  rewrite unfold_iter. cbn.
  rewrite bind_bind, interp_state_bind, interp_state_trigger. cbn.
  rewrite bind_ret_l. cbn.
  destruct (calibrate_reply s log) as [status cal_complete]. cbn in H. subst status. cbn.
  rewrite bind_ret_l. cbn. rewrite bind_ret_l, interp_state_ret. reflexivity.
Qed.

(** One pass of the retry loop when the calibration call fails: a power
    cycle, one calibration call, and the loop state for the next pass. *)
Lemma failed_attempt (log : list call) (i : nat) (k : bool * nat + bool -> itree sensorE bool) :
  fst (calibrate_reply s (log ++ [Disable] ++ [Enable])) = false ->
  interp_state (handle s)
    (r <- (ITree.trigger acc_hal_integration_sensor_disable ;;
           ITree.trigger acc_hal_integration_sensor_enable ;;
           status <- calibrate_until_complete ;;
           Ret (inl (status, S i))) ;; k r) log
  ≈ interp_state (handle s) (k (inl (false, S i)))
      (log ++ [Disable] ++ [Enable] ++ [Calibrate]).
Proof.
  intros H.
  rewrite bind_bind, interp_state_bind, interp_state_trigger. cbn.
  rewrite bind_ret_l. cbn.
  rewrite bind_bind, interp_state_bind, interp_state_trigger. cbn.
  rewrite bind_ret_l. cbn.
  rewrite bind_bind, interp_state_bind.
  rewrite calibrate_until_complete_fails by (rewrite <- app_assoc; exact H).
  rewrite bind_ret_l. cbn. rewrite bind_ret_l. cbn.
  rewrite <- !app_assoc. reflexivity.
Qed.
End LifecycleFacts.

(** C6. Against a sensor whose calibration call fails every time, with the
    retry count of 1, the routine makes exactly these calls: disable, enable,
    calibrate, disable, enable, calibrate.  It returns failure, and the prepare
    primitive is not among the calls. *)
Theorem calibration_fails_after_two_attempts (s : Lifecycle.sensor) :
  (forall log, fst (Lifecycle.calibrate_reply s log) = false) ->
  Lifecycle.calibration_retries = 1%nat
  /\ (Lifecycle.run s
      ≈ Ret ([Lifecycle.Disable; Lifecycle.Enable; Lifecycle.Calibrate;
              Lifecycle.Disable; Lifecycle.Enable; Lifecycle.Calibrate], false))%itree
  /\ ~ In Lifecycle.Prepare
         [Lifecycle.Disable; Lifecycle.Enable; Lifecycle.Calibrate;
          Lifecycle.Disable; Lifecycle.Enable; Lifecycle.Calibrate].
Proof.
  intros Hfail. split; [reflexivity|]. split.
  - unfold Lifecycle.run, Lifecycle.do_sensor_calibration_and_prepare,
      Lifecycle.calibration_attempts.
    rewrite interp_state_bind.
    rewrite unfold_iter. cbn.
    rewrite (failed_attempt s) by apply Hfail. cbn.
    rewrite interp_state_tau, tau_eutt.
    rewrite unfold_iter. cbn.
    rewrite (failed_attempt s) by apply Hfail. cbn.
    rewrite interp_state_tau, tau_eutt.
    rewrite unfold_iter. cbn.
    rewrite bind_ret_l, interp_state_ret, bind_ret_l. cbn.
    rewrite interp_state_ret. reflexivity.
  - cbn. intros H. repeat destruct H as [H|H]; try discriminate H. exact H.
Qed.

Lemma calibration_fails_after_two_attempts_witness :
  (Lifecycle.run Scenario.dead_sensor
   ≈ Ret ([Lifecycle.Disable; Lifecycle.Enable; Lifecycle.Calibrate;
           Lifecycle.Disable; Lifecycle.Enable; Lifecycle.Calibrate], false))%itree.
Proof.
  apply (calibration_fails_after_two_attempts Scenario.dead_sensor).
  intros log. reflexivity.
Defined.

(** * Further properties *)

(** ** The temperature divisor over its domain *)

(** X1. For a temperature reading from -40 to 106 degrees, passed as the
    [uint16_t] argument, the divisor is [1600 - 15 * temperature] exactly, the
    value of the stated rule, and it is at least 10. *)
Theorem compute_divisor_operating_range (temperature : Z) :
  -40 <= temperature <= 106 ->
  compute_divisor (to_uint16 temperature) = 1600 - 15 * temperature
  /\ compute_divisor (to_uint16 temperature) = divisor_per_spec temperature
  /\ 10 <= compute_divisor (to_uint16 temperature).
Proof.
  intros H.
  assert (compute_divisor (to_uint16 temperature) = 1600 - 15 * temperature) as E.
  { destruct (Z.neg_nonneg_cases temperature) as [Hneg|Hpos].
    - apply compute_divisor_negative_temperature. lia.
    - unfold to_uint16. change (2 ^ 16) with 65536. rewrite Z.mod_small by lia.
      rewrite compute_divisor_below_107 by lia. unfold divisor_per_spec. lia. }
  rewrite E. unfold divisor_per_spec. repeat split; lia.
Qed.

Lemma compute_divisor_operating_range_witness :
  compute_divisor (to_uint16 (-40)) = 1600 - 15 * (-40).
Proof.
  apply (compute_divisor_operating_range (-40)). lia.
Defined.

(** X2. Among the [uint16_t] temperatures the divisor is zero at 21952 and
    nowhere else: the division of line 403 is by zero for that value only. *)
Theorem compute_divisor_zero_iff (temp : Z) :
  0 <= temp < 65536 ->
  (compute_divisor temp = 0 <-> temp = 21952).
Proof.
  intros H. rewrite compute_divisor_wraps. split.
  - intros Hz.
    apply Z.mod_divide in Hz; [|lia]. destruct Hz as [k Hk]. lia.
  - intros ->. reflexivity.
Qed.

Lemma compute_divisor_zero_iff_witness :
  compute_divisor 21952 = 0 <-> 21952 = 21952.
Proof.
  apply (compute_divisor_zero_iff 21952). lia.
Defined.

(** ** The other queries of the lookup table *)

(** X3. On any table, ordered or not, a query that equals one of the positions
    gets the same answer from [getNearestDistance] as from
    [getDistanceForPosition]: the distance paired with the first position that
    equals it. *)
Theorem nearest_agrees_with_exact (t : lookup_table) (p : spec_float) (i : nat) :
  (i < LOOKUP_TABLE_SIZE t)%nat -> F32.eqb (position_at t i) p = true ->
  getNearestDistance t p = getDistanceForPosition t p
  /\ exists k, (k <= i)%nat /\ F32.eqb (position_at t k) p = true
               /\ (forall j, (j < k)%nat -> F32.eqb (position_at t j) p = false)
               /\ getDistanceForPosition t p = distance_at t k.
Proof.
  intros Hi He.
  destruct (first_index_found (fun i => F32.eqb (position_at t i) p)
              (LOOKUP_TABLE_SIZE t) 0 i ltac:(lia) He) as (k & E & Hk).
  unfold getNearestDistance, getDistanceForPosition.
  destruct (Nat.eqb_spec (LOOKUP_TABLE_SIZE t) 0) as [|_]; [lia|].
  rewrite E. split; [reflexivity|].
  apply first_index_some in E as (_ & Hm & Hfirst).
  exists k. repeat split; auto. intros j Hj. apply Hfirst. lia.
Qed.

Lemma nearest_agrees_with_exact_witness :
  getNearestDistance example_table (F32.lit 3025 100)
  = getDistanceForPosition example_table (F32.lit 3025 100).
Proof.
  apply (nearest_agrees_with_exact example_table (F32.lit 3025 100) 2).
  - apply Nat.ltb_lt. reflexivity.
  - vm_compute. reflexivity.
Defined.

(** X4. On a table whose positions are numbers and increase strictly, looking
    up a position of the table gives back the distance stored beside it, and a
    query that equals no position gives the sentinel -1. *)
Theorem getDistanceForPosition_stored (t : lookup_table) :
  table_ok t = true ->
  (forall i, (i < LOOKUP_TABLE_SIZE t)%nat ->
     getDistanceForPosition t (position_at t i) = distance_at t i)
  /\ (forall p, (forall i, (i < LOOKUP_TABLE_SIZE t)%nat ->
                   F32.eqb (position_at t i) p = false) ->
        getDistanceForPosition t p = not_found).
Proof.
  intros Hok. split.
  - intros i Hi.
    assert (F32.eqb (position_at t i) (position_at t i) = true) as He.
    { pose proof (position_number t Hok ltac:(lia) i Hi). float_order. }
    destruct (first_index_found (fun j => F32.eqb (position_at t j) (position_at t i))
                (LOOKUP_TABLE_SIZE t) 0 i ltac:(lia) He) as (k & E & Hk).
    unfold getDistanceForPosition. rewrite E.
    apply first_index_some in E as (_ & Hm & _).
    destruct (Nat.eq_dec k i) as [->|]; auto.
    pose proof (position_lt t Hok ltac:(lia) k i ltac:(lia)). exfalso. float_order.
  - intros p Hnone. unfold getDistanceForPosition.
    destruct (first_index _ 0 (LOOKUP_TABLE_SIZE t)) as [k|] eqn:E; [|reflexivity].
    apply first_index_some in E as (Hk & Hm & _).
    rewrite Hnone in Hm by lia. discriminate.
Qed.

Lemma getDistanceForPosition_stored_witness :
  getDistanceForPosition example_table (position_at example_table 3)
  = distance_at example_table 3.
Proof.
  destruct (getDistanceForPosition_stored example_table) as [Hstored _].
  - vm_compute. reflexivity.
  - apply (Hstored 3%nat). apply Nat.ltb_lt. reflexivity.
Defined.




(** ** The scan of the estimator *)

Lemma length_list_set {A : Type} (a : list A) : forall i v,
  length (list_set a i v) = length a.
Proof.
  induction a as [|x a IH]; intros [|i] v; cbn; auto.
Qed.

Lemma nth_error_list_set_same {A : Type} (a : list A) : forall i v,
  (i < length a)%nat -> nth_error (list_set a i v) i = Some v.
Proof.
  induction a as [|x a IH]; intros [|i] v H; cbn in *; try lia; auto.
  apply IH. lia.
Qed.

Lemma nth_error_list_set_other {A : Type} (a : list A) : forall i j v,
  i <> j -> nth_error (list_set a i v) j = nth_error a j.
Proof.
  induction a as [|x a IH]; intros [|i] [|j] v H; cbn; auto; try congruence.
Qed.

Section Scan.
Variable cfg : PrintDataConfig.
Variable data : list acc_int16_complex_t.
Variable d : Z.
Variable amp : nat -> Z.

Lemma scanning_initial : scanning cfg amp 0 initial_locals.
Proof.
  constructor; try reflexivity; intros j Hj; lia.
Qed.

Lemma scan_body_quiet (i : nat) (l : locals) :
  scanning cfg amp i l -> (i < 400)%nat -> sampled data d amp i -> above cfg amp i = false ->
  exists l', scan_body cfg data d i l = Ok (l', false) /\ scanning cfg amp (S i) l'.
Proof.
  intros Hl Hi (s & Hs & Ha) Hq. destruct Hl.
  unfold scan_body, array_get. rewrite Hs. cbn [outcome_bind].
  rewrite Ha. cbn [outcome_bind].
  unfold array_set.
  rewrite scanning_amplitudes0, scanning_distances0.
  replace (i <? 400)%nat with true by (symmetry; apply Nat.ltb_lt; exact Hi).
  cbn [outcome_bind]. unfold crosses.
  cbn [l_first_threshold_x]. rewrite scanning_x0.
  fold (above cfg amp i). rewrite Hq, andb_false_r.
  eexists. split; [reflexivity|].
  constructor; cbn [amplitudes distances first_threshold_index l_first_threshold_x
                      l_first_threshold_y first_below_threshold_x first_below_threshold_y
                      l_threshold_crossed l_max_amplitude]; auto.
  - rewrite length_list_set. assumption.
  - rewrite length_list_set. assumption.
  - cbn [running_max]. rewrite scanning_max0. reflexivity.
  - intros j Hj. destruct (Nat.eq_dec i j) as [<-|Hne].
    + apply nth_error_list_set_same. lia.
    + rewrite nth_error_list_set_other by assumption. apply scanning_seen_amplitude0. lia.
  - intros j Hj. destruct (Nat.eq_dec i j) as [<-|Hne].
    + apply nth_error_list_set_same. lia.
    + rewrite nth_error_list_set_other by assumption. apply scanning_seen_distance0. lia.
Qed.

Lemma scan_body_crossing (k : nat) (l : locals) :
  scanning cfg amp k l -> (0 < k < 400)%nat -> sampled data d amp k -> above cfg amp k = true ->
  exists l', scan_body cfg data d k l = Ok (l', true) /\ crossed cfg amp k l'.
Proof.
  intros Hl Hk (s & Hs & Ha) Hq. destruct Hl.
  unfold scan_body, array_get. rewrite Hs. cbn [outcome_bind].
  rewrite Ha. cbn [outcome_bind].
  unfold array_set.
  rewrite scanning_amplitudes0, scanning_distances0.
  replace (k <? 400)%nat with true by (symmetry; apply Nat.ltb_lt; lia).
  cbn [outcome_bind]. unfold crosses.
  cbn [l_first_threshold_x]. rewrite scanning_x0.
  fold (above cfg amp k). rewrite Hq.
  replace (F32.eqb F32.zero F32.zero) with true by reflexivity. cbn [andb].
  unfold record_crossing.
  replace (0 <? k)%nat with true by (symmetry; apply Nat.ltb_lt; lia).
  cbn [amplitudes distances]. unfold array_get.
  rewrite (nth_error_list_set_other _ k (k - 1)) by lia.
  rewrite (nth_error_list_set_other _ k (k - 1)) by lia.
  rewrite scanning_seen_distance0, scanning_seen_amplitude0 by lia.
  cbn [outcome_bind]. eexists. split; [reflexivity|].
  constructor; cbn [amplitudes distances first_threshold_index l_first_threshold_x
                      l_first_threshold_y first_below_threshold_x first_below_threshold_y
                      l_threshold_crossed l_max_amplitude]; auto.
  cbn [running_max]. rewrite scanning_max0. reflexivity.
Qed.

(** A run of quiet samples leaves the loop in its scanning state. *)
Lemma scan_loop_quiet : forall n i l,
  scanning cfg amp i l -> (i + n <= 400)%nat ->
  (forall j, (i <= j < i + n)%nat -> sampled data d amp j /\ above cfg amp j = false) ->
  exists l', scan_loop cfg data d i n l = Ok l' /\ scanning cfg amp (i + n) l'.
Proof.
  induction n as [|n IH]; intros i l Hl Hn Hq.
  - exists l. rewrite Nat.add_0_r. split; [reflexivity | assumption].
  - destruct (Hq i ltac:(lia)) as [Hs Ha].
    destruct (scan_body_quiet i l Hl ltac:(lia) Hs Ha) as (l1 & Hbody & Hl1).
    destruct (IH (S i) l1 Hl1 ltac:(lia)) as (l' & Hloop & Hl').
    { intros j Hj. apply Hq. lia. }
    exists l'. cbn [scan_loop]. rewrite Hbody. cbn [outcome_bind].
    rewrite Hloop. replace (i + S n)%nat with (S i + n)%nat by lia.
    split; [reflexivity | assumption].
Qed.

(** Quiet samples up to [k], then a sample above its threshold: the loop stops
    there, whatever the iterations left. *)
Lemma scan_loop_first_crossing : forall k i n l,
  scanning cfg amp i l -> (i <= k)%nat -> (0 < k < 400)%nat -> (k < i + n)%nat ->
  (forall j, (i <= j < k)%nat -> sampled data d amp j /\ above cfg amp j = false) ->
  sampled data d amp k -> above cfg amp k = true ->
  exists l', scan_loop cfg data d i n l = Ok l' /\ crossed cfg amp k l'.
Proof.
  intros k i n. revert i. induction n as [|n IH]; intros i l Hl Hik Hk Hn Hq Hs Ha; [lia|].
  cbn [scan_loop]. destruct (Nat.eq_dec i k) as [->|Hne].
  - destruct (scan_body_crossing k l Hl Hk Hs Ha) as (l' & Hbody & Hl').
    exists l'. rewrite Hbody. split; [reflexivity | assumption].
  - destruct (Hq i ltac:(lia)) as [Hsi Hai].
    destruct (scan_body_quiet i l Hl ltac:(lia) Hsi Hai) as (l1 & Hbody & Hl1).
    destruct (IH (S i) l1 Hl1 ltac:(lia) Hk ltac:(lia)) as (l' & Hloop & Hl'); auto.
    { intros j Hj. apply Hq. lia. }
    exists l'. rewrite Hbody. cbn [outcome_bind]. split; assumption.
Qed.
End Scan.

(** The report reads the crossing and the peak, not the arrays. *)
Lemma report_crossing_crossed (cfg : PrintDataConfig) (amp : nat -> Z) (k : nat)
    (tables : correction_tables) (d : Z) (proc_data : ProcessedData) (l l' : locals) :
  crossed cfg amp k l -> crossed cfg amp k l' ->
  report_crossing tables d l proc_data = report_crossing tables d l' proc_data.
Proof.
  intros Hl Hl'. unfold report_crossing, interpolate_crossing.
  rewrite (crossed_x _ _ _ _ Hl), (crossed_y _ _ _ _ Hl),
    (crossed_below_x _ _ _ _ Hl), (crossed_below_y _ _ _ _ Hl),
    (crossed_threshold _ _ _ _ Hl), (crossed_max _ _ _ _ Hl).
  rewrite (crossed_x _ _ _ _ Hl'), (crossed_y _ _ _ _ Hl'),
    (crossed_below_x _ _ _ _ Hl'), (crossed_below_y _ _ _ _ Hl'),
    (crossed_threshold _ _ _ _ Hl'), (crossed_max _ _ _ _ Hl').
  reflexivity.
Qed.

Lemma run_after_scan (tables : correction_tables) (data : list acc_int16_complex_t)
    (data_length : Z) (cfg : PrintDataConfig) (temp : Z) (proc_data : ProcessedData)
    (l : locals) :
  INT_MIN <= num_points cfg * sweeps_per_frame cfg <= INT_MAX ->
  data_length = num_points cfg * sweeps_per_frame cfg ->
  scan_loop cfg data (compute_divisor temp) 0 (Z.to_nat (num_points cfg)) initial_locals
    = Ok l ->
  run_simple_threshold_algo tables data data_length cfg temp proc_data
  = if negb (first_threshold_index l =? 0)
    then report_crossing tables (compute_divisor temp) l proc_data
    else Ok (0, proc_data).
Proof.
  intros Hrange Hlen Hscan. unfold run_simple_threshold_algo.
  rewrite (int_result_in_range _ Hrange). cbn [outcome_bind].
  rewrite Hlen, Z.eqb_refl, Hscan. reflexivity.
Qed.

(** X6. A frame of the right length with at most 400 range points, none of
    whose samples is above its threshold, returns 0 and leaves [*proc_data] as
    it was: no detection is reported as the value 0. *)
Theorem no_crossing_returns_zero (tables : correction_tables)
    (data : list acc_int16_complex_t) (data_length : Z) (cfg : PrintDataConfig)
    (temp : Z) (proc_data : ProcessedData) (amp : nat -> Z) :
  INT_MIN <= num_points cfg * sweeps_per_frame cfg <= INT_MAX ->
  data_length = num_points cfg * sweeps_per_frame cfg ->
  num_points cfg <= 400 ->
  (forall i, (i < Z.to_nat (num_points cfg))%nat ->
     sampled data (compute_divisor temp) amp i /\ above cfg amp i = false) ->
  run_simple_threshold_algo tables data data_length cfg temp proc_data = Ok (0, proc_data).
Proof.
  intros Hrange Hlen Hpoints Hquiet.
  destruct (scan_loop_quiet cfg data (compute_divisor temp) amp
              (Z.to_nat (num_points cfg)) 0 initial_locals
              (scanning_initial cfg amp) ltac:(lia)) as (l & Hscan & Hl).
  { intros j Hj. apply Hquiet. lia. }
  rewrite (run_after_scan _ _ _ _ _ _ l Hrange Hlen Hscan).
  rewrite (scanning_index _ _ _ _ Hl). reflexivity.
Qed.

Lemma no_crossing_returns_zero_witness :
  run_simple_threshold_algo Scenario.example_tables Scenario.silent_frame 2
    Scenario.falling_threshold 20 Scenario.no_data = Ok (0, Scenario.no_data).
Proof.
  apply (no_crossing_returns_zero Scenario.example_tables Scenario.silent_frame 2
           Scenario.falling_threshold 20 Scenario.no_data (fun _ => 0)).
  - vm_compute. split; discriminate.
  - reflexivity.
  - vm_compute. discriminate.
  - intros i Hi. split.
    + destruct i as [|[|i]].
      * eexists. split; reflexivity.
      * eexists. split; reflexivity.
      * exfalso. vm_compute in Hi. apply le_S_n, le_S_n in Hi. inversion Hi.
    + destruct i as [|[|i]].
      * vm_compute. reflexivity.
      * vm_compute. reflexivity.
      * exfalso. vm_compute in Hi. apply le_S_n, le_S_n in Hi. inversion Hi.
Defined.



(** C3 (amended). When the first crossing is recorded at an index [k > 0],
    line 443 divides by [y_cross - y_below] with no test.  With the two
    amplitudes equal as floats, the quotient and the selected distance
    computed from it are an infinity or a NaN, and the call goes on with that
    value through the correction and the casts: its result is the cast of the
    corrected distance, whatever the lookup table makes of the value that is
    not finite, and with no lookup table available the cast is applied to
    that value itself, which C leaves undefined. *)
Theorem interpolation_not_guarded (tables : correction_tables)
    (data : list acc_int16_complex_t) (data_length : Z) (cfg : PrintDataConfig)
    (temperature : Z) (proc_data : ProcessedData) (amp : nat -> Z) (k : nat) :
  INT_MIN <= num_points cfg * sweeps_per_frame cfg <= INT_MAX ->
  data_length = num_points cfg * sweeps_per_frame cfg ->
  (0 < k < 400)%nat -> Z.of_nat k < num_points cfg ->
  (forall i, (i < k)%nat ->
     sampled data (compute_divisor temperature) amp i /\ above cfg amp i = false) ->
  sampled data (compute_divisor temperature) amp k -> above cfg amp k = true ->
  F32.eqb (F32.of_int (amp k)) (F32.of_int (amp (k - 1)%nat)) = true ->
  let quotient :=
    F32.div (F32.sub (threshold_of cfg (distance_of cfg k)) (F32.of_int (amp (k - 1)%nat)))
            (F32.sub (F32.of_int (amp k)) (F32.of_int (amp (k - 1)%nat))) in
  let selected :=
    F32.add (distance_of cfg (k - 1))
      (F32.mul quotient (F32.sub (distance_of cfg k) (distance_of cfg (k - 1)))) in
  let corrected := apply_distance_correction tables (F32.mul selected (F32.of_int 1000)) in
  F32.is_finite quotient = false
  /\ F32.is_finite selected = false
  /\ run_simple_threshold_algo tables data data_length cfg temperature proc_data
     = (do distance <-
          F32.to_uint32 (F32.mul (F32.div corrected (F32.of_int 1000)) (F32.of_int 10000));
        do ftx <- F32.to_uint32 (F32.mul (distance_of cfg k) (F32.of_int 10000));
        do fty <- F32.to_uint32 (F32.of_int (amp k));
        do maxa <- F32.to_uint32 (running_max amp (S k));
        Ok (distance,
            {| divisor := to_uint16 (compute_divisor temperature);
               first_threshold_x := ftx;
               first_threshold_y := fty;
               max_amplitude := maxa;
               temp := temp proc_data;
               threshold_crossed := threshold_crossed proc_data;
               selected_distance := distance |}))%outcome
  /\ (lookup_tables_available tables = false ->
      run_simple_threshold_algo tables data data_length cfg temperature proc_data
      = Undefined).
Proof.
  intros Hrange Hlen Hk Hpoints Hquiet Hs Ha Heq quotient selected corrected.
  destruct (scan_loop_first_crossing cfg data (compute_divisor temperature) amp k 0
              (Z.to_nat (num_points cfg)) initial_locals
              (scanning_initial cfg amp) ltac:(lia) Hk ltac:(lia))
    as (l & Hscan & Hl); auto.
  { intros j Hj. apply Hquiet. lia. }
  assert (F32.is_finite quotient = false) as Hq
    by (apply div_by_equal_difference, Heq).
  assert (F32.is_finite selected = false) as Hsel
    by (apply add_not_finite, mul_not_finite, Hq).
  assert (run_simple_threshold_algo tables data data_length cfg temperature proc_data
          = report_crossing tables (compute_divisor temperature) l proc_data) as Hrun.
  { rewrite (run_after_scan _ _ _ _ _ _ l Hrange Hlen Hscan).
    rewrite (crossed_index _ _ _ _ Hl).
    destruct (Z.eqb_spec (Z.of_nat k) 0); [lia | reflexivity]. }
  assert (interpolate_crossing l = selected) as Hinterp.
  { unfold interpolate_crossing, selected, quotient. destruct Hl. congruence. }
  repeat apply conj.
  - exact Hq.
  - exact Hsel.
  - rewrite Hrun. unfold report_crossing. rewrite Hinterp. fold corrected.
    rewrite (crossed_x _ _ _ _ Hl), (crossed_y _ _ _ _ Hl), (crossed_max _ _ _ _ Hl).
    reflexivity.
  - intros Hno. rewrite Hrun. unfold report_crossing. rewrite Hinterp.
    unfold apply_distance_correction. rewrite Hno. cbn [negb].
    rewrite to_uint32_not_finite; [reflexivity|].
    apply mul_not_finite, div_not_finite, mul_not_finite, Hsel.
Qed.

Lemma interpolation_not_guarded_witness :
  run_simple_threshold_algo Scenario.no_tables Scenario.flat_frame 2
    Scenario.falling_threshold 20 Scenario.no_data = Undefined
  /\ run_simple_threshold_algo Scenario.example_tables Scenario.flat_frame 2
       Scenario.falling_threshold 20 Scenario.no_data
     = Ok (104, {| divisor := 1300; first_threshold_x := 10000;
                   first_threshold_y := 48; max_amplitude := 48; temp := 0;
                   threshold_crossed := 0; selected_distance := 104 |}).
Proof.
  split.
  - destruct (interpolation_not_guarded Scenario.no_tables Scenario.flat_frame 2
                Scenario.falling_threshold 20 Scenario.no_data (fun _ => 48) 1)
      as (_ & _ & _ & Hundefined).
    + vm_compute. split; discriminate.
    + reflexivity.
    + split; apply Nat.ltb_lt; reflexivity.
    + reflexivity.
    + intros i Hi. destruct i as [|i].
      * split; [eexists; split; reflexivity | vm_compute; reflexivity].
      * exfalso. apply le_S_n in Hi. inversion Hi.
    + eexists. split; reflexivity.
    + vm_compute. reflexivity.
    + vm_compute. reflexivity.
    + apply Hundefined. reflexivity.
  - destruct (interpolation_not_guarded Scenario.example_tables Scenario.flat_frame 2
                Scenario.falling_threshold 20 Scenario.no_data (fun _ => 48) 1)
      as (_ & _ & Hrun & _).
    + vm_compute. split; discriminate.
    + reflexivity.
    + split; apply Nat.ltb_lt; reflexivity.
    + reflexivity.
    + intros i Hi. destruct i as [|i].
      * split; [eexists; split; reflexivity | vm_compute; reflexivity].
      * exfalso. apply le_S_n in Hi. inversion Hi.
    + eexists. split; reflexivity.
    + vm_compute. reflexivity.
    + vm_compute. reflexivity.
    + rewrite Hrun. vm_compute. reflexivity.
Defined.

(** X8. The samples after the first crossing play no part: two frames that
    agree up to the first sample above its threshold (at an index [k > 0])
    give the same result, peak amplitude included, even if one of them is cut
    short after sample [k]. *)
Theorem samples_after_crossing_ignored (tables : correction_tables)
    (data data' : list acc_int16_complex_t) (data_length : Z) (cfg : PrintDataConfig)
    (temp : Z) (proc_data : ProcessedData) (amp : nat -> Z) (k : nat) :
  INT_MIN <= num_points cfg * sweeps_per_frame cfg <= INT_MAX ->
  data_length = num_points cfg * sweeps_per_frame cfg ->
  (0 < k < 400)%nat -> Z.of_nat k < num_points cfg ->
  (forall i, (i < k)%nat ->
     sampled data (compute_divisor temp) amp i /\ above cfg amp i = false) ->
  sampled data (compute_divisor temp) amp k -> above cfg amp k = true ->
  (forall i, (i <= k)%nat -> nth_error data' i = nth_error data i) ->
  run_simple_threshold_algo tables data' data_length cfg temp proc_data
  = run_simple_threshold_algo tables data data_length cfg temp proc_data.
Proof.
  intros Hrange Hlen Hk Hpoints Hquiet Hs Ha Hsame.
  assert (forall i, (i <= k)%nat -> sampled data (compute_divisor temp) amp i ->
            sampled data' (compute_divisor temp) amp i) as Hmove.
  { intros i Hi (s & E & A). exists s. rewrite Hsame by assumption. split; assumption. }
  destruct (scan_loop_first_crossing cfg data (compute_divisor temp) amp k 0
              (Z.to_nat (num_points cfg)) initial_locals
              (scanning_initial cfg amp) ltac:(lia) Hk ltac:(lia))
    as (l & Hscan & Hl); auto.
  { intros j Hj. apply Hquiet. lia. }
  destruct (scan_loop_first_crossing cfg data' (compute_divisor temp) amp k 0
              (Z.to_nat (num_points cfg)) initial_locals
              (scanning_initial cfg amp) ltac:(lia) Hk ltac:(lia))
    as (l' & Hscan' & Hl'); auto.
  { intros j Hj. destruct (Hquiet j ltac:(lia)) as [Hsj Haj].
    split; [apply Hmove; [lia | assumption] | assumption]. }
  rewrite (run_after_scan _ _ _ _ _ _ l Hrange Hlen Hscan).
  rewrite (run_after_scan _ _ _ _ _ _ l' Hrange Hlen Hscan').
  rewrite (crossed_index _ _ _ _ Hl), (crossed_index _ _ _ _ Hl').
  destruct (Z.eqb_spec (Z.of_nat k) 0); [lia|]. cbn [negb].
  apply (report_crossing_crossed cfg amp k); assumption.
Qed.

Lemma samples_after_crossing_ignored_witness :
  run_simple_threshold_algo Scenario.example_tables
    (Scenario.flat_frame ++ [ {| real := 30000; imag := 30000 |} ]) 3
    Scenario.three_points 20 Scenario.no_data
  = run_simple_threshold_algo Scenario.example_tables Scenario.flat_frame 3
      Scenario.three_points 20 Scenario.no_data.
Proof.
  apply (samples_after_crossing_ignored Scenario.example_tables Scenario.flat_frame
           (Scenario.flat_frame ++ [ {| real := 30000; imag := 30000 |} ]) 3
           Scenario.three_points 20 Scenario.no_data (fun _ => 48) 1).
  - vm_compute. split; discriminate.
  - reflexivity.
  - split; apply Nat.ltb_lt; reflexivity.
  - reflexivity.
  - intros i Hi. destruct i as [|i].
    + split; [eexists; split; reflexivity | vm_compute; reflexivity].
    + exfalso. apply le_S_n in Hi. inversion Hi.
  - eexists. split; reflexivity.
  - vm_compute. reflexivity.
  - intros i Hi. destruct i as [|[|i]]; try reflexivity.
    exfalso. apply le_S_n in Hi. inversion Hi.
Defined.

Lemma to_uint32_range (x : spec_float) (z : Z) :
  F32.to_uint32 x = Ok z -> 0 <= z < 2 ^ 32.
Proof.
  unfold F32.to_uint32. destruct (F32.trunc x) as [v|]; [|discriminate].
  destruct (Z.leb_spec 0 v), (Z.ltb_spec v (2 ^ 32)); cbn; try discriminate.
  intros E. injection E as <-. lia.
Qed.

Lemma compute_divisor_uint16 (temp : Z) : 0 <= compute_divisor temp < 2 ^ 16.
Proof.
  rewrite compute_divisor_wraps. change (2 ^ 16) with 65536.
  apply Z.mod_pos_bound. lia.
Qed.

(** X9. Whenever the function returns, either it returns 0 and [*proc_data] is
    untouched, or the fields it stores are [uint32_t] values with
    [selected_distance] equal to the value returned and [divisor] equal to the
    temperature divisor; the fields [temp] and [threshold_crossed] are never
    written. *)
Theorem run_simple_threshold_algo_outputs (tables : correction_tables)
    (data : list acc_int16_complex_t) (data_length : Z) (cfg : PrintDataConfig)
    (temperature : Z) (proc_data proc_data' : ProcessedData) (result : Z) :
  run_simple_threshold_algo tables data data_length cfg temperature proc_data
    = Ok (result, proc_data') ->
  temp proc_data' = temp proc_data
  /\ threshold_crossed proc_data' = threshold_crossed proc_data
  /\ 0 <= result < 2 ^ 32
  /\ ((result = 0 /\ proc_data' = proc_data)
      \/ (selected_distance proc_data' = result
          /\ divisor proc_data' = compute_divisor temperature
          /\ 0 <= first_threshold_x proc_data' < 2 ^ 32
          /\ 0 <= first_threshold_y proc_data' < 2 ^ 32
          /\ 0 <= max_amplitude proc_data' < 2 ^ 32)).
Proof.
  unfold run_simple_threshold_algo. intros H.
  destruct (int_result (num_points cfg * sweeps_per_frame cfg)) as [size|];
    cbn [outcome_bind] in H; [|discriminate].
  assert (Ok (0, proc_data) = Ok (result, proc_data') ->
          temp proc_data' = temp proc_data
          /\ threshold_crossed proc_data' = threshold_crossed proc_data
          /\ 0 <= result < 2 ^ 32
          /\ ((result = 0 /\ proc_data' = proc_data)
              \/ (selected_distance proc_data' = result
                  /\ divisor proc_data' = compute_divisor temperature
                  /\ 0 <= first_threshold_x proc_data' < 2 ^ 32
                  /\ 0 <= first_threshold_y proc_data' < 2 ^ 32
                  /\ 0 <= max_amplitude proc_data' < 2 ^ 32))) as Hzero.
  { intros E. injection E as <- <-. repeat split; try lia. left. split; reflexivity. }
  destruct (data_length =? size); [|apply Hzero, H].
  destruct (scan_loop _ _ _ _ _ _) as [l|]; cbn [outcome_bind] in H; [|discriminate].
  destruct (negb (first_threshold_index l =? 0)); [|apply Hzero, H].
  unfold report_crossing in H.
  destruct (F32.to_uint32 (F32.mul (F32.div _ _) _)) as [dist|] eqn:Ed;
    cbn [outcome_bind] in H; [|discriminate].
  destruct (F32.to_uint32 (F32.mul (l_first_threshold_x l) _)) as [ftx|] eqn:Ex;
    cbn [outcome_bind] in H; [|discriminate].
  destruct (F32.to_uint32 (l_first_threshold_y l)) as [fty|] eqn:Ey;
    cbn [outcome_bind] in H; [|discriminate].
  destruct (F32.to_uint32 (l_max_amplitude l)) as [maxa|] eqn:Em;
    cbn [outcome_bind] in H; [|discriminate].
  injection H as <- <-.
  cbn [temp threshold_crossed selected_distance divisor first_threshold_x
         first_threshold_y max_amplitude].
  apply to_uint32_range in Ed, Ex, Ey, Em.
  repeat split; try lia. right. repeat split; try lia.
  unfold to_uint16. apply Z.mod_small. apply compute_divisor_uint16.
Qed.

Lemma run_simple_threshold_algo_outputs_witness :
  let reported :=
    {| divisor := 1300; first_threshold_x := 10000; first_threshold_y := 48;
       max_amplitude := 48; temp := 0; threshold_crossed := 0;
       selected_distance := 104 |} in
  temp reported = temp Scenario.no_data
  /\ threshold_crossed reported = threshold_crossed Scenario.no_data
  /\ 0 <= 104 < 2 ^ 32
  /\ ((104 = 0 /\ reported = Scenario.no_data)
      \/ (selected_distance reported = 104
          /\ divisor reported = compute_divisor 20
          /\ 0 <= first_threshold_x reported < 2 ^ 32
          /\ 0 <= first_threshold_y reported < 2 ^ 32
          /\ 0 <= max_amplitude reported < 2 ^ 32)).
Proof.
  apply (run_simple_threshold_algo_outputs Scenario.example_tables Scenario.flat_frame 2
           Scenario.falling_threshold 20 Scenario.no_data).
  vm_compute. reflexivity.
Defined.

(** ** The CAN payloads *)

Lemma byte_of (x : Z) (k : Z) :
  0 <= k -> Z.land (Z.shiftr x k) 255 = (x / 2 ^ k) mod 256.
Proof.
  intros Hk. rewrite Z.shiftr_div_pow2 by assumption.
  change 255 with (Z.ones 8). rewrite Z.land_ones by lia. reflexivity.
Qed.

Lemma low_byte_of (x : Z) : Z.land x 255 = x mod 256.
Proof.
  change 255 with (Z.ones 8). rewrite Z.land_ones by lia. reflexivity.
Qed.

Lemma big_endian_4 (x : Z) :
  0 <= x < 2 ^ 32 ->
  big_endian [ Z.land (Z.shiftr x 24) 255; Z.land (Z.shiftr x 16) 255;
               Z.land (Z.shiftr x 8) 255; Z.land x 255 ] = x.
Proof.
  intros H. rewrite !byte_of, low_byte_of by lia. unfold big_endian. cbn [fold_left].
  change (2 ^ 32) with 4294967296 in H.
  change (2 ^ 24) with 16777216. change (2 ^ 16) with 65536. change (2 ^ 8) with 256.
  Z.div_mod_to_equations. lia.
Qed.

Lemma big_endian_2 (x : Z) :
  0 <= x < 2 ^ 16 ->
  big_endian [ Z.land (Z.shiftr x 8) 255; Z.land x 255 ] = x.
Proof.
  intros H. rewrite !byte_of, low_byte_of by lia. unfold big_endian. cbn [fold_left].
  change (2 ^ 16) with 65536 in H. change (2 ^ 8) with 256.
  Z.div_mod_to_equations. lia.
Qed.

Lemma byte_range (x k : Z) : 0 <= k -> 0 <= Z.land (Z.shiftr x k) 255 < 256.
Proof.
  intros Hk. rewrite byte_of by assumption. apply Z.mod_pos_bound. lia.
Qed.

Lemma low_byte_range (x : Z) : 0 <= Z.land x 255 < 256.
Proof.
  rewrite low_byte_of. apply Z.mod_pos_bound. lia.
Qed.

(** X10. Message 0x14 carries eight bytes.  The first four are the peak
    amplitude, most significant byte first; the last four are the crossing
    amplitude reduced modulo [2 ^ 16], so its bytes 4 and 5 are always zero
    and a crossing amplitude above 65535 is not sent whole. *)
Theorem amplitude_message_decodes (pd : Estimator.ProcessedData) :
  0 <= Estimator.max_amplitude pd < 2 ^ 32 ->
  length (amplitude_message pd) = 8%nat
  /\ Forall (fun b => 0 <= b < 256) (amplitude_message pd)
  /\ big_endian (firstn 4 (amplitude_message pd)) = Estimator.max_amplitude pd
  /\ big_endian (skipn 4 (amplitude_message pd))
     = Estimator.first_threshold_y pd mod 2 ^ 16
  /\ nth 4 (amplitude_message pd) 0 = 0
  /\ nth 5 (amplitude_message pd) 0 = 0.
Proof.
  intros Hmax. unfold amplitude_message.
  set (y := to_uint16 (Estimator.first_threshold_y pd)).
  assert (0 <= y < 65536) as Hy by (apply Z.mod_pos_bound; lia).
  replace (to_uint32 (Estimator.max_amplitude pd)) with (Estimator.max_amplitude pd)
    by (symmetry; apply Z.mod_small; assumption).
  repeat apply conj.
  - reflexivity.
  - repeat constructor; try apply byte_range; try apply low_byte_range; lia.
  - cbn [firstn]. apply big_endian_4. assumption.
  - cbn [skipn]. change (Estimator.first_threshold_y pd mod 2 ^ 16) with y.
    apply (big_endian_4 y). change (2 ^ 32) with 4294967296. lia.
  - cbn [nth]. rewrite byte_of by lia. rewrite Z.div_small; [reflexivity|].
    change (2 ^ 24) with 16777216. lia.
  - cbn [nth]. rewrite byte_of by lia. rewrite Z.div_small; [reflexivity|].
    change (2 ^ 16) with 65536. lia.
Qed.

Lemma amplitude_message_decodes_witness :
  big_endian (firstn 4 (amplitude_message
     {| Estimator.divisor := 1300; Estimator.first_threshold_x := 10000;
        Estimator.first_threshold_y := 70000; Estimator.max_amplitude := 70000;
        Estimator.temp := 0; Estimator.threshold_crossed := 0;
        Estimator.selected_distance := 104 |})) = 70000
  /\ big_endian (skipn 4 (amplitude_message
     {| Estimator.divisor := 1300; Estimator.first_threshold_x := 10000;
        Estimator.first_threshold_y := 70000; Estimator.max_amplitude := 70000;
        Estimator.temp := 0; Estimator.threshold_crossed := 0;
        Estimator.selected_distance := 104 |})) = 70000 mod 2 ^ 16.
Proof.
  destruct (amplitude_message_decodes
     {| Estimator.divisor := 1300; Estimator.first_threshold_x := 10000;
        Estimator.first_threshold_y := 70000; Estimator.max_amplitude := 70000;
        Estimator.temp := 0; Estimator.threshold_crossed := 0;
        Estimator.selected_distance := 104 |}) as (_ & _ & Hmax & Hy & _).
  - cbn. lia.
  - split; [exact Hmax | exact Hy].
Defined.

(** X11. Message 0x13 carries eight bytes: the averaged distance in the first
    four, the divisor (modulo [2 ^ 16]) in the next two and the temperature
    (modulo [2 ^ 16], so in two's complement below zero) in the last two, each
    most significant byte first. *)
Theorem distance_message_decodes (avg : Z) (pd : Estimator.ProcessedData)
    (temperature : Z) :
  0 <= avg < 2 ^ 32 ->
  length (distance_message avg pd temperature) = 8%nat
  /\ Forall (fun b => 0 <= b < 256) (distance_message avg pd temperature)
  /\ big_endian (firstn 4 (distance_message avg pd temperature)) = avg
  /\ big_endian (firstn 2 (skipn 4 (distance_message avg pd temperature)))
     = Estimator.divisor pd mod 2 ^ 16
  /\ big_endian (skipn 6 (distance_message avg pd temperature))
     = temperature mod 2 ^ 16.
Proof.
  intros Havg. unfold distance_message.
  set (t := to_uint16 temperature). set (dv := to_uint16 (Estimator.divisor pd)).
  assert (0 <= t < 2 ^ 16) as Ht by (apply Z.mod_pos_bound; lia).
  assert (0 <= dv < 2 ^ 16) as Hd by (apply Z.mod_pos_bound; lia).
  repeat apply conj.
  - reflexivity.
  - repeat constructor; try apply byte_range; try apply low_byte_range; lia.
  - cbn [firstn]. apply big_endian_4. assumption.
  - cbn [firstn skipn]. change (Estimator.divisor pd mod 2 ^ 16) with dv.
    apply (big_endian_2 dv). assumption.
  - cbn [skipn]. change (temperature mod 2 ^ 16) with t.
    apply (big_endian_2 t). assumption.
Qed.

Lemma distance_message_decodes_witness :
  big_endian (firstn 4 (distance_message 104 Scenario.no_data (-5))) = 104
  /\ big_endian (skipn 6 (distance_message 104 Scenario.no_data (-5))) = (-5) mod 2 ^ 16.
Proof.
  destruct (distance_message_decodes 104 Scenario.no_data (-5))
    as (_ & _ & Havg & _ & Htemp).
  - cbn. lia.
  - split; [exact Havg | exact Htemp].
Defined.

(** ** The other paths of calibration and preparation *)

Section LifecyclePaths.
Import Lifecycle ITreeNotations.
Local Open Scope itree_scope.

Variable s : sensor.

(** A calibration call that is complete ends the inner loop with success. *)
Lemma calibrate_until_complete_done (log : list call) :
  calibrate_reply s log = (true, true) ->
  interp_state (handle s) calibrate_until_complete log
  ≈ Ret (log ++ [Calibrate], true).
Proof.
  intros H. unfold calibrate_until_complete.
  rewrite unfold_iter. cbn.
  rewrite bind_bind, interp_state_bind, interp_state_trigger. cbn.
  rewrite bind_ret_l. cbn. rewrite H. cbn.
  rewrite bind_ret_l. cbn. rewrite bind_ret_l, interp_state_ret. reflexivity.
Qed.

(** A wait that times out ends the inner loop with failure. *)
Lemma calibrate_until_complete_timeout (log : list call) :
  calibrate_reply s log = (true, false) ->
  interrupt_reply s (log ++ [Calibrate]) = false ->
  interp_state (handle s) calibrate_until_complete log
  ≈ Ret (log ++ [Calibrate] ++ [WaitInterrupt], false).
Proof.
  intros Hc Hw. unfold calibrate_until_complete.
  rewrite unfold_iter. cbn.
  rewrite bind_bind, interp_state_bind, interp_state_trigger. cbn.
  rewrite bind_ret_l. cbn. rewrite Hc. cbn.
  rewrite bind_bind, interp_state_bind, interp_state_trigger. cbn.
  rewrite bind_ret_l. cbn. rewrite Hw. cbn.
  rewrite bind_ret_l, interp_state_ret. rewrite <- app_assoc. reflexivity.
Qed.

(** A call that is not complete, followed by a wait that succeeds, goes round
    the inner loop once more. *)
Lemma calibrate_until_complete_round (log : list call) :
  calibrate_reply s log = (true, false) ->
  interrupt_reply s (log ++ [Calibrate]) = true ->
  interp_state (handle s) calibrate_until_complete log
  ≈ interp_state (handle s) calibrate_until_complete (log ++ [Calibrate; WaitInterrupt]).
Proof.
  intros Hc Hw. unfold calibrate_until_complete at 1.
  rewrite unfold_iter. cbn.
  rewrite bind_bind, interp_state_bind, interp_state_trigger. cbn.
  rewrite bind_ret_l. cbn. rewrite Hc. cbn.
  rewrite bind_bind, interp_state_bind, interp_state_trigger. cbn.
  rewrite bind_ret_l. cbn. rewrite Hw. cbn.
  rewrite bind_ret_l. rewrite interp_state_tau, tau_eutt.
  rewrite <- app_assoc. reflexivity.
Qed.

Lemma calibrate_until_complete_waits (k : nat) : forall log,
  (forall j, (j < k)%nat ->
     calibrate_reply s (log ++ waits j) = (true, false)
     /\ interrupt_reply s (log ++ waits j ++ [Calibrate]) = true) ->
  interp_state (handle s) calibrate_until_complete log
  ≈ interp_state (handle s) calibrate_until_complete (log ++ waits k).
Proof.
  induction k as [|k IH]; intros log H.
  - cbn. rewrite app_nil_r. reflexivity.
  - rewrite IH by (intros j Hj; apply H; lia).
    destruct (H k ltac:(lia)) as [Hc Hw].
    rewrite calibrate_until_complete_round.
    + cbn [waits]. rewrite app_assoc. reflexivity.
    + exact Hc.
    + rewrite <- app_assoc. exact Hw.
Qed.

(** One pass of the retry loop, given what its inner loop does. *)
Lemma attempt (log log' : list call) (status : bool) (i : nat)
    (k : bool * nat + bool -> itree sensorE bool) :
  interp_state (handle s) calibrate_until_complete (log ++ [Disable] ++ [Enable])
    ≈ Ret (log', status) ->
  interp_state (handle s)
    (r <- (ITree.trigger acc_hal_integration_sensor_disable ;;
           ITree.trigger acc_hal_integration_sensor_enable ;;
           status <- calibrate_until_complete ;;
           Ret (inl (status, S i))) ;; k r) log
  ≈ interp_state (handle s) (k (inl (status, S i))) log'.
Proof.
  intros H.
  rewrite bind_bind, interp_state_bind, interp_state_trigger. cbn.
  rewrite bind_ret_l. cbn.
  rewrite bind_bind, interp_state_bind, interp_state_trigger. cbn.
  rewrite bind_ret_l. cbn.
  rewrite bind_bind, interp_state_bind.
  rewrite <- app_assoc, H.
  rewrite bind_ret_l. cbn. rewrite bind_ret_l. cbn. reflexivity.
Qed.

(** After a successful calibration: the power cycle and the prepare call. *)
Lemma prepare_after_calibration (log : list call) :
  interp_state (handle s)
    (ITree.trigger acc_hal_integration_sensor_disable ;;
     ITree.trigger acc_hal_integration_sensor_enable ;;
     ITree.trigger acc_sensor_prepare) log
  ≈ Ret (log ++ [Disable; Enable; Prepare],
         prepare_reply s (log ++ [Disable; Enable])).
Proof.
  rewrite interp_state_bind, interp_state_trigger. cbn. rewrite bind_ret_l. cbn.
  rewrite interp_state_bind, interp_state_trigger. cbn. rewrite bind_ret_l. cbn.
  rewrite interp_state_trigger. cbn. rewrite <- !app_assoc. reflexivity.
Qed.
End LifecyclePaths.

(** X12. When the first calibration completes after [k] rounds of "not
    complete yet, wait for the interrupt", the routine makes one power cycle,
    [k + 1] calibration calls and [k] waits, then a second power cycle and the
    prepare call, and returns what prepare returns: success needs prepare to
    succeed, not calibration alone. *)
Theorem calibration_completes_after_waits (s : Lifecycle.sensor) (k : nat) :
  (forall j, (j < k)%nat ->
     Lifecycle.calibrate_reply s
       ([Lifecycle.Disable; Lifecycle.Enable] ++ Lifecycle.waits j) = (true, false)
     /\ Lifecycle.interrupt_reply s
          ([Lifecycle.Disable; Lifecycle.Enable] ++ Lifecycle.waits j
             ++ [Lifecycle.Calibrate]) = true) ->
  Lifecycle.calibrate_reply s
    ([Lifecycle.Disable; Lifecycle.Enable] ++ Lifecycle.waits k) = (true, true) ->
  (Lifecycle.run s
   ≈ Ret ([Lifecycle.Disable; Lifecycle.Enable] ++ Lifecycle.waits k
            ++ [Lifecycle.Calibrate; Lifecycle.Disable; Lifecycle.Enable;
                Lifecycle.Prepare],
          Lifecycle.prepare_reply s
            ([Lifecycle.Disable; Lifecycle.Enable] ++ Lifecycle.waits k
               ++ [Lifecycle.Calibrate; Lifecycle.Disable; Lifecycle.Enable])))%itree.
Proof.
  intros Hwaits Hdone.
  unfold Lifecycle.run, Lifecycle.do_sensor_calibration_and_prepare,
    Lifecycle.calibration_attempts.
  rewrite interp_state_bind.
  rewrite unfold_iter. cbn.
  rewrite (attempt s [] (([Lifecycle.Disable; Lifecycle.Enable] ++ Lifecycle.waits k)
                           ++ [Lifecycle.Calibrate]) true).
  2:{ cbn [app]. rewrite (calibrate_until_complete_waits s k) by exact Hwaits.
      apply calibrate_until_complete_done. exact Hdone. }
  cbn. rewrite interp_state_tau, tau_eutt.
  rewrite unfold_iter. cbn.
  rewrite bind_ret_l, interp_state_ret, bind_ret_l. cbn.
  rewrite prepare_after_calibration.
  cbn [app]. rewrite <- !app_assoc. cbn [app]. reflexivity.
Qed.

Lemma calibration_completes_after_waits_witness :
  (Lifecycle.run Scenario.slow_sensor
   ≈ Ret ([Lifecycle.Disable; Lifecycle.Enable] ++ Lifecycle.waits 2
            ++ [Lifecycle.Calibrate; Lifecycle.Disable; Lifecycle.Enable;
                Lifecycle.Prepare],
          Lifecycle.prepare_reply Scenario.slow_sensor
            ([Lifecycle.Disable; Lifecycle.Enable] ++ Lifecycle.waits 2
               ++ [Lifecycle.Calibrate; Lifecycle.Disable; Lifecycle.Enable])))%itree.
Proof.
  apply (calibration_completes_after_waits Scenario.slow_sensor 2).
  - intros j Hj. destruct j as [|[|j]].
    + split; reflexivity.
    + split; reflexivity.
    + exfalso. apply le_S_n, le_S_n in Hj. inversion Hj.
  - reflexivity.
Defined.

(** X13. When the first calibration call fails and the call of the second
    attempt completes, the routine power-cycles the sensor before each of the
    two calls and once more before the prepare call, and returns what prepare
    returns. *)
Theorem calibration_retry_succeeds (s : Lifecycle.sensor) :
  fst (Lifecycle.calibrate_reply s [Lifecycle.Disable; Lifecycle.Enable]) = false ->
  Lifecycle.calibrate_reply s
    [Lifecycle.Disable; Lifecycle.Enable; Lifecycle.Calibrate;
     Lifecycle.Disable; Lifecycle.Enable] = (true, true) ->
  (Lifecycle.run s
   ≈ Ret ([Lifecycle.Disable; Lifecycle.Enable; Lifecycle.Calibrate;
           Lifecycle.Disable; Lifecycle.Enable; Lifecycle.Calibrate;
           Lifecycle.Disable; Lifecycle.Enable; Lifecycle.Prepare],
          Lifecycle.prepare_reply s
            [Lifecycle.Disable; Lifecycle.Enable; Lifecycle.Calibrate;
             Lifecycle.Disable; Lifecycle.Enable; Lifecycle.Calibrate;
             Lifecycle.Disable; Lifecycle.Enable]))%itree.
Proof.
  intros Hfail Hdone.
  unfold Lifecycle.run, Lifecycle.do_sensor_calibration_and_prepare,
    Lifecycle.calibration_attempts.
  rewrite interp_state_bind.
  rewrite unfold_iter. cbn.
  rewrite (attempt s [] [Lifecycle.Disable; Lifecycle.Enable; Lifecycle.Calibrate] false).
  2:{ apply (calibrate_until_complete_fails s [Lifecycle.Disable; Lifecycle.Enable]).
      exact Hfail. }
  cbn. rewrite interp_state_tau, tau_eutt.
  rewrite unfold_iter. cbn.
  rewrite (attempt s _ [Lifecycle.Disable; Lifecycle.Enable; Lifecycle.Calibrate;
                        Lifecycle.Disable; Lifecycle.Enable; Lifecycle.Calibrate] true).
  2:{ apply (calibrate_until_complete_done s
               [Lifecycle.Disable; Lifecycle.Enable; Lifecycle.Calibrate;
                Lifecycle.Disable; Lifecycle.Enable]).
      exact Hdone. }
  cbn. rewrite interp_state_tau, tau_eutt.
  rewrite unfold_iter. cbn.
  rewrite bind_ret_l, interp_state_ret, bind_ret_l. cbn.
  rewrite prepare_after_calibration. reflexivity.
Qed.

Lemma calibration_retry_succeeds_witness :
  (Lifecycle.run Scenario.flaky_sensor
   ≈ Ret ([Lifecycle.Disable; Lifecycle.Enable; Lifecycle.Calibrate;
           Lifecycle.Disable; Lifecycle.Enable; Lifecycle.Calibrate;
           Lifecycle.Disable; Lifecycle.Enable; Lifecycle.Prepare],
          Lifecycle.prepare_reply Scenario.flaky_sensor
            [Lifecycle.Disable; Lifecycle.Enable; Lifecycle.Calibrate;
             Lifecycle.Disable; Lifecycle.Enable; Lifecycle.Calibrate;
             Lifecycle.Disable; Lifecycle.Enable]))%itree.
Proof.
  apply (calibration_retry_succeeds Scenario.flaky_sensor); reflexivity.
Defined.

(** X14. A wait for the sensor interrupt that times out counts as a failed
    attempt: when both calibration calls are accepted but not complete and
    both waits time out, the routine stops after the second wait, returns
    failure and does not call prepare. *)
Theorem interrupt_timeouts_fail (s : Lifecycle.sensor) :
  (forall log, Lifecycle.calibrate_reply s log = (true, false)) ->
  (forall log, Lifecycle.interrupt_reply s log = false) ->
  (Lifecycle.run s
   ≈ Ret ([Lifecycle.Disable; Lifecycle.Enable; Lifecycle.Calibrate;
           Lifecycle.WaitInterrupt;
           Lifecycle.Disable; Lifecycle.Enable; Lifecycle.Calibrate;
           Lifecycle.WaitInterrupt], false))%itree.
Proof.
  intros Hcal Hwait.
  unfold Lifecycle.run, Lifecycle.do_sensor_calibration_and_prepare,
    Lifecycle.calibration_attempts.
  rewrite interp_state_bind.
  rewrite unfold_iter. cbn.
  rewrite (attempt s [] [Lifecycle.Disable; Lifecycle.Enable; Lifecycle.Calibrate;
                         Lifecycle.WaitInterrupt] false).
  2:{ apply (calibrate_until_complete_timeout s [Lifecycle.Disable; Lifecycle.Enable]);
        [apply Hcal | apply Hwait]. }
  cbn. rewrite interp_state_tau, tau_eutt.
  rewrite unfold_iter. cbn.
  rewrite (attempt s _ [Lifecycle.Disable; Lifecycle.Enable; Lifecycle.Calibrate;
                        Lifecycle.WaitInterrupt;
                        Lifecycle.Disable; Lifecycle.Enable; Lifecycle.Calibrate;
                        Lifecycle.WaitInterrupt] false).
  2:{ apply (calibrate_until_complete_timeout s
               [Lifecycle.Disable; Lifecycle.Enable; Lifecycle.Calibrate;
                Lifecycle.WaitInterrupt; Lifecycle.Disable; Lifecycle.Enable]);
        [apply Hcal | apply Hwait]. }
  cbn. rewrite interp_state_tau, tau_eutt.
  rewrite unfold_iter. cbn.
  rewrite bind_ret_l, interp_state_ret, bind_ret_l. cbn.
  rewrite interp_state_ret. reflexivity.
Qed.

Lemma interrupt_timeouts_fail_witness :
  (Lifecycle.run Scenario.mute_sensor
   ≈ Ret ([Lifecycle.Disable; Lifecycle.Enable; Lifecycle.Calibrate;
           Lifecycle.WaitInterrupt;
           Lifecycle.Disable; Lifecycle.Enable; Lifecycle.Calibrate;
           Lifecycle.WaitInterrupt], false))%itree.
Proof.
  apply (interrupt_timeouts_fail Scenario.mute_sensor); intros log; reflexivity.
Defined.

Section Divergence.
Import Lifecycle ITreeNotations.
Local Open Scope itree_scope.

Lemma bind_spin {E : Type -> Type} {A B : Type} (k : A -> itree E B) :
  ITree.bind (ITree.spin : itree E A) k ≈ ITree.spin.
Proof.
  einit. ecofix CIH.
  rewrite (itree_eta (ITree.spin : itree E A)), (itree_eta (ITree.spin : itree E B)). cbn.
  rewrite bind_tau. etau.
Qed.

Variable s : sensor.
Hypothesis Hcal : forall log, calibrate_reply s log = (true, false).
Hypothesis Hwait : forall log, interrupt_reply s log = true.

(** One round of the inner loop, silent steps kept. *)
Lemma calibrate_until_complete_round_strong (log : list call) :
  interp_state (handle s) calibrate_until_complete log
  ≅ Tau (Tau (Tau (interp_state (handle s) calibrate_until_complete
                     (log ++ [Calibrate; WaitInterrupt])))).
Proof.
  unfold calibrate_until_complete at 1.
  rewrite unfold_iter. cbn.
  rewrite bind_bind, interp_state_bind, interp_state_trigger_eqit. cbn.
  rewrite bind_ret_l, bind_tau, bind_ret_l. cbn. rewrite Hcal. cbn.
  rewrite bind_bind, interp_state_bind, interp_state_trigger_eqit. cbn.
  rewrite bind_ret_l, bind_tau, bind_ret_l. cbn. rewrite Hwait. cbn.
  rewrite bind_ret_l. rewrite interp_state_tau.
  rewrite <- app_assoc. reflexivity.
Qed.

Lemma calibrate_until_complete_diverges : forall log,
  interp_state (handle s) calibrate_until_complete log ≈ ITree.spin.
Proof.
  einit. ecofix CIH. intros log.
  rewrite calibrate_until_complete_round_strong.
  rewrite (itree_eta ITree.spin). cbn.
  etau. rewrite !tau_euttge. ebase.
Qed.
End Divergence.

(** X15. The inner loop has no bound of its own: against a sensor that accepts
    every calibration call without ever completing, and whose interrupt always
    arrives, the routine never returns. *)
Theorem calibration_never_completing_diverges (s : Lifecycle.sensor) :
  (forall log, Lifecycle.calibrate_reply s log = (true, false)) ->
  (forall log, Lifecycle.interrupt_reply s log = true) ->
  (Lifecycle.run s ≈ ITree.spin)%itree.
Proof.
  intros Hcal Hwait.
  unfold Lifecycle.run, Lifecycle.do_sensor_calibration_and_prepare,
    Lifecycle.calibration_attempts.
  rewrite interp_state_bind.
  rewrite unfold_iter. cbn.
  rewrite bind_bind, interp_state_bind, interp_state_trigger. cbn.
  rewrite bind_ret_l. cbn.
  rewrite bind_bind, interp_state_bind, interp_state_trigger. cbn.
  rewrite bind_ret_l. cbn.
  rewrite bind_bind, interp_state_bind.
  rewrite (calibrate_until_complete_diverges s Hcal Hwait).
  rewrite !bind_spin. reflexivity.
Qed.

Lemma calibration_never_completing_diverges_witness :
  (Lifecycle.run Scenario.stuck_sensor ≈ ITree.spin)%itree.
Proof.
  apply (calibration_never_completing_diverges Scenario.stuck_sensor);
    intros log; reflexivity.
Defined.

(** ** Integers through [float] *)

Lemma pow2_double (D : Z) : 0 < D -> 2 ^ D = 2 * 2 ^ (D - 1).
Proof.
  intros H. replace D with (Z.succ (D - 1)) at 1 by lia. apply Z.pow_succ_r. lia.
Qed.

Lemma digits2_bounds (m : positive) :
  2 ^ (Zpos (digits2_pos m) - 1) <= Zpos m < 2 ^ Zpos (digits2_pos m).
Proof.
  induction m as [m IH|m IH|]; cbn [digits2_pos]; [| |cbn; lia].
  - rewrite Pos2Z.inj_succ, (Pos2Z.inj_xI m).
    replace (Z.succ (Zpos (digits2_pos m)) - 1) with (Zpos (digits2_pos m)) by lia.
    rewrite Z.pow_succ_r by lia.
    pose proof (pow2_double (Zpos (digits2_pos m)) ltac:(lia)) as E.
    revert IH E. generalize (2 ^ (Zpos (digits2_pos m) - 1)) (2 ^ Zpos (digits2_pos m)).
    intros. lia.
  - rewrite Pos2Z.inj_succ, (Pos2Z.inj_xO m).
    replace (Z.succ (Zpos (digits2_pos m)) - 1) with (Zpos (digits2_pos m)) by lia.
    rewrite Z.pow_succ_r by lia.
    pose proof (pow2_double (Zpos (digits2_pos m)) ltac:(lia)) as E.
    revert IH E. generalize (2 ^ (Zpos (digits2_pos m) - 1)) (2 ^ Zpos (digits2_pos m)).
    intros; lia.
Qed.

Lemma digits2_iter_xO (d m : positive) :
  digits2_pos (Pos.iter xO m d) = (digits2_pos m + d)%positive.
Proof.
  revert m. induction d as [|d IH] using Pos.peano_ind; intros m.
  - cbn. lia.
  - rewrite Pos.iter_succ. cbn [digits2_pos]. rewrite IH. lia.
Qed.

Lemma iter_xO_value (d m : positive) :
  Zpos (Pos.iter xO m d) = Zpos m * 2 ^ Zpos d.
Proof.
  revert m. induction d as [|d IH] using Pos.peano_ind; intros m.
  - cbn. lia.
  - rewrite Pos.iter_succ, Pos2Z.inj_succ, Z.pow_succ_r by lia.
    rewrite Pos2Z.inj_xO, IH. lia.
Qed.

Lemma round_aux_canonical (m : positive) (e : Z) :
  Zpos (digits2_pos m) = 24 -> -149 <= e <= 104 ->
  binary_round_aux F32.prec F32.emax false (Zpos m) e loc_Exact = S754_finite false m e.
Proof.
  intros Hd He. unfold binary_round_aux, shr_fexp.
  cbn [Zdigits2 shr_record_of_loc]. rewrite Hd.
  replace (fexp F32.prec F32.emax (24 + e) - e) with 0.
  2:{ unfold fexp, emin, F32.prec, F32.emax. lia. }
  cbn [shr shr_m loc_of_shr_record round_nearest_even Zdigits2 shr_record_of_loc].
  rewrite Hd.
  replace (fexp F32.prec F32.emax (24 + e) - e) with 0.
  2:{ unfold fexp, emin, F32.prec, F32.emax. lia. }
  cbn [shr shr_m].
  replace (e <=? F32.emax - F32.prec) with true; [reflexivity|].
  symmetry. apply Z.leb_le. unfold F32.emax, F32.prec. lia.
Qed.

Lemma of_int_exact (z : Z) :
  0 <= z < 2 ^ 24 -> F32.trunc (F32.of_int z) = Some z.
Proof.
  intros Hz. destruct z as [|m|m]; [reflexivity| |lia].
  unfold F32.of_int, binary_normalize, binary_round.
  pose proof (digits2_bounds m) as Hb.
  assert (Zpos (digits2_pos m) <= 24) as Hd.
  { destruct (Z.le_gt_cases (Zpos (digits2_pos m)) 24) as [|Hgt]; [assumption|].
    assert (2 ^ 24 <= 2 ^ (Zpos (digits2_pos m) - 1)) by (apply Z.pow_le_mono_r; lia).
    lia. }
  replace (fexp F32.prec F32.emax (Zpos (digits2_pos m) + 0))
    with (Zpos (digits2_pos m) - 24)
    by (unfold fexp, emin, F32.prec, F32.emax; lia).
  unfold shl_align.
  destruct (Zpos (digits2_pos m) - 24 - 0) as [|d|d] eqn:Ed; try lia.
  - rewrite round_aux_canonical by lia.
    cbn [F32.trunc]. replace (0 <=? 0) with true by reflexivity.
    replace (Zpos (digits2_pos m) - 24) with 0 by lia.
    cbn. reflexivity.
  - rewrite round_aux_canonical.
    + cbn [F32.trunc].
      replace (0 <=? Zpos (digits2_pos m) - 24) with false by (symmetry; apply Z.leb_gt; lia).
      rewrite iter_xO_value. rewrite Z.shiftr_div_pow2 by lia.
      replace (- (Zpos (digits2_pos m) - 24)) with (Zpos d) by lia.
      rewrite Z.div_mul; [reflexivity|]. apply Z.pow_nonzero; lia.
    + rewrite digits2_iter_xO. lia.
    + lia.
Qed.

Lemma to_uint32_of_int (z : Z) :
  0 <= z < 2 ^ 24 -> F32.to_uint32 (F32.of_int z) = Ok z.
Proof.
  intros Hz. unfold F32.to_uint32. rewrite of_int_exact by assumption.
  replace ((0 <=? z) && (z <? 2 ^ 32)) with true; [reflexivity|].
  symmetry. apply andb_true_intro. split; [apply Z.leb_le | apply Z.ltb_lt].
  - lia.
  - change (2 ^ 24) with 16777216 in Hz. change (2 ^ 32) with 4294967296. lia.
Qed.

(** X16. With no averaging configured ([avg_type] neither 1 nor 2), the value
    the loop sends on after a frame is the estimator's return value itself,
    whenever that value is below [2 ^ 24]: the passage through the [float]
    variable [distance] loses nothing there. *)
Theorem passthrough_sends_estimate (tables : correction_tables)
    (cfg : Estimator.PrintDataConfig) (frame : list Estimator.acc_int16_complex_t)
    (frame_data_length temperature : Z) (st : loop_state)
    (estimate : Z) (pd : Estimator.ProcessedData)
    (getAverage : FIFOBuffer spec_float -> Z)
    (computeWeightedAvg : FIFOBuffer spec_float -> Z -> Z -> Z) :
  Estimator.algo cfg = 1 ->
  Estimator.avg_type cfg <> 1 -> Estimator.avg_type cfg <> 2 ->
  Estimator.run_simple_threshold_algo tables frame frame_data_length cfg
    (to_uint16 temperature) (proc_data st) = Ok (estimate, pd) ->
  0 <= estimate < 2 ^ 24 ->
  exists st',
    frame_cycle tables cfg frame frame_data_length temperature st = Ok st'
    /\ avg_distance getAverage computeWeightedAvg cfg st' = Ok estimate
    /\ proc_data st' = pd.
Proof.
  intros Halgo Hnot1 Hnot2 Hrun Hrange.
  unfold frame_cycle. rewrite Halgo, Z.eqb_refl, Hrun. cbn [outcome_bind fst snd].
  eexists. split; [reflexivity|]. split; [|reflexivity].
  unfold avg_distance.
  destruct (Z.eqb_spec (Estimator.avg_type cfg) 1); [contradiction|].
  destruct (Z.eqb_spec (Estimator.avg_type cfg) 2); [contradiction|].
  cbn [distance]. apply to_uint32_of_int. assumption.
Qed.

Lemma passthrough_sends_estimate_witness :
  exists st',
    frame_cycle Scenario.example_tables Scenario.falling_threshold
      Scenario.flat_frame 2 20 Scenario.warm_state = Ok st'
    /\ avg_distance (fun _ => 0) (fun _ _ _ => 0) Scenario.falling_threshold st' = Ok 104.
Proof.
  destruct (passthrough_sends_estimate Scenario.example_tables Scenario.falling_threshold
              Scenario.flat_frame 2 20 Scenario.warm_state 104
              {| Estimator.divisor := 1300; Estimator.first_threshold_x := 10000;
                 Estimator.first_threshold_y := 48; Estimator.max_amplitude := 48;
                 Estimator.temp := 0; Estimator.threshold_crossed := 0;
                 Estimator.selected_distance := 104 |}
              (fun _ => 0) (fun _ _ _ => 0)) as (st' & Hcycle & Havg & _).
  - reflexivity.
  - discriminate.
  - discriminate.
  - vm_compute. reflexivity.
  - vm_compute. split; [discriminate | reflexivity].
  - exists st'. split; assumption.
Defined.

(** ** The peak amplitude *)

Lemma iter_pos_invariant {A : Type} (P : A -> Prop) (f : A -> A) :
  (forall x, P x -> P (f x)) -> forall n x, P x -> P (iter_pos f n x).
Proof.
  intros Hf. induction n as [n IH|n IH|]; intros x Hx; cbn; auto.
Qed.

Lemma shr_1_nonneg (mrs : shr_record) : 0 <= shr_m mrs -> 0 <= shr_m (shr_1 mrs).
Proof.
  destruct mrs as [m r sb]. cbn. destruct m as [|[p|p|]|[p|p|]]; cbn; lia.
Qed.

Lemma shr_nonneg (mrs : shr_record) (e n : Z) :
  0 <= shr_m mrs -> 0 <= shr_m (fst (shr mrs e n)).
Proof.
  intros H. destruct n as [|p|p]; cbn; auto.
  apply iter_pos_invariant; auto. apply shr_1_nonneg.
Qed.

Lemma round_aux_number (sx : bool) (mx ex : Z) (lx : location) :
  0 <= mx -> F32.is_nan (binary_round_aux F32.prec F32.emax sx mx ex lx) = false.
Proof.
  intros Hm. unfold binary_round_aux, shr_fexp.
  pose proof (shr_nonneg (shr_record_of_loc mx lx) ex
                (fexp F32.prec F32.emax (Zdigits2 mx + ex) - ex)) as H1.
  destruct (shr (shr_record_of_loc mx lx) ex _) as [mrs' e'].
  cbn [fst] in H1.
  assert (0 <= shr_m mrs') as Hm' by (apply H1; destruct lx as [|[]]; exact Hm).
  set (m1 := round_nearest_even (shr_m mrs') (loc_of_shr_record mrs')).
  assert (0 <= m1) as Hm1.
  { unfold m1, round_nearest_even.
    destruct (loc_of_shr_record mrs') as [|[]]; try lia.
    destruct (Z.even (shr_m mrs')); lia. }
  pose proof (shr_nonneg (shr_record_of_loc m1 loc_Exact) e'
                (fexp F32.prec F32.emax (Zdigits2 m1 + e') - e')) as H2.
  destruct (shr (shr_record_of_loc m1 loc_Exact) e' _) as [mrs'' e''].
  cbn [fst] in H2. specialize (H2 Hm1).
  destruct (shr_m mrs'') as [|p|p]; try reflexivity; [|lia].
  destruct (e'' <=? F32.emax - F32.prec); reflexivity.
Qed.

(** The conversion of an integer to [float] is never a NaN. *)
Lemma of_int_number (z : Z) : number (F32.of_int z).
Proof.
  unfold number, F32.of_int, binary_normalize.
  destruct z as [|m|m]; [reflexivity| |];
    unfold binary_round; destruct (shl_align _ _ _) as [mz ez];
    apply round_aux_number; lia.
Qed.

Lemma running_max_bound (amp : nat -> Z) : forall n,
  number (running_max amp n)
  /\ (forall i, (i < n)%nat -> F32.leb (F32.of_int (amp i)) (running_max amp n) = true)
  /\ (running_max amp n = F32.zero
      \/ exists j, (j < n)%nat /\ running_max amp n = F32.of_int (amp j)).
Proof.
  induction n as [|n (Hnum & Hbound & Hwhich)]; cbn [running_max].
  - split; [reflexivity|]. split; [intros i Hi; lia | left; reflexivity].
  - pose proof (of_int_number (amp n)) as Hn.
    destruct (F32.gtb (F32.of_int (amp n)) (running_max amp n)) eqn:Hgt.
    + split; [assumption|]. split.
      * intros i Hi. destruct (Nat.eq_dec i n) as [->|Hne].
        -- float_order.
        -- pose proof (Hbound i ltac:(lia)) as Hi'. float_order.
      * right. exists n. split; [lia | reflexivity].
    + split; [assumption|]. split.
      * intros i Hi. destruct (Nat.eq_dec i n) as [->|Hne].
        -- float_order.
        -- apply Hbound. lia.
      * destruct Hwhich as [Hz | (j & Hj & Hjm)]; [left; assumption|].
        right. exists j. split; [lia | assumption].
Qed.

(** Below [2 ^ 24] the conversion of a positive integer is the integer
    itself, shifted to a mantissa of 24 digits. *)
Lemma of_int_canonical (m : positive) :
  Zpos m < 2 ^ 24 ->
  exists m' : positive,
    F32.of_int (Zpos m) = S754_finite false m' (Zpos (digits2_pos m) - 24)
    /\ Zpos m' = Zpos m * 2 ^ (24 - Zpos (digits2_pos m))
    /\ Zpos (digits2_pos m) <= 24.
Proof.
  intros Hz. unfold F32.of_int, binary_normalize, binary_round.
  pose proof (digits2_bounds m) as Hb.
  assert (Zpos (digits2_pos m) <= 24) as Hd.
  { destruct (Z.le_gt_cases (Zpos (digits2_pos m)) 24) as [|Hgt]; [assumption|].
    assert (2 ^ 24 <= 2 ^ (Zpos (digits2_pos m) - 1)) by (apply Z.pow_le_mono_r; lia).
    lia. }
  replace (fexp F32.prec F32.emax (Zpos (digits2_pos m) + 0))
    with (Zpos (digits2_pos m) - 24)
    by (unfold fexp, emin, F32.prec, F32.emax; lia).
  unfold shl_align.
  destruct (Zpos (digits2_pos m) - 24 - 0) as [|d|d] eqn:Ed; try lia.
  - exists m. rewrite round_aux_canonical by lia. split; [f_equal; lia|].
    split; [|exact Hd].
    replace (24 - Zpos (digits2_pos m)) with 0 by lia. lia.
  - exists (Pos.iter xO m d). rewrite round_aux_canonical.
    + split; [f_equal; lia|]. split; [|exact Hd].
      rewrite iter_xO_value. f_equal. f_equal. lia.
    + rewrite digits2_iter_xO. lia.
    + lia.
Qed.

(** On integers below [2 ^ 24] the float comparison is the integer one. *)
Lemma of_int_leb (a b : Z) :
  0 <= a < 2 ^ 24 -> 0 <= b < 2 ^ 24 ->
  F32.leb (F32.of_int a) (F32.of_int b) = true -> a <= b.
Proof.
  intros Ha Hb H. apply leb_key in H as (_ & _ & Hk).
  destruct a as [|ma|ma]; [lia| |lia]. destruct b as [|mb|mb]; [| |lia].
  - destruct (of_int_canonical ma) as (m' & E & _); [lia|].
    rewrite E in Hk. change (F32.of_int 0) with (S754_zero false) in Hk.
    cbn [key] in Hk. unfold key_lt, key_eq in Hk.
    exfalso. destruct Hk as [[H | [H _]] | [H _]];
      [inversion H | discriminate H | discriminate H].
  - destruct (of_int_canonical ma) as (ma' & Ea & Va & Da); [lia|].
    destruct (of_int_canonical mb) as (mb' & Eb & Vb & Db); [lia|].
    rewrite Ea, Eb in Hk. cbn [key] in Hk. unfold key_lt, key_eq in Hk.
    pose proof (digits2_bounds ma) as Ba. pose proof (digits2_bounds mb) as Bb.
    destruct (Z.lt_trichotomy (Zpos (digits2_pos ma)) (Zpos (digits2_pos mb)))
      as [Hlt | [Heq | Hgt]].
    + assert (2 ^ Zpos (digits2_pos ma) <= 2 ^ (Zpos (digits2_pos mb) - 1))
        by (apply Z.pow_le_mono_r; lia).
      lia.
    + rewrite Heq in Va.
      assert (0 < 2 ^ (24 - Zpos (digits2_pos mb))) by (apply Z.pow_pos_nonneg; lia).
      assert (Zpos ma' <= Zpos mb') as Hm by lia.
      rewrite Va, Vb in Hm. apply Z.mul_le_mono_pos_r in Hm; assumption.
    + exfalso. lia.
Qed.

(** With every amplitude below [2 ^ 24] the running peak is the conversion of
    the largest amplitude seen. *)
Lemma running_max_exact (amp : nat -> Z) (n : nat) :
  (forall i, (i < n)%nat -> 0 <= amp i < 2 ^ 24) ->
  exists m,
    running_max amp n = F32.of_int m
    /\ 0 <= m < 2 ^ 24
    /\ (forall i, (i < n)%nat -> amp i <= m)
    /\ ((0 < n)%nat -> exists j, (j < n)%nat /\ m = amp j).
Proof.
  intros Hrange.
  destruct (running_max_bound amp n) as (_ & Hbound & [Hzero | (j & Hj & Hmax)]).
  - exists 0. split; [exact Hzero|]. split; [lia|].
    assert (forall i, (i < n)%nat -> amp i <= 0) as Hle.
    { intros i Hi. apply of_int_leb; [apply Hrange; exact Hi | lia |].
      specialize (Hbound i Hi). rewrite Hzero in Hbound. exact Hbound. }
    split; [exact Hle|].
    intros Hn. exists 0%nat. split; [exact Hn|].
    pose proof (Hle 0%nat Hn). pose proof (Hrange 0%nat Hn). lia.
  - exists (amp j). split; [exact Hmax|]. split; [apply Hrange; exact Hj|]. split.
    + intros i Hi. apply of_int_leb; [apply Hrange; exact Hi | apply Hrange; exact Hj |].
      specialize (Hbound i Hi). rewrite Hmax in Hbound. exact Hbound.
    + intros _. exists j. split; [exact Hj | reflexivity].
Qed.

(** An amplitude is a [uint32_t]. *)
Lemma amplitude_of_nonneg (s : acc_int16_complex_t) (d a : Z) :
  amplitude_of s d = Ok a -> 0 <= a.
Proof.
  unfold amplitude_of. intros H. bind_inv H. injection H as <-.
  unfold to_uint32. apply Z.mod_pos_bound. lia.
Qed.

(** X17. When sample [k > 0] is the first above its threshold, the peak the
    scan leaves in the [float] [max_amplitude] compares, in [float] as line
    405 does, at least as large as the converted amplitude of every sample
    from 0 to [k], and it is 0 or the converted amplitude of one of them.
    When those amplitudes are all below [2 ^ 24], where the conversion is
    exact, the cast [(uint32_t) max_amplitude] of line 455 is exactly the
    largest amplitude among the samples 0 to [k]: nothing after the crossing
    enters the peak. *)
Theorem peak_of_scanned_samples (data : list acc_int16_complex_t)
    (cfg : PrintDataConfig) (temp : Z) (amp : nat -> Z) (k : nat) :
  (0 < k < 400)%nat -> Z.of_nat k < num_points cfg ->
  (forall i, (i < k)%nat ->
     sampled data (compute_divisor temp) amp i /\ above cfg amp i = false) ->
  sampled data (compute_divisor temp) amp k -> above cfg amp k = true ->
  exists l,
    scan_loop cfg data (compute_divisor temp) 0 (Z.to_nat (num_points cfg)) initial_locals
      = Ok l
    /\ (forall i, (i <= k)%nat ->
          F32.leb (F32.of_int (amp i)) (l_max_amplitude l) = true)
    /\ (l_max_amplitude l = F32.zero
        \/ exists j, (j <= k)%nat /\ l_max_amplitude l = F32.of_int (amp j))
    /\ ((forall i, (i <= k)%nat -> amp i < 2 ^ 24) ->
        exists peak,
          F32.to_uint32 (l_max_amplitude l) = Ok peak
          /\ (forall i, (i <= k)%nat -> amp i <= peak)
          /\ exists j, (j <= k)%nat /\ peak = amp j).
Proof.
  intros Hk Hpoints Hquiet Hs Ha.
  destruct (scan_loop_first_crossing cfg data (compute_divisor temp) amp k 0
              (Z.to_nat (num_points cfg)) initial_locals
              (scanning_initial cfg amp) ltac:(lia) Hk ltac:(lia))
    as (l & Hscan & Hl); auto.
  { intros j Hj. apply Hquiet. lia. }
  exists l. split; [assumption|].
  rewrite (crossed_max _ _ _ _ Hl).
  destruct (running_max_bound amp (S k)) as (_ & Hbound & Hwhich).
  split; [|split].
  - intros i Hi. apply Hbound. lia.
  - destruct Hwhich as [Hz | (j & Hj & Hjm)]; [left; assumption|].
    right. exists j. split; [lia | assumption].
  - intros Hsmall.
    assert (forall i, (i < S k)%nat -> 0 <= amp i < 2 ^ 24) as Hrange.
    { intros i Hi. split; [|apply Hsmall; lia].
      destruct (Nat.eq_dec i k) as [->|Hne].
      - destruct Hs as (s & _ & Hamp). exact (amplitude_of_nonneg _ _ _ Hamp).
      - destruct (Hquiet i ltac:(lia)) as [(s & _ & Hamp) _].
        exact (amplitude_of_nonneg _ _ _ Hamp). }
    destruct (running_max_exact amp (S k) Hrange) as (m & Hm & Hmr & Hle & Hj).
    exists m. rewrite Hm. split; [apply to_uint32_of_int; exact Hmr|]. split.
    + intros i Hi. apply Hle. lia.
    + destruct (Hj ltac:(lia)) as (j & Hjk & Hjm). exists j. split; [lia | exact Hjm].
Qed.

Lemma peak_of_scanned_samples_witness :
  exists l,
    scan_loop Scenario.falling_threshold Scenario.rising_frame (compute_divisor 20) 0
      (Z.to_nat (num_points Scenario.falling_threshold)) initial_locals = Ok l
    /\ F32.to_uint32 (l_max_amplitude l) = Ok 48.
Proof.
  destruct (peak_of_scanned_samples Scenario.rising_frame Scenario.falling_threshold 20
              (fun i => match i with O => 0 | _ => 48 end) 1)
    as (l & Hscan & _ & _ & Hexact).
  - split; apply Nat.ltb_lt; reflexivity.
  - reflexivity.
  - intros i Hi. destruct i as [|i].
    + split; [eexists; split; reflexivity | vm_compute; reflexivity].
    + exfalso. apply le_S_n in Hi. inversion Hi.
  - eexists. split; reflexivity.
  - vm_compute. reflexivity.
  - exists l. split; [exact Hscan|].
    destruct Hexact as (peak & Hpeak & Hle & j & Hj & Hjp).
    + intros i _. destruct i; reflexivity.
    + rewrite Hpeak. f_equal.
      pose proof (Hle 1%nat (Nat.le_refl 1)) as H1. cbn in H1.
      destruct j as [|[|j]]; cbn in Hjp.
      * exfalso. rewrite Hjp in H1. apply H1. reflexivity.
      * exact Hjp.
      * exfalso. apply le_S_n in Hj. inversion Hj.
Defined.

(** ** The service entry point *)

Section ServiceFacts.

Import Main ITreeNotations HasPostNotations.
Local Open Scope itree_scope.

Variable w : world.
Variable tables : correction_tables.
Variable cfg : PrintDataConfig.
Variable getAverage : FIFOBuffer spec_float -> Z.
Variable computeWeightedAvg : FIFOBuffer spec_float -> Z -> Z -> Z.
Variable N : nat.

Ltac call_step :=
  rewrite interp_state_bind, interp_state_trigger; cbn;
  rewrite bind_ret_l; cbn.

Ltac post_step :=
  rewrite interp_state_bind; apply has_post_bind_weak; intros [? ?]; cbn.

Lemma has_post_ret {E : Type -> Type} {X : Type} (x : X) (Q : X -> Prop) :
  Q x -> (Ret x : itree E X) ⤳ Q.
Proof. intros H. unfold has_post. apply eqit_Ret. exact H. Qed.

Lemma run_cleanup (config processing sensor buffer : bool) (log : list call) :
  interp_state (handle w) (cleanup config processing sensor buffer) log
  ≈ Ret (log ++ cleanup_calls config processing sensor buffer, tt).
Proof.
  unfold cleanup, cleanup_calls, when.
  call_step. call_step.
  destruct sensor, processing, config, buffer;
    repeat (rewrite interp_state_bind;
            first [rewrite interp_state_trigger | rewrite interp_state_ret]; cbn;
            rewrite bind_ret_l; cbn);
    first [rewrite interp_state_trigger | rewrite interp_state_ret]; cbn;
    rewrite <- ?app_assoc; cbn; reflexivity.
Qed.

Lemma run_set_config (log : list call) :
  interp_state (handle w) set_config log ≈ Ret (log ++ set_config_calls, tt).
Proof.
  unfold set_config, set_config_calls.
  do 9 call_step. rewrite interp_state_trigger. cbn.
  rewrite <- !app_assoc. cbn. reflexivity.
Qed.

Lemma fail_with_cleanup (config processing sensor buffer : bool) (log : list call) :
  interp_state (handle w) (cleanup config processing sensor buffer ;; Ret EXIT_FAILURE) log
  ≈ Ret (log ++ cleanup_calls config processing sensor buffer, EXIT_FAILURE).
Proof.
  rewrite interp_state_bind, run_cleanup, bind_ret_l. cbn.
  rewrite interp_state_ret. reflexivity.
Qed.

Lemma run_fail_in_loop (log : list call) :
  interp_state (handle w) fail_in_loop log
  ≈ Ret (log ++ called acc_sensor_status :: cleanup_calls true true true true,
         inr EXIT_FAILURE).
Proof.
  unfold fail_in_loop. call_step.
  rewrite interp_state_bind, run_cleanup, bind_ret_l. cbn.
  rewrite interp_state_ret. rewrite <- !app_assoc. reflexivity.
Qed.

Lemma run_defined {A : Type} (x : outcome A) (a : A) (log : list call) :
  x = Ok a -> interp_state (handle w) (defined x) log ≈ Ret (log, a).
Proof. intros ->. cbn. rewrite interp_state_ret. reflexivity. Qed.

(** X18. When the start-up step [st] fails after every earlier step succeeded,
    [acc_service] returns [EXIT_FAILURE] having made the start-up calls up to
    that step and then the calls of [cleanup] for what existed by then: nothing
    for a refused HAL registration, and [acc_sensor_status] first when it is
    the calibration that failed. *)
Theorem startup_failure (st : stage) :
  (forall st', (stage_index st' < stage_index st)%nat -> passes w st') ->
  refuses w st ->
  run w (acc_service tables cfg getAverage computeWeightedAvg N)
  ≈ Ret (calls_until st ++ calls_after_failure st, EXIT_FAILURE).
Proof.
  intros Hpass Hfail. unfold run, acc_service.
  call_step. call_step.
  destruct st; cbn in Hfail;
    [ rewrite Hfail; cbn; rewrite interp_state_ret; reflexivity | ..];
    pose proof (Hpass AtRegister ltac:(cbn; lia)) as H0; cbn in H0; rewrite H0; cbn;
    call_step;
    [ rewrite Hfail; cbn; rewrite fail_with_cleanup; reflexivity | ..];
    pose proof (Hpass AtConfig ltac:(cbn; lia)) as H1; cbn in H1; rewrite H1; cbn;
    rewrite interp_state_bind, run_set_config, bind_ret_l; cbn;
    call_step;
    [ rewrite Hfail; rewrite fail_with_cleanup; cbn; rewrite <- ?app_assoc; reflexivity | ..];
    pose proof (Hpass AtProcessing ltac:(cbn; lia)) as H2; cbn in H2;
    match goal with
    | |- context [processing_created w ?l] =>
        destruct (processing_created w l) as [frame_data_length|] eqn:E;
        [|exfalso; exact (H2 _ E)]
    end;
    call_step;
    [ rewrite Hfail; cbn; rewrite fail_with_cleanup; cbn; rewrite <- ?app_assoc;
      reflexivity | ..];
    pose proof (Hpass AtBufferSize ltac:(cbn; lia)) as H3; cbn in H3; rewrite H3; cbn;
    call_step;
    [ rewrite Hfail; cbn; rewrite fail_with_cleanup; cbn; rewrite <- ?app_assoc;
      reflexivity | ..];
    pose proof (Hpass AtAlloc ltac:(cbn; lia)) as H4; cbn in H4; rewrite H4; cbn;
    call_step; call_step; call_step;
    [ rewrite Hfail; cbn; rewrite fail_with_cleanup; cbn; rewrite <- ?app_assoc;
      reflexivity | ];
    pose proof (Hpass AtSensor ltac:(cbn; lia)) as H5; cbn in H5; rewrite H5; cbn;
    call_step; rewrite Hfail; cbn;
    call_step; rewrite fail_with_cleanup; cbn; rewrite <- ?app_assoc; reflexivity.
Qed.

(** X19. When every start-up step succeeds, [acc_service] enters its loop
    after exactly the twenty start-up calls, with the frame length that
    [acc_processing_create] reported and the initial variables (empty buffer,
    timestamp 0, [first_success] 0, [second_success] 1). *)
Theorem startup_success :
  (forall st, passes w st) ->
  exists frame_data_length,
    processing_created w (calls_until AtConfig ++ set_config_calls) = Some frame_data_length
    /\ run w (acc_service tables cfg getAverage computeWeightedAvg N)
       ≈ interp_state (handle w)
           (ITree.iter (loop_body tables cfg getAverage computeWeightedAvg frame_data_length)
              (initial_service_state N))
           (calls_until AtPrepare).
Proof.
  intros Hpass.
  pose proof (Hpass AtRegister) as H0. pose proof (Hpass AtConfig) as H1.
  pose proof (Hpass AtProcessing) as H2. pose proof (Hpass AtBufferSize) as H3.
  pose proof (Hpass AtAlloc) as H4. pose proof (Hpass AtSensor) as H5.
  pose proof (Hpass AtPrepare) as H6. cbn in H0, H1, H2, H3, H4, H5, H6.
  destruct (processing_created w (calls_until AtConfig ++ set_config_calls))
    as [frame_data_length|] eqn:E; [|exfalso; exact (H2 _ E)].
  exists frame_data_length. split; [reflexivity|].
  unfold run, acc_service.
  call_step. call_step. rewrite H0. cbn.
  call_step. rewrite H1. cbn.
  rewrite interp_state_bind, run_set_config, bind_ret_l. cbn.
  call_step. change (processing_created w _)
    with (processing_created w (calls_until AtConfig ++ set_config_calls)).
  rewrite E.
  call_step. rewrite H3. cbn.
  call_step. rewrite H4. cbn.
  call_step. call_step. call_step. rewrite H5. cbn.
  call_step. rewrite H6. cbn.
  reflexivity.
Qed.

(** X20. A turn of the loop whose measurement, interrupt wait and read succeed
    and whose frame needs no recalibration makes eight calls in this order:
    measure, wait, read, execute, the CAN message 0x14 with the amplitudes,
    a delay of 1 ms, the CAN message 0x13 with the distances, a delay of 2 ms.
    Only when both sends returned non-zero does it then read the tick counter
    into [timestamp] and toggle the LED; otherwise [timestamp] is kept.  The
    loop goes on with the state of [frame_cycle] and the two success flags. *)
Theorem frame_turn (frame_data_length : Z) (st : service_state) (log : list call)
    (r : acc_processing_result_t) (l : loop_state) (avg : Z) :
  let sensed := log ++ [called acc_sensor_measure;
                        called acc_hal_integration_wait_for_sensor_interrupt;
                        called acc_sensor_read;
                        called acc_processing_execute] in
  let amplitudes := amplitude_message (proc_data l) in
  let distances := distance_message avg (proc_data l) (temperature r) in
  let first := flag (sent w 20 amplitudes sensed) in
  let second :=
    flag (sent w 19 distances
            (sensed ++ [called (MX_FDCAN1_Send 20 amplitudes); called (HAL_Delay 1)])) in
  let now :=
    tick w (sensed ++ [called (MX_FDCAN1_Send 20 amplitudes); called (HAL_Delay 1);
                       called (MX_FDCAN1_Send 19 distances); called (HAL_Delay 2)]) in
  measured w log = true ->
  interrupted w (log ++ [called acc_sensor_measure]) = true ->
  data_read w (log ++ [called acc_sensor_measure;
                       called acc_hal_integration_wait_for_sensor_interrupt]) = true ->
  processed w (log ++ [called acc_sensor_measure;
                       called acc_hal_integration_wait_for_sensor_interrupt;
                       called acc_sensor_read]) = r ->
  calibration_needed r = false ->
  frame_cycle tables cfg (frame r) frame_data_length (temperature r) (loop st) = Ok l ->
  avg_distance getAverage computeWeightedAvg cfg l = Ok avg ->
  interp_state (handle w)
    (loop_body tables cfg getAverage computeWeightedAvg frame_data_length st) log
  ≈ Ret (log ++ frame_calls amplitudes distances first second,
         inl {| loop := l;
                timestamp := if negb (first =? 0)%Z && negb (second =? 0)%Z
                             then now else timestamp st;
                first_success := first;
                second_success := second |}).
Proof.
  intros sensed amplitudes distances first second now Hm Hi Hr Hp Hc Hcycle Havg.
  unfold loop_body.
  call_step. rewrite Hm. cbn.
  call_step. rewrite Hi. cbn.
  call_step. rewrite <- app_assoc. cbn [app]. rewrite Hr. cbn.
  call_step. rewrite <- !app_assoc. cbn [app]. rewrite Hp, Hc.
  fold sensed.
  unfold process_frame.
  rewrite bind_bind, interp_state_bind, (run_defined _ l) by exact Hcycle.
  rewrite bind_ret_l. cbn.
  rewrite bind_bind, interp_state_bind, (run_defined _ avg) by exact Havg.
  rewrite bind_ret_l. cbn.
  rewrite bind_bind. call_step.
  rewrite bind_bind. call_step.
  rewrite bind_bind. call_step.
  rewrite bind_bind. call_step.
  rewrite <- !app_assoc. cbn [app].
  fold amplitudes distances.
  fold (flag (sent w 20 amplitudes sensed)). fold first.
  fold (flag (sent w 19 distances
                (sensed ++ [called (MX_FDCAN1_Send 20 amplitudes); called (HAL_Delay 1)]))).
  fold second.
  unfold mark_time, frame_calls.
  destruct (negb (first =? 0)%Z && negb (second =? 0)%Z).
  - rewrite bind_bind. call_step. rewrite bind_bind. call_step.
    rewrite bind_ret_l, interp_state_ret.
    unfold now, sensed. rewrite <- !app_assoc. cbn. reflexivity.
  - rewrite bind_ret_l, interp_state_ret.
    unfold sensed. rewrite <- !app_assoc. cbn. reflexivity.
Qed.

(** X21. A turn whose frame asks for recalibration calls
    [do_sensor_calibration_and_prepare] after measure, wait, read and execute,
    sends no CAN message and leaves the loop variables as they were; when that
    call fails the turn ends the service with [acc_sensor_status], the full
    [cleanup] and [EXIT_FAILURE]. *)
Theorem recalibration_turn (frame_data_length : Z) (st : service_state) (log : list call)
    (r : acc_processing_result_t) :
  let sensed := log ++ [called acc_sensor_measure;
                        called acc_hal_integration_wait_for_sensor_interrupt;
                        called acc_sensor_read;
                        called acc_processing_execute] in
  measured w log = true ->
  interrupted w (log ++ [called acc_sensor_measure]) = true ->
  data_read w (log ++ [called acc_sensor_measure;
                       called acc_hal_integration_wait_for_sensor_interrupt]) = true ->
  processed w (log ++ [called acc_sensor_measure;
                       called acc_hal_integration_wait_for_sensor_interrupt;
                       called acc_sensor_read]) = r ->
  calibration_needed r = true ->
  interp_state (handle w)
    (loop_body tables cfg getAverage computeWeightedAvg frame_data_length st) log
  ≈ Ret (if calibrated_and_prepared w sensed
         then (sensed ++ [called do_sensor_calibration_and_prepare], inl st)
         else (sensed ++ [called do_sensor_calibration_and_prepare;
                          called acc_sensor_status]
                      ++ cleanup_calls true true true true,
               inr EXIT_FAILURE)).
Proof.
  intros sensed Hm Hi Hr Hp Hc. unfold loop_body.
  call_step. rewrite Hm. cbn.
  call_step. rewrite Hi. cbn.
  call_step. rewrite <- app_assoc. cbn [app]. rewrite Hr. cbn.
  call_step. rewrite <- !app_assoc. cbn [app]. rewrite Hp, Hc.
  call_step. rewrite <- !app_assoc. cbn [app]. fold sensed.
  destruct (calibrated_and_prepared w sensed); cbn.
  - rewrite interp_state_ret. unfold sensed. rewrite <- !app_assoc. reflexivity.
  - rewrite run_fail_in_loop. unfold sensed. rewrite <- !app_assoc. reflexivity.
Qed.

(** X22. A turn stops at the first of measure, interrupt wait and read that
    fails: nothing of the frame is processed or sent, and the service ends
    with [acc_sensor_status], the full [cleanup] and [EXIT_FAILURE]. *)
Theorem failing_turn (frame_data_length : Z) (st : service_state) (log : list call) :
  let shutdown := called acc_sensor_status :: cleanup_calls true true true true in
  let turn :=
    interp_state (handle w)
      (loop_body tables cfg getAverage computeWeightedAvg frame_data_length st) log in
  (measured w log = false ->
   turn ≈ Ret (log ++ called acc_sensor_measure :: shutdown, inr EXIT_FAILURE))
  /\ (measured w log = true ->
      interrupted w (log ++ [called acc_sensor_measure]) = false ->
      turn ≈ Ret (log ++ called acc_sensor_measure
                      :: called acc_hal_integration_wait_for_sensor_interrupt
                      :: shutdown, inr EXIT_FAILURE))
  /\ (measured w log = true ->
      interrupted w (log ++ [called acc_sensor_measure]) = true ->
      data_read w (log ++ [called acc_sensor_measure;
                           called acc_hal_integration_wait_for_sensor_interrupt]) = false ->
      turn ≈ Ret (log ++ called acc_sensor_measure
                      :: called acc_hal_integration_wait_for_sensor_interrupt
                      :: called acc_sensor_read
                      :: shutdown, inr EXIT_FAILURE)).
Proof.
  cbn zeta. unfold loop_body. repeat apply conj.
  - intros Hm. call_step. rewrite Hm. cbn.
    rewrite run_fail_in_loop. rewrite <- !app_assoc. reflexivity.
  - intros Hm Hi. call_step. rewrite Hm. cbn.
    call_step. rewrite Hi. cbn.
    rewrite run_fail_in_loop. rewrite <- !app_assoc. reflexivity.
  - intros Hm Hi Hr. call_step. rewrite Hm. cbn.
    call_step. rewrite Hi. cbn.
    call_step. rewrite <- app_assoc. cbn [app]. rewrite Hr. cbn.
    rewrite run_fail_in_loop. rewrite <- !app_assoc. reflexivity.
Qed.

(** X23. Whatever its calls answer, [acc_service] has no way to return
    anything but [EXIT_FAILURE]: the loop is left only through a failure. *)
Theorem never_returns_success :
  acc_service tables cfg getAverage computeWeightedAvg N ⤳ (fun v => v = EXIT_FAILURE).
Proof.
  unfold acc_service.
  apply has_post_bind_weak; intros _.
  apply has_post_bind_weak; intros registered.
  destruct registered; cbn; [|apply has_post_ret; reflexivity].
  apply has_post_bind_weak; intros config.
  destruct config; cbn;
    [|apply has_post_bind_weak; intros _; apply has_post_ret; reflexivity].
  apply has_post_bind_weak; intros _.
  apply has_post_bind_weak; intros processing.
  destruct processing as [frame_data_length|];
    [|apply has_post_bind_weak; intros _; apply has_post_ret; reflexivity].
  apply has_post_bind_weak; intros sized.
  destruct sized; cbn;
    [|apply has_post_bind_weak; intros _; apply has_post_ret; reflexivity].
  apply has_post_bind_weak; intros buffer.
  destruct buffer; cbn;
    [|apply has_post_bind_weak; intros _; apply has_post_ret; reflexivity].
  apply has_post_bind_weak; intros _.
  apply has_post_bind_weak; intros _.
  apply has_post_bind_weak; intros sensor.
  destruct sensor; cbn;
    [|apply has_post_bind_weak; intros _; apply has_post_ret; reflexivity].
  apply has_post_bind_weak; intros prepared.
  destruct prepared; cbn;
    [|apply has_post_bind_weak; intros _; apply has_post_bind_weak; intros _;
      apply has_post_ret; reflexivity].
  apply has_post_iter_strong with (Inv := fun _ => True); [|exact I]; cbv beta.
  intros st _. unfold loop_body, fail_in_loop.
  assert (forall t : itree serviceE unit,
            (t ;; cleanup true true true true ;; Ret (inr EXIT_FAILURE))
            ⤳ sum_pred (fun _ : service_state => True) (fun v => v = EXIT_FAILURE)) as Hfail.
  { intros t. apply has_post_bind_weak; intros _. apply has_post_bind_weak; intros _.
    apply has_post_ret. cbn. reflexivity. }
  apply has_post_bind_weak; intros m. destruct m; cbn; [|apply Hfail].
  apply has_post_bind_weak; intros i. destruct i; cbn; [|apply Hfail].
  apply has_post_bind_weak; intros rd. destruct rd; cbn; [|apply Hfail].
  apply has_post_bind_weak; intros r. destruct (calibration_needed r).
  - apply has_post_bind_weak; intros p. destruct p; cbn; [|apply Hfail].
    apply has_post_ret. cbn. exact I.
  - apply has_post_bind_weak; intros st'. apply has_post_ret. cbn. exact I.
Qed.

(** A computation that C leaves undefined returns nothing. *)
Ltac undefined_step :=
  unfold defined; rewrite bind_bind, interp_state_bind, interp_state_trigger; cbn;
  apply has_post_bind_weak; intros [? []].

(** What a turn of the loop adds to the history: its own calls when the loop
    goes on, and its calls followed by [acc_sensor_status] and the [cleanup]
    of all four objects when it returns. *)
Lemma turn_calls (frame_data_length : Z) (st : service_state) (log : list call) :
  interp_state (handle w)
    (loop_body tables cfg getAverage computeWeightedAvg frame_data_length st) log
  ⤳ (fun x =>
       exists turn,
         match snd x with
         | inl _ => fst x = log ++ turn
         | inr _ =>
             fst x = log ++ turn ++ called acc_sensor_status
                                    :: cleanup_calls true true true true
         end).
Proof.
  unfold loop_body.
  call_step. destruct (measured w log); cbn.
  2:{ rewrite run_fail_in_loop. apply has_post_ret. cbn.
      exists [called acc_sensor_measure]. rewrite <- !app_assoc. reflexivity. }
  call_step. destruct (interrupted w _); cbn.
  2:{ rewrite run_fail_in_loop. apply has_post_ret. cbn.
      exists [called acc_sensor_measure;
              called acc_hal_integration_wait_for_sensor_interrupt].
      rewrite <- !app_assoc. reflexivity. }
  call_step. destruct (data_read w _); cbn.
  2:{ rewrite run_fail_in_loop. apply has_post_ret. cbn.
      exists [called acc_sensor_measure;
              called acc_hal_integration_wait_for_sensor_interrupt;
              called acc_sensor_read].
      rewrite <- !app_assoc. reflexivity. }
  call_step. destruct (processed w _) as [needed data degrees]. cbn.
  destruct needed.
  - call_step. destruct (calibrated_and_prepared w _); cbn.
    + rewrite interp_state_ret. apply has_post_ret. cbn.
      exists [called acc_sensor_measure;
              called acc_hal_integration_wait_for_sensor_interrupt;
              called acc_sensor_read;
              called acc_processing_execute;
              called do_sensor_calibration_and_prepare].
      rewrite <- !app_assoc. reflexivity.
    + rewrite run_fail_in_loop. apply has_post_ret. cbn.
      exists [called acc_sensor_measure;
              called acc_hal_integration_wait_for_sensor_interrupt;
              called acc_sensor_read;
              called acc_processing_execute;
              called do_sensor_calibration_and_prepare].
      rewrite <- !app_assoc. reflexivity.
  - unfold process_frame. cbn [frame temperature]. rewrite bind_bind.
    destruct (frame_cycle tables cfg data frame_data_length degrees (loop st))
      as [l|]; [|undefined_step].
    unfold defined at 1. rewrite bind_ret_l, bind_bind.
    destruct (avg_distance getAverage computeWeightedAvg cfg l)
      as [avg|]; [|undefined_step].
    unfold defined. rewrite bind_ret_l, bind_bind.
    call_step. rewrite bind_bind. call_step. rewrite bind_bind. call_step.
    rewrite bind_bind. call_step.
    unfold mark_time.
    match goal with |- context [if ?b then _ else _] => destruct b end.
    + rewrite bind_bind. call_step. rewrite bind_bind. call_step.
      rewrite bind_ret_l, interp_state_ret. apply has_post_ret. cbn.
      eexists. rewrite <- !app_assoc. cbn [app]. reflexivity.
    + rewrite bind_ret_l, interp_state_ret. apply has_post_ret. cbn.
      eexists. rewrite <- !app_assoc. cbn [app]. reflexivity.
Qed.

(** X24. In every world, a run of [acc_service] that returns has made either
    the start-up calls up to a step that failed, followed by the calls of
    [cleanup] for exactly what existed at that step (nothing at all after a
    refused HAL registration), or the twenty start-up calls, the calls of some
    turns of the loop, and then [acc_sensor_status] and the [cleanup] that
    disables the sensor, switches its supply off and destroys or frees all
    four objects. *)
Theorem returns_released :
  run w (acc_service tables cfg getAverage computeWeightedAvg N)
  ⤳ (fun x =>
       (exists st, fst x = calls_until st ++ calls_after_failure st)
       \/ (exists turns,
             fst x = calls_until AtPrepare ++ turns
                     ++ called acc_sensor_status :: cleanup_calls true true true true)).
Proof.
  unfold run, acc_service.
  call_step. call_step.
  destruct (hal_registered w _); cbn.
  2:{ rewrite interp_state_ret. apply has_post_ret. left. exists AtRegister. reflexivity. }
  call_step. destruct (config_created w _); cbn.
  2:{ rewrite fail_with_cleanup. apply has_post_ret. left. exists AtConfig. reflexivity. }
  rewrite interp_state_bind, run_set_config, bind_ret_l. cbn.
  call_step. destruct (processing_created w _) as [frame_data_length|].
  2:{ rewrite fail_with_cleanup. apply has_post_ret. left. exists AtProcessing.
      cbn. rewrite <- ?app_assoc. reflexivity. }
  call_step. destruct (buffer_sized w _); cbn.
  2:{ rewrite fail_with_cleanup. apply has_post_ret. left. exists AtBufferSize.
      cbn. rewrite <- ?app_assoc. reflexivity. }
  call_step. destruct (buffer_allocated w _); cbn.
  2:{ rewrite fail_with_cleanup. apply has_post_ret. left. exists AtAlloc.
      cbn. rewrite <- ?app_assoc. reflexivity. }
  call_step. call_step. call_step. destruct (sensor_created w _); cbn.
  2:{ rewrite fail_with_cleanup. apply has_post_ret. left. exists AtSensor.
      cbn. rewrite <- ?app_assoc. reflexivity. }
  call_step. destruct (calibrated_and_prepared w _); cbn.
  2:{ call_step. rewrite fail_with_cleanup. apply has_post_ret. left. exists AtPrepare.
      cbn. rewrite <- ?app_assoc. reflexivity. }
  match goal with
  | |- interp_state _ _ ?log ⤳ _ => change log with (calls_until AtPrepare)
  end.
  rewrite eutt_eq_interp_state_iter.
  unfold Basics.iter, MonadIter_stateT0, Basics.iter, MonadIter_itree.
  apply has_post_iter_strong
    with (Inv := fun x : list call * service_state =>
                   exists turns, fst x = calls_until AtPrepare ++ turns).
  2:{ exists []. cbn [fst]. rewrite app_nil_r. reflexivity. }
  intros [log st] [turns Hlog]. cbn [fst snd] in *. subst log.
  eapply has_post_bind; [apply turn_calls|].
  intros [log' [st'|v]] [turn H]; cbn [fst snd] in *; apply has_post_ret;
    unfold sum_pred; cbn [fst snd].
  - exists (turns ++ turn). rewrite H, app_assoc. reflexivity.
  - right. exists (turns ++ turn). rewrite H, <- !app_assoc. reflexivity.
Qed.

End ServiceFacts.

Lemma startup_failure_witness :
  eutt eq
    (Main.run (Scenario.board false true true true false)
       (Main.acc_service Scenario.example_tables Scenario.falling_threshold
          (fun _ => 0) (fun _ _ _ => 0) 3))
    (Ret (Main.calls_until Main.AtSensor ++ Main.calls_after_failure Main.AtSensor,
          Main.EXIT_FAILURE)).
Proof.
  apply (startup_failure (Scenario.board false true true true false)
           Scenario.example_tables Scenario.falling_threshold
           (fun _ => 0) (fun _ _ _ => 0) 3 Main.AtSensor).
  - intros st' H. destruct st'; cbn in H; try (exfalso; lia);
      cbn; intros log; try reflexivity; discriminate.
  - intros log. reflexivity.
Defined.

Lemma startup_success_witness :
  exists frame_data_length,
    eutt eq
      (Main.run (Scenario.board true true true true false)
         (Main.acc_service Scenario.example_tables Scenario.falling_threshold
            (fun _ => 0) (fun _ _ _ => 0) 3))
      (interp_state (Main.handle (Scenario.board true true true true false))
         (ITree.iter
            (Main.loop_body Scenario.example_tables Scenario.falling_threshold
               (fun _ => 0) (fun _ _ _ => 0) frame_data_length)
            (Main.initial_service_state 3))
         (Main.calls_until Main.AtPrepare)).
Proof.
  destruct (startup_success (Scenario.board true true true true false)
              Scenario.example_tables Scenario.falling_threshold
              (fun _ => 0) (fun _ _ _ => 0) 3) as (frame_data_length & _ & Hrun).
  - intros st. destruct st; cbn; intros log; try reflexivity; discriminate.
  - exists frame_data_length. exact Hrun.
Defined.

Lemma frame_turn_witness :
  exists l,
    eutt eq
      (Scenario.first_turn (Scenario.board true true true true false))
      (Ret (Main.frame_calls (amplitude_message (proc_data l))
              (distance_message 104 (proc_data l) 20) 1 1,
            inl {| Main.loop := l;
                   Main.timestamp := 7;
                   Main.first_success := 1;
                   Main.second_success := 1 |})).
Proof.
  eexists.
  apply (frame_turn (Scenario.board true true true true false)
           Scenario.example_tables Scenario.falling_threshold
           (fun _ => 0) (fun _ _ _ => 0) 2 Scenario.warm_service []
           {| Main.calibration_needed := false;
              Main.frame := Scenario.flat_frame;
              Main.temperature := 20 |}).
  - reflexivity.
  - reflexivity.
  - reflexivity.
  - reflexivity.
  - reflexivity.
  - vm_compute. reflexivity.
  - vm_compute. reflexivity.
Defined.

Lemma recalibration_turn_witness :
  eutt eq
    (Scenario.first_turn (Scenario.board true true true true true))
    (Ret ([Main.called Main.acc_sensor_measure;
           Main.called Main.acc_hal_integration_wait_for_sensor_interrupt;
           Main.called Main.acc_sensor_read;
           Main.called Main.acc_processing_execute;
           Main.called Main.do_sensor_calibration_and_prepare],
          inl Scenario.warm_service)).
Proof.
  apply (recalibration_turn (Scenario.board true true true true true)
           Scenario.example_tables Scenario.falling_threshold
           (fun _ => 0) (fun _ _ _ => 0) 2 Scenario.warm_service []
           {| Main.calibration_needed := true;
              Main.frame := Scenario.flat_frame;
              Main.temperature := 20 |}); reflexivity.
Defined.

Lemma failing_turn_witness :
  eutt eq
    (Scenario.first_turn (Scenario.board true false true true false))
    (Ret (Main.called Main.acc_sensor_measure
          :: Main.called Main.acc_sensor_status
          :: Main.cleanup_calls true true true true,
          inr Main.EXIT_FAILURE))
  /\ eutt eq
       (Scenario.first_turn (Scenario.board true true false true false))
       (Ret (Main.called Main.acc_sensor_measure
             :: Main.called Main.acc_hal_integration_wait_for_sensor_interrupt
             :: Main.called Main.acc_sensor_status
             :: Main.cleanup_calls true true true true,
             inr Main.EXIT_FAILURE))
  /\ eutt eq
       (Scenario.first_turn (Scenario.board true true true false false))
       (Ret (Main.called Main.acc_sensor_measure
             :: Main.called Main.acc_hal_integration_wait_for_sensor_interrupt
             :: Main.called Main.acc_sensor_read
             :: Main.called Main.acc_sensor_status
             :: Main.cleanup_calls true true true true,
             inr Main.EXIT_FAILURE)).
Proof.
  split; [|split].
  - apply (proj1 (failing_turn (Scenario.board true false true true false)
                    Scenario.example_tables Scenario.falling_threshold
                    (fun _ => 0) (fun _ _ _ => 0) 2 Scenario.warm_service [])).
    reflexivity.
  - apply (proj1 (proj2 (failing_turn (Scenario.board true true false true false)
                           Scenario.example_tables Scenario.falling_threshold
                           (fun _ => 0) (fun _ _ _ => 0) 2 Scenario.warm_service [])));
      reflexivity.
  - apply (proj2 (proj2 (failing_turn (Scenario.board true true true false false)
                           Scenario.example_tables Scenario.falling_threshold
                           (fun _ => 0) (fun _ _ _ => 0) 2 Scenario.warm_service [])));
      reflexivity.
Defined.
